(** * Invoice delivery pipeline: a shallow embedding and its properties

    The development follows the JavaScript sources of the invoice backend:

    - [src/utils/urlSigning.js]      access tokens ([generateSignedUrl],
                                     [verifySignedUrl]);
    - [src/queue/mockQueue.js]       the in-process queue ([MockQueue]);
    - [src/workers/invoice-worker.js] the delivery job;
    - [src/services/emailService.js], [src/services/smsService.js]
                                     the two channel services;
    - [src/routes/invoices.js]       the routes that create, resend, serve
                                     and show an invoice;
    - [src/services/pdfGenerator.js] hashing and storing a PDF;
    - [src/config/index.js]          numeric options;
    - the two column migrations.

    JavaScript strings are represented by their UTF-8 bytes (Rocq [string]),
    integral JavaScript numbers by [Z].  Every integer that is rendered or
    compared is assumed to be a safe integer (see [safe_int]), where the
    arithmetic of doubles is exact and [String(n)] is the decimal numeral.

    Asynchronous code is read sequentially, one [await] after the other.  A
    computation takes the database, returns a value or throws, and yields the
    new database together with the trace of what it did (module [Effect]).
    A statement on the tables succeeds unless it names a table or a column
    the database does not have: the query on [customer_preferences] throws
    while that table does not exist, and the two updates of the flag columns
    of [invoices] throw until migration 002 has added them.  A run of the
    worker reads one clock value.  The PDF generator, the template engine,
    the provider SDKs, the phone number library and [JSON.stringify] are
    functions of their arguments that return or throw ([collaborators]). *)

From Stdlib Require Import ZArith List String Ascii Bool Lia.
From stdpp Require Import base option list gmap.
Import ListNotations.

Local Open Scope string_scope.
Local Open Scope list_scope.
Local Open Scope Z_scope.

(* ===================================================================== *)
(** ** JavaScript values, numerals and strings                             *)
(* ===================================================================== *)

Module JS.

Definition code (c : ascii) : Z := Z.of_N (N_of_ascii c).
Definition chr (n : Z) : ascii := ascii_of_N (Z.to_N n).

Definition bytes_of_string (s : string) : list Z :=
  List.map code (list_ascii_of_string s).
Definition string_of_bytes (bs : list Z) : string :=
  string_of_list_ascii (List.map chr bs).

(** Integers on which doubles are exact. *)
Definition safe_int (z : Z) : Prop := - 2 ^ 53 < z < 2 ^ 53.

(** The values that reach the token codec: an integral number, [NaN],
    a string, or [undefined]. *)
Inductive jsval : Type :=
| JNum (z : Z)
| JNaN
| JStr (s : string)
| JUndefined.

(** *** [Number.prototype.toString] on integers *)

Definition digit_char (d : Z) : ascii := chr (48 + d).

Fixpoint digits_fuel (fuel : nat) (n : Z) (acc : string) : string :=
  match fuel with
  | O => acc
  | S f =>
      let acc' := String (digit_char (n mod 10)) acc in
      if n <? 10 then acc' else digits_fuel f (n / 10) acc'
  end.

Definition nat_digits (n : Z) : string :=
  digits_fuel (S (Z.to_nat (Z.log2 n))) n EmptyString.

Definition numToString (z : Z) : string :=
  if z <? 0 then String "-" (nat_digits (- z)) else nat_digits z.

(** [String(v)], the conversion a template literal applies.  For a number
    this is the decimal numeral, which is what JavaScript prints for every
    safe integer (from 1e21 on JavaScript prints the exponent form). *)
Definition toString (v : jsval) : string :=
  match v with
  | JNum z => numToString z
  | JNaN => "NaN"
  | JStr s => s
  | JUndefined => "undefined"
  end.

(** A destructured array slot that may be missing. *)
Definition slotToString (o : option string) : string :=
  match o with Some s => s | None => "undefined" end.

(** *** [parseInt(string)] with no radix argument *)

(** White space of one byte: TAB, LF, VT, FF, CR, SP. *)
Definition ws1 (c : ascii) : bool :=
  let n := code c in
  ((9 <=? n) && (n <=? 13)) || (n =? 32).

(** U+00A0, encoded on two bytes. *)
Definition ws2 (c1 c2 : ascii) : bool :=
  (code c1 =? 194) && (code c2 =? 160).

(** U+1680, U+2000..U+200A, U+2028, U+2029, U+202F, U+205F, U+3000 and
    U+FEFF, encoded on three bytes. *)
Definition ws3 (c1 c2 c3 : ascii) : bool :=
  let a := code c1 in let b := code c2 in let c := code c3 in
  ((a =? 225) && (b =? 154) && (c =? 128))
  || ((a =? 226) && (b =? 128)
      && (((128 <=? c) && (c <=? 138)) || (c =? 168) || (c =? 169) || (c =? 175)))
  || ((a =? 226) && (b =? 129) && (c =? 159))
  || ((a =? 227) && (b =? 128) && (c =? 128))
  || ((a =? 239) && (b =? 187) && (c =? 191)).

Fixpoint skip_ws (s : string) : string :=
  match s with
  | EmptyString => s
  | String c1 r1 =>
      if ws1 c1 then skip_ws r1
      else
        match r1 with
        | EmptyString => s
        | String c2 r2 =>
            if ws2 c1 c2 then skip_ws r2
            else
              match r2 with
              | EmptyString => s
              | String c3 r3 => if ws3 c1 c2 c3 then skip_ws r3 else s
              end
        end
  end.

Definition digit_val (radix : Z) (c : ascii) : option Z :=
  let n := code c in
  let v :=
    if (48 <=? n) && (n <=? 57) then n - 48
    else if (97 <=? n) && (n <=? 122) then n - 87
    else if (65 <=? n) && (n <=? 90) then n - 55
    else radix in
  if v <? radix then Some v else None.

(** The longest prefix of digits; [None] when there is no digit. *)
Fixpoint parse_digits (radix : Z) (s : string) (acc : option Z) : option Z :=
  match s with
  | EmptyString => acc
  | String c rest =>
      match digit_val radix c with
      | Some d =>
          parse_digits radix rest
            (Some (match acc with Some a => a * radix + d | None => d end))
      | None => acc
      end
  end.

Definition strip_sign (s : string) : bool * string :=
  match s with
  | String c r =>
      if code c =? 45 then (true, r)
      else if code c =? 43 then (false, r)
      else (false, s)
  | EmptyString => (false, s)
  end.

Definition strip_radix (s : string) : Z * string :=
  match s with
  | String c1 (String c2 r) =>
      if (code c1 =? 48) && ((code c2 =? 120) || (code c2 =? 88))
      then (16, r) else (10, s)
  | _ => (10, s)
  end.

(** [None] stands for [NaN]. *)
Definition parseInt_string (s : string) : option Z :=
  let '(neg, s1) := strip_sign (skip_ws s) in
  let '(radix, s2) := strip_radix s1 in
  match parse_digits radix s2 None with
  | Some v => Some (if neg then - v else v)
  | None => None
  end.

Definition parseInt (v : jsval) : option Z := parseInt_string (toString v).

(** [a !== b] on numbers: [NaN] differs from everything, itself included. *)
Definition num_strict_neq (a b : option Z) : bool :=
  match a, b with
  | Some x, Some y => negb (x =? y)
  | _, _ => true
  end.

(** [a > b] on numbers: false as soon as one side is [NaN]. *)
Definition num_gt (a b : option Z) : bool :=
  match a, b with
  | Some x, Some y => y <? x
  | _, _ => false
  end.

(** *** [String.prototype.split(':')] *)

Definition is_colon (c : ascii) : bool := code c =? 58.

Fixpoint split_colon (s : string) : list string :=
  match s with
  | EmptyString => [EmptyString]
  | String c r =>
      if is_colon c then EmptyString :: split_colon r
      else
        match split_colon r with
        | h :: t => String c h :: t
        | [] => [String c EmptyString]
        end
  end.

End JS.

(* ===================================================================== *)
(** ** Node's [Buffer]: base64 and UTF-8                                   *)
(* ===================================================================== *)

Module Buffer.
Import JS.

(** *** [buf.toString('base64')] *)

Definition b64_char (v : Z) : ascii :=
  if v <? 26 then chr (65 + v)
  else if v <? 52 then chr (71 + v)
  else if v <? 62 then chr (v - 4)
  else if v =? 62 then chr 43
  else chr 47.

Definition pad : ascii := chr 61.

Fixpoint b64_encode (bs : list Z) : string :=
  match bs with
  | [] => EmptyString
  | [a] =>
      String (b64_char (a / 4)) (String (b64_char (a mod 4 * 16))
        (String pad (String pad EmptyString)))
  | [a; b] =>
      String (b64_char (a / 4)) (String (b64_char (a mod 4 * 16 + b / 16))
        (String (b64_char (b mod 16 * 4)) (String pad EmptyString)))
  | a :: b :: c :: rest =>
      String (b64_char (a / 4)) (String (b64_char (a mod 4 * 16 + b / 16))
        (String (b64_char (b mod 16 * 4 + c / 64)) (String (b64_char (c mod 64))
          (b64_encode rest))))
  end.

(** *** [Buffer.from(token, 'base64')]

    Node's decoder is lenient: it accepts the standard and the URL-safe
    alphabet, skips every other character, and stops at the first [=].
    Left-over bits of an incomplete group are dropped.  A string is a
    text in UTF-8 here. *)

Definition b64_val (c : ascii) : option Z :=
  let n := code c in
  if (65 <=? n) && (n <=? 90) then Some (n - 65)
  else if (97 <=? n) && (n <=? 122) then Some (n - 71)
  else if (48 <=? n) && (n <=? 57) then Some (n + 4)
  else if (n =? 43) || (n =? 45) then Some 62
  else if (n =? 47) || (n =? 95) then Some 63
  else None.

(** The decoder is handed the UTF-16 code units of the string and looks
    at the low byte of each unit only: U+0141 counts as [A].  For a string
    held as UTF-8, [utf16_low] gives these low bytes: one for a sequence
    of one, two or three bytes, two (a surrogate pair) for a sequence of
    four; a byte that starts no sequence stands for itself. *)
Definition is_cont (c : ascii) : bool :=
  (128 <=? code c) && (code c <=? 191).

Definition low (n : Z) : ascii := chr (n mod 256).

Fixpoint utf16_low (s : string) : string :=
  match s with
  | EmptyString => EmptyString
  | String c1 r1 =>
      let alone := String c1 (utf16_low r1) in
      let b1 := code c1 in
      if b1 <? 194 then alone
      else
        match r1 with
        | EmptyString => alone
        | String c2 r2 =>
            let b2 := code c2 - 128 in
            if negb (is_cont c2) then alone
            else if b1 <? 224 then
              String (low ((b1 - 192) * 64 + b2)) (utf16_low r2)
            else
              match r2 with
              | EmptyString => alone
              | String c3 r3 =>
                  let b3 := code c3 - 128 in
                  if negb (is_cont c3) then alone
                  else if b1 <? 240 then
                    String (low ((b1 - 224) * 4096 + b2 * 64 + b3))
                           (utf16_low r3)
                  else
                    match r3 with
                    | EmptyString => alone
                    | String c4 r4 =>
                        let b4 := code c4 - 128 in
                        let u := (b1 - 240) * 262144 + b2 * 4096 + b3 * 64
                                 + b4 - 65536 in
                        if negb (is_cont c4) || (244 <? b1) || (u <? 0)
                        then alone
                        else
                          String (low (55296 + u / 1024))
                                 (String (low (56320 + u mod 1024))
                                         (utf16_low r4))
                    end
              end
        end
  end.

Fixpoint low_sextets (s : string) : list Z :=
  match s with
  | EmptyString => []
  | String c r =>
      if code c =? 61 then []
      else
        match b64_val c with
        | Some v => v :: low_sextets r
        | None => low_sextets r
        end
  end.

Definition b64_sextets (s : string) : list Z := low_sextets (utf16_low s).

Fixpoint b64_bytes (vs : list Z) : list Z :=
  match vs with
  | a :: b :: c :: d :: rest =>
      (a * 4 + b / 16) :: (b mod 16 * 16 + c / 4) :: (c mod 4 * 64 + d)
        :: b64_bytes rest
  | [a; b; c] => [a * 4 + b / 16; b mod 16 * 16 + c / 4]
  | [a; b] => [a * 4 + b / 16]
  | _ => []
  end.

Definition b64_decode (s : string) : list Z := b64_bytes (b64_sextets s).

(** *** [buf.toString()]: UTF-8 decoding with U+FFFD substitution

    The decoder keeps well-formed sequences and replaces every maximal
    ill-formed subsequence by U+FFFD.  The result is again given by its
    UTF-8 bytes, so a well-formed input comes out unchanged. *)

Record utf8_state : Type := Utf8State {
  needed : nat;
  lower : Z;
  upper : Z;
  pending : list Z
}.

Definition utf8_idle : utf8_state := Utf8State 0 128 191 [].

Definition replacement : list Z := [239; 191; 189].

Definition utf8_lead (b : Z) : list Z * utf8_state :=
  if b <=? 127 then ([b], utf8_idle)
  else if (194 <=? b) && (b <=? 223) then ([], Utf8State 1 128 191 [b])
  else if (224 <=? b) && (b <=? 239) then
    ([], Utf8State 2 (if b =? 224 then 160 else 128)
                     (if b =? 237 then 159 else 191) [b])
  else if (240 <=? b) && (b <=? 244) then
    ([], Utf8State 3 (if b =? 240 then 144 else 128)
                     (if b =? 244 then 143 else 191) [b])
  else (replacement, utf8_idle).

Definition utf8_step (st : utf8_state) (b : Z) : list Z * utf8_state :=
  match needed st with
  | O => utf8_lead b
  | S n =>
      if (lower st <=? b) && (b <=? upper st) then
        match n with
        | O => (pending st ++ [b], utf8_idle)
        | S _ => ([], Utf8State n 128 191 (pending st ++ [b]))
        end
      else
        let '(out, st') := utf8_lead b in (replacement ++ out, st')
  end.

Fixpoint utf8_run (st : utf8_state) (bs : list Z) : list Z :=
  match bs with
  | [] => match needed st with O => [] | S _ => replacement end
  | b :: rest => let '(out, st') := utf8_step st b in out ++ utf8_run st' rest
  end.

Definition utf8_scrub (bs : list Z) : list Z := utf8_run utf8_idle bs.

(** [Buffer.from(s).toString('base64')] *)
Definition toBase64 (s : string) : string := b64_encode (bytes_of_string s).

(** [Buffer.from(token, 'base64').toString()] *)
Definition fromBase64 (token : string) : string :=
  string_of_bytes (utf8_scrub (b64_decode token)).

End Buffer.

(* ===================================================================== *)
(** ** Node's [crypto]: HMAC-SHA256 with a hexadecimal digest              *)
(* ===================================================================== *)

Module Crypto.
Import JS.

Definition add32 (x y : Z) : Z := (x + y) mod 2 ^ 32.
Definition rotr (n x : Z) : Z :=
  Z.lor (Z.shiftr x n) (Z.shiftl x (32 - n) mod 2 ^ 32).
Definition not32 (x : Z) : Z := Z.lxor x (2 ^ 32 - 1).

Definition Ch (x y z : Z) : Z := Z.lxor (Z.land x y) (Z.land (not32 x) z).
Definition Maj (x y z : Z) : Z :=
  Z.lxor (Z.lxor (Z.land x y) (Z.land x z)) (Z.land y z).
Definition bigsigma0 (x : Z) : Z :=
  Z.lxor (Z.lxor (rotr 2 x) (rotr 13 x)) (rotr 22 x).
Definition bigsigma1 (x : Z) : Z :=
  Z.lxor (Z.lxor (rotr 6 x) (rotr 11 x)) (rotr 25 x).
Definition smallsigma0 (x : Z) : Z :=
  Z.lxor (Z.lxor (rotr 7 x) (rotr 18 x)) (Z.shiftr x 3).
Definition smallsigma1 (x : Z) : Z :=
  Z.lxor (Z.lxor (rotr 17 x) (rotr 19 x)) (Z.shiftr x 10).

(** The round constants and the initial hash are the first 32 fractional
    bits of the cube roots, resp. square roots, of the first primes. *)
Definition primes64 : list Z :=
  [2; 3; 5; 7; 11; 13; 17; 19; 23; 29; 31; 37; 41; 43; 47; 53;
   59; 61; 67; 71; 73; 79; 83; 89; 97; 101; 103; 107; 109; 113; 127; 131;
   137; 139; 149; 151; 157; 163; 167; 173; 179; 181; 191; 193; 197; 199;
   211; 223; 227; 229; 233; 239; 241; 251; 257; 263; 269; 271; 277; 281;
   283; 293; 307; 311].

Fixpoint icbrt_bits (k : nat) (n r : Z) : Z :=
  match k with
  | O => r
  | S k' =>
      let c := r + 2 ^ Z.of_nat k' in
      if c * c * c <=? n then icbrt_bits k' n c else icbrt_bits k' n r
  end.

Definition round_constants : list Z :=
  Eval vm_compute in
    List.map (fun p => icbrt_bits 36 (p * 2 ^ 96) 0 mod 2 ^ 32) primes64.

Definition initial_hash : list Z :=
  Eval vm_compute in
    List.map (fun p => Z.sqrt (p * 2 ^ 64) mod 2 ^ 32) (List.firstn 8 primes64).

(** Padding: one bit, zeros, and the bit length on 64 bits. *)
Fixpoint be_bytes (n : nat) (v : Z) : list Z :=
  match n with
  | O => []
  | S n' => (v / 256 ^ Z.of_nat n') mod 256 :: be_bytes n' v
  end.

Definition sha_pad (msg : list Z) : list Z :=
  let len := Z.of_nat (List.length msg) in
  msg ++ [128] ++ List.repeat 0 (Z.to_nat ((55 - len) mod 64))
      ++ be_bytes 8 (8 * len).

Fixpoint be_words (n : nat) (bs : list Z) : list Z :=
  match n, bs with
  | S n', a :: b :: c :: d :: rest =>
      (((a * 256 + b) * 256 + c) * 256 + d) :: be_words n' rest
  | _, _ => []
  end.

Fixpoint blocks (n : nat) (bs : list Z) : list (list Z) :=
  match n with
  | O => []
  | S n' =>
      match bs with
      | [] => []
      | _ => be_words 16 (List.firstn 64 bs) :: blocks n' (List.skipn 64 bs)
      end
  end.

(** The message schedule, most recent word first. *)
Fixpoint extend (n : nat) (w : list Z) : list Z :=
  match n with
  | O => w
  | S n' =>
      let g i := List.nth i w 0 in
      extend n'
        (add32 (add32 (smallsigma1 (g 1%nat)) (g 6%nat))
               (add32 (smallsigma0 (g 14%nat)) (g 15%nat)) :: w)
  end.

Definition schedule (block : list Z) : list Z :=
  List.rev (extend 48 (List.rev block)).

Record regs : Type := Regs { ra : Z; rb : Z; rc : Z; rd : Z;
                             re : Z; rf : Z; rg : Z; rh : Z }.

Definition round (r : regs) (kw : Z * Z) : regs :=
  let t1 := add32 (add32 (add32 (rh r) (bigsigma1 (re r)))
                         (add32 (Ch (re r) (rf r) (rg r)) (fst kw))) (snd kw) in
  let t2 := add32 (bigsigma0 (ra r)) (Maj (ra r) (rb r) (rc r)) in
  Regs (add32 t1 t2) (ra r) (rb r) (rc r) (add32 (rd r) t1) (re r) (rf r) (rg r).

Definition regs_of (h : list Z) : regs :=
  let g i := List.nth i h 0 in
  Regs (g 0%nat) (g 1%nat) (g 2%nat) (g 3%nat) (g 4%nat) (g 5%nat) (g 6%nat) (g 7%nat).

Definition words_of (r : regs) : list Z :=
  [ra r; rb r; rc r; rd r; re r; rf r; rg r; rh r].

Definition compress (h : list Z) (block : list Z) : list Z :=
  let r := List.fold_left round (List.combine round_constants (schedule block))
                          (regs_of h) in
  List.map (fun p => add32 (fst p) (snd p)) (List.combine h (words_of r)).

Definition sha256 (msg : list Z) : list Z :=
  let padded := sha_pad msg in
  let h := List.fold_left compress
             (blocks (List.length padded) padded) initial_hash in
  List.concat (List.map (be_bytes 4) h).

Definition hmac_sha256 (key msg : list Z) : list Z :=
  let k0 := if 64 <? Z.of_nat (List.length key) then sha256 key else key in
  let k := k0 ++ List.repeat 0 (64 - List.length k0) in
  sha256 (List.map (Z.lxor 92) k ++ sha256 (List.map (Z.lxor 54) k ++ msg)).

(** [digest('hex')] *)
Definition hex_char (v : Z) : ascii :=
  if v <? 10 then chr (48 + v) else chr (87 + v).

Fixpoint hex (bs : list Z) : string :=
  match bs with
  | [] => EmptyString
  | b :: rest => String (hex_char (b / 16)) (String (hex_char (b mod 16)) (hex rest))
  end.

(** [crypto.createHmac('sha256', key).update(msg).digest('hex')] *)
Definition hmacHex (key msg : string) : string :=
  hex (hmac_sha256 (bytes_of_string key) (bytes_of_string msg)).

End Crypto.

(* ===================================================================== *)
(** ** [src/utils/urlSigning.js]                                           *)
(* ===================================================================== *)

Module UrlSigning.
Import JS.

(** [process.env.SIGNED_URL_SECRET || 'default-secret-change-in-production'] *)
Definition DEFAULT_SECRET : string := "default-secret-change-in-production".

Definition MS_PER_DAY : Z := 24 * 60 * 60 * 1000.

Section WithSecret.
Variable SECRET : string.

(** [now] is the value of [Date.now()] at the call; the default of
    [expiryDays] is left to the caller. *)
Definition generateSignedUrl (now : Z) (invoiceId : jsval) (expiryDays : Z)
  : string :=
  let expiry := now + expiryDays * 24 * 60 * 60 * 1000 in
  let payload :=
    (toString invoiceId ++ ":" ++ numToString expiry)%string in
  let signature := Crypto.hmacHex SECRET payload in
  Buffer.toBase64 (payload ++ ":" ++ signature)%string.

(** The three slots of [const [id, expiry, signature] = decoded.split(':')];
    the first one always exists. *)
Definition token_fields (token : string)
  : string * option string * option string :=
  let parts := split_colon (Buffer.fromBase64 token) in
  (List.hd EmptyString parts, List.nth_error parts 1, List.nth_error parts 2).

Definition signature_matches (signature : option string) (expected : string)
  : bool :=
  match signature with
  | Some s => String.eqb s expected
  | None => false
  end.

Definition verifySignedUrl (now : Z) (token : string) (invoiceId : jsval)
  : bool :=
  let '(id, expiry, signature) := token_fields token in
  if num_strict_neq (parseInt_string id) (parseInt invoiceId) then false
  else if num_gt (Some now) (parseInt_string (slotToString expiry)) then false
  else
    let expectedSignature :=
      Crypto.hmacHex SECRET (id ++ ":" ++ slotToString expiry)%string in
    if negb (signature_matches signature expectedSignature) then false
    else true.

End WithSecret.

End UrlSigning.

(* ===================================================================== *)
(** ** Thrown values                                                       *)
(* ===================================================================== *)

(** What the code throws: an [Error] instance, or the plain object the two
    channel services throw from their [catch] blocks
    ([{ success: false, provider, error, errorCode }]). *)
Inductive thrown : Type :=
| JsError (message : string) (code : option string)
| ChannelFailure (provider : option string) (error : option string)
                 (errorCode : option string).

(** Property reads on a caught value; [None] is [undefined]. *)
Definition field_message (e : thrown) : option string :=
  match e with JsError m _ => Some m | ChannelFailure _ _ _ => None end.
Definition field_code (e : thrown) : option string :=
  match e with JsError _ c => c | ChannelFailure _ _ _ => None end.
Definition field_error (e : thrown) : option string :=
  match e with JsError _ _ => None | ChannelFailure _ m _ => m end.
Definition field_errorCode (e : thrown) : option string :=
  match e with JsError _ _ => None | ChannelFailure _ _ c => c end.

Definition result (A : Type) : Type := (A + thrown)%type.

(** Truthiness of a nullable text value and the [||] default. *)
Definition truthy (o : option string) : bool :=
  match o with
  | Some s => negb (String.eqb s EmptyString)
  | None => false
  end.

Definition or_else (o : option string) (dflt : string) : string :=
  match o with
  | Some s => if String.eqb s EmptyString then dflt else s
  | None => dflt
  end.

(* ===================================================================== *)
(** ** The tables ([src/utils/db.js], migrations)                          *)
(* ===================================================================== *)

Module Db.

Inductive channel : Type := Email | Sms.

(** [send_logs.status] *)
Inductive log_status : Type := LogSending | LogSent | LogDelivered | LogFailed.

(** [invoices.send_status] *)
Inductive send_status : Type := SendPending | SendSent | SendFailed.

(** The invoice fields the pipeline reads; the remaining columns (totals,
    dates, items) travel in [otherColumns]. *)
Record invoice_data : Type := InvoiceData {
  invoiceNumber : string;
  customerName : string;
  customerEmail : option string;
  customerPhone : option string;
  otherColumns : string
}.

Record invoice_row : Type := InvoiceRow {
  row_data : invoice_data;
  row_send_status : send_status;
  row_email_sent : bool;
  row_email_sent_at : option Z;
  row_sms_sent : bool;
  row_sms_sent_at : option Z
}.

Record settings : Type := Settings {
  email_enabled : bool;
  email_provider : option string;
  email_from : option string;
  sms_enabled : bool;
  sms_provider : option string;
  sms_from : option string;
  auto_send_on_create : bool;
  signed_url_expiry_days : option Z;
  company_name : option string;
  company_email : option string;
  company_address : option string;
  company_phone : option string;
  templates : string
}.

Record preferences : Type := Preferences {
  customer_email : string;
  email_unsubscribed : bool;
  sms_opt_in : bool;
  unsubscribe_token : option string
}.

Record send_log : Type := SendLog {
  log_id : Z;
  log_invoice_id : Z;
  log_send_type : channel;
  log_recipient : option string;
  log_provider : option string;
  log_status_of : log_status;
  log_provider_message_id : option string;
  log_provider_response : option string;
  log_triggered_by : option string;
  log_trigger_type : option string;
  log_queued_at : option Z;
  log_sent_at : option Z;
  log_failed_at : option Z;
  log_error_message : option string;
  log_error_code : option string;
  log_created_at : Z
}.

Record invoice_file : Type := InvoiceFile {
  file_invoice_id : Z;
  file_name : string;
  file_path : string;
  file_size : Z;
  file_hash : string;
  storage_type : string;
  signed_url : option string;
  generated_at : Z
}.

(** [customer_preferences] is [None] while the table does not exist;
    [invoice_settings] is the row with [id = 1], if any.  Row ids of
    [send_logs] are handed out from [send_logs_seq] (AUTOINCREMENT).
    [src/utils/db.js] creates [invoices] without the columns [email_sent],
    [email_sent_at], [sms_sent] and [sms_sent_at], and starts the
    migrations without waiting for them; migration 002 adds the four
    columns.  [invoice_flag_columns] tells the two states apart: none of
    the four columns yet ([false]), or all four ([true]).  While they are
    missing, the four flag fields of a row are not read. *)
Record db : Type := Database {
  invoices : gmap Z invoice_row;
  send_logs : list send_log;
  send_logs_seq : Z;
  invoice_files : list invoice_file;
  invoice_settings : option settings;
  customer_preferences : option (list preferences);
  invoice_flag_columns : bool
}.

(** Every row id was handed out by the sequence. *)
Definition ids_below_seq (d : db) : Prop :=
  Forall (fun r => log_id r <= send_logs_seq d) (send_logs d).

Definition with_logs (d : db) (l : list send_log) (seq : Z) : db :=
  Database (invoices d) l seq (invoice_files d) (invoice_settings d)
           (customer_preferences d) (invoice_flag_columns d).

Definition with_invoices (d : db) (m : gmap Z invoice_row) : db :=
  Database m (send_logs d) (send_logs_seq d) (invoice_files d)
           (invoice_settings d) (customer_preferences d)
           (invoice_flag_columns d).

Definition with_files (d : db) (l : list invoice_file) : db :=
  Database (invoices d) (send_logs d) (send_logs_seq d) l
           (invoice_settings d) (customer_preferences d)
           (invoice_flag_columns d).

(** [INSERT INTO send_logs (...) VALUES (?, <type>, ?, ?, 'sending', ?, ?,
    datetime('now'))]; the new row id is [lastID]. *)
Definition sending_row (id now_s invoiceId : Z) (ch : channel)
           (recipient provider triggeredBy triggerType : option string)
  : send_log :=
  SendLog id invoiceId ch recipient provider LogSending None None
          triggeredBy triggerType (Some now_s) None None None None now_s.

Definition insert_send_log (now_s invoiceId : Z) (ch : channel)
           (recipient provider triggeredBy triggerType : option string)
           (d : db) : Z * db :=
  let id := send_logs_seq d + 1 in
  (id, with_logs d
         (send_logs d ++
            [sending_row id now_s invoiceId ch recipient provider
                         triggeredBy triggerType])
         id).

Definition update_logs_where (id : Z) (f : send_log -> send_log) (d : db)
  : db :=
  with_logs d
    (List.map (fun r => if log_id r =? id then f r else r) (send_logs d))
    (send_logs_seq d).

(** [UPDATE send_logs SET status = 'sent', provider_message_id = ?,
    provider_response = ?, sent_at = datetime('now') WHERE id = ?] *)
Definition set_sent_email (now_s : Z) (messageId response : option string)
           (r : send_log) : send_log :=
  SendLog (log_id r) (log_invoice_id r) (log_send_type r) (log_recipient r)
          (log_provider r) LogSent messageId response
          (log_triggered_by r) (log_trigger_type r) (log_queued_at r)
          (Some now_s) (log_failed_at r) (log_error_message r)
          (log_error_code r) (log_created_at r).

(** [UPDATE send_logs SET status = 'sent', provider_message_id = ?,
    sent_at = datetime('now') WHERE id = ?] *)
Definition set_sent_sms (now_s : Z) (messageId : option string)
           (r : send_log) : send_log :=
  SendLog (log_id r) (log_invoice_id r) (log_send_type r) (log_recipient r)
          (log_provider r) LogSent messageId (log_provider_response r)
          (log_triggered_by r) (log_trigger_type r) (log_queued_at r)
          (Some now_s) (log_failed_at r) (log_error_message r)
          (log_error_code r) (log_created_at r).

(** [UPDATE send_logs SET status = 'failed', error_message = ?,
    error_code = ?, failed_at = datetime('now') WHERE id = ?] *)
Definition set_failed_email (now_s : Z) (message code : option string)
           (r : send_log) : send_log :=
  SendLog (log_id r) (log_invoice_id r) (log_send_type r) (log_recipient r)
          (log_provider r) LogFailed (log_provider_message_id r)
          (log_provider_response r) (log_triggered_by r) (log_trigger_type r)
          (log_queued_at r) (log_sent_at r) (Some now_s) message code
          (log_created_at r).

(** [UPDATE send_logs SET status = 'failed', error_message = ?,
    failed_at = datetime('now') WHERE id = ?] *)
Definition set_failed_sms (now_s : Z) (message : option string)
           (r : send_log) : send_log :=
  SendLog (log_id r) (log_invoice_id r) (log_send_type r) (log_recipient r)
          (log_provider r) LogFailed (log_provider_message_id r)
          (log_provider_response r) (log_triggered_by r) (log_trigger_type r)
          (log_queued_at r) (log_sent_at r) (Some now_s) message
          (log_error_code r) (log_created_at r).

Definition update_invoice (id : Z) (f : invoice_row -> invoice_row) (d : db)
  : db :=
  with_invoices d (alter f id (invoices d)).

(** [UPDATE invoices SET email_sent = 1, email_sent_at = datetime('now')] *)
Definition flag_email_sent (now_s : Z) (r : invoice_row) : invoice_row :=
  InvoiceRow (row_data r) (row_send_status r) true (Some now_s)
             (row_sms_sent r) (row_sms_sent_at r).

(** [UPDATE invoices SET sms_sent = 1, sms_sent_at = datetime('now')] *)
Definition flag_sms_sent (now_s : Z) (r : invoice_row) : invoice_row :=
  InvoiceRow (row_data r) (row_send_status r) (row_email_sent r)
             (row_email_sent_at r) true (Some now_s).

(** What SQLite answers to a statement that names a column the table
    does not have. *)
Definition no_such_column (column : string) : thrown :=
  JsError ("SQLITE_ERROR: no such column: " ++ column)%string
          (Some "SQLITE_ERROR").

(** The two statements that set a flag: they throw while the flag
    columns are missing. *)
Definition mark_email_sent (now_s id : Z) (d : db) : result db :=
  if invoice_flag_columns d
  then inl (update_invoice id (flag_email_sent now_s) d)
  else inr (no_such_column "email_sent").

Definition mark_sms_sent (now_s id : Z) (d : db) : result db :=
  if invoice_flag_columns d
  then inl (update_invoice id (flag_sms_sent now_s) d)
  else inr (no_such_column "sms_sent").

(** [UPDATE invoices SET send_status = ?] *)
Definition set_send_status (s : send_status) (r : invoice_row) : invoice_row :=
  InvoiceRow (row_data r) s (row_email_sent r) (row_email_sent_at r)
             (row_sms_sent r) (row_sms_sent_at r).

(** [SELECT * FROM customer_preferences WHERE customer_email = ?]: the
    statement fails while the table is missing; a [NULL] parameter
    matches no row. *)
Definition select_preferences (email : option string) (d : db)
  : result (option preferences) :=
  match customer_preferences d with
  | None => inr (JsError "SQLITE_ERROR: no such table: customer_preferences"
                         (Some "SQLITE_ERROR"))
  | Some rows =>
      inl (match email with
           | Some e => List.find (fun p => String.eqb (customer_email p) e) rows
           | None => None
           end)
  end.

(** [SELECT * FROM send_logs WHERE invoice_id = ? AND send_type = 'email'
    AND status IN ('sent', 'delivered')
    AND created_at > datetime('now', '-1 hour')
    ORDER BY created_at DESC LIMIT 1] *)
Definition is_recent_email_send (now_s invoiceId : Z) (r : send_log) : bool :=
  (log_invoice_id r =? invoiceId)
  && match log_send_type r with Email => true | Sms => false end
  && match log_status_of r with
     | LogSent | LogDelivered => true
     | LogSending | LogFailed => false
     end
  && (now_s - 3600 <? log_created_at r).

Definition newer (best : option send_log) (r : send_log) : option send_log :=
  match best with
  | Some b => if log_created_at b <? log_created_at r then Some r else Some b
  | None => Some r
  end.

Definition select_recent_email_send (now_s invoiceId : Z) (d : db)
  : option send_log :=
  List.fold_left newer
    (List.filter (is_recent_email_send now_s invoiceId) (send_logs d)) None.

(** [SELECT * FROM invoice_files WHERE invoice_id = ?
    ORDER BY generated_at DESC LIMIT 1] *)
Definition newer_file (best : option invoice_file) (f : invoice_file)
  : option invoice_file :=
  match best with
  | Some b => if generated_at b <? generated_at f then Some f else Some b
  | None => Some f
  end.

Definition select_latest_file (invoiceId : Z) (d : db) : option invoice_file :=
  List.fold_left newer_file
    (List.filter (fun f => file_invoice_id f =? invoiceId) (invoice_files d))
    None.

End Db.

(* ===================================================================== *)
(** ** Configuration and external collaborators                            *)
(* ===================================================================== *)

(** The part of [src/config/index.js] the pipeline reads. *)
Record config : Type := Config {
  appUrl : string;
  sendgrid_apiKey : option string;
  mailgun_apiKey : option string;
  ses_accessKeyId : option string;
  twilio_accountSid : option string;
  vonage_apiKey : option string;
  concurrentJobs : Z
}.

Record company_data : Type := CompanyData {
  company_display_name : string;
  company_contact_email : string;
  company_postal_address : string;
  company_phone_number : string
}.

Record file_info : Type := FileInfo {
  info_fileName : string;
  info_filePath : string;
  info_fileSize : Z;
  info_fileHash : string;
  info_storageType : string
}.

(** The argument of [emailService.sendInvoiceEmail]. *)
Record email_params : Type := EmailParams {
  ep_to : option string;
  ep_customerName : string;
  ep_invoiceData : Db.invoice_data;
  ep_pdfBuffer : option string;
  ep_pdfFileName : option string;
  ep_invoiceUrl : option string;
  ep_unsubscribeUrl : string;
  ep_settings : Db.settings
}.

(** The argument of [smsService.sendInvoiceSMS]. *)
Record sms_params : Type := SmsParams {
  sp_to : option string;
  sp_customerName : string;
  sp_invoiceData : Db.invoice_data;
  sp_invoiceUrl : option string;
  sp_settings : Db.settings
}.

Record attachment : Type := Attachment {
  att_content : string;
  att_filename : option string
}.

Record rendered_email : Type := RenderedEmail {
  re_subject : string;
  re_html : string;
  re_text : string
}.

Record email_data : Type := EmailData {
  ed_to : option string;
  ed_subject : string;
  ed_html : string;
  ed_text : string;
  ed_attachments : option (list attachment)
}.

Record provider_reply : Type := ProviderReply {
  reply_messageId : option string;
  reply_response : option string
}.

(** What a channel service returns on success. *)
Record send_result : Type := SendResult {
  sr_provider : string;
  sr_messageId : option string;
  sr_response : option string
}.

(** Packages and services outside the sources at hand: the PDF generator,
    Handlebars and [Intl] (template rendering), the provider SDKs,
    libphonenumber and [JSON.stringify] on what a provider answered.  Each
    is a function of its arguments that returns or throws.  Loading and
    constructing the client of a provider, with the configured credentials,
    returns ([None]) or throws. *)
Record collaborators : Type := Collaborators {
  generateInvoicePDF : Db.invoice_data -> company_data -> result string;
  savePDF : string -> string -> result file_info;
  renderTemplate : email_params -> result rendered_email;
  sendgrid_send : email_data -> result provider_reply;
  mailgun_create : email_data -> result provider_reply;
  ses_sendMail : email_data -> result provider_reply;
  (** [Some] of the E.164 form when the number parses and is valid. *)
  parsePhoneNumber : string -> option string;
  renderMessage : sms_params -> result string;
  twilio_create : string -> string -> result provider_reply;
  vonage_sendSms : string -> string -> result provider_reply;
  (** [initSendGrid()], [initMailgun()], [initSES()] *)
  sendgrid_client : option thrown;
  mailgun_client : option thrown;
  ses_client : option thrown;
  (** [require('twilio')(accountSid, authToken)], [new Vonage({...})] *)
  twilio_client : option thrown;
  vonage_client : option thrown;
  (** [JSON.stringify(result.response)] *)
  stringify : option string -> result (option string)
}.

(* ===================================================================== *)
(** ** Channel services                                                    *)
(* ===================================================================== *)

(** [src/services/emailService.js] *)
Module EmailService.

Inductive provider : Type := SendGrid | Mailgun | SES.

Definition providerName (p : provider) : string :=
  match p with SendGrid => "sendgrid" | Mailgun => "mailgun" | SES => "ses" end.

(** The client of a provider is constructed, or the construction
    throws. *)
Definition construct (client : option thrown) (p : provider) : result provider :=
  match client with
  | None => inl p
  | Some e => inr e
  end.

(** [init(settings)]: constructs the client of the provider named by the
    settings when its credentials are configured, and throws otherwise;
    its [catch] block throws again what it caught. *)
Definition init (cfg : config) (ext : collaborators) (st : Db.settings)
  : result provider :=
  let name := or_else (Db.email_provider st) "sendgrid" in
  if String.eqb name "sendgrid" && truthy (sendgrid_apiKey cfg)
  then construct (sendgrid_client ext) SendGrid
  else if String.eqb name "mailgun" && truthy (mailgun_apiKey cfg)
  then construct (mailgun_client ext) Mailgun
  else if String.eqb name "ses" && truthy (ses_accessKeyId cfg)
  then construct (ses_client ext) SES
  else inr (JsError ("Email provider not configured: " ++ name)%string None).

(** [emailData.attachments] is set only when there is a buffer. *)
Definition attachments_of (p : email_params) : option (list attachment) :=
  match ep_pdfBuffer p with
  | Some buf =>
      Some [Attachment (Buffer.b64_encode (JS.bytes_of_string buf))
                       (ep_pdfFileName p)]
  | None => None
  end.

(** [emailData.attachments.map(...)] on a missing property. *)
Definition map_of_undefined : thrown :=
  JsError "Cannot read properties of undefined (reading 'map')" None.

Definition transport (ext : collaborators) (p : provider) (d : email_data)
  : result provider_reply :=
  match p with
  | SendGrid => sendgrid_send ext d
  | Mailgun =>
      match ed_attachments d with
      | Some _ => mailgun_create ext d
      | None => inr map_of_undefined
      end
  | SES =>
      match ed_attachments d with
      | Some _ => ses_sendMail ext d
      | None => inr map_of_undefined
      end
  end.

(** The body of the [try] block of [sendInvoiceEmail]. *)
Definition attempt (ext : collaborators) (p : provider) (params : email_params)
  : result provider_reply :=
  match renderTemplate ext params with
  | inr e => inr e
  | inl r =>
      transport ext p
        (EmailData (ep_to params) (re_subject r) (re_html r) (re_text r)
                   (attachments_of params))
  end.

(** [sendInvoiceEmail(params)]: every failure is re-thrown as the object
    [{ success: false, provider, error: error.message,
       errorCode: error.code, ... }]. *)
Definition sendInvoiceEmail (ext : collaborators) (p : provider)
           (params : email_params) : result send_result :=
  match attempt ext p params with
  | inl reply =>
      inl (SendResult (providerName p) (reply_messageId reply)
                      (reply_response reply))
  | inr error =>
      inr (ChannelFailure (Some (providerName p)) (field_message error)
                          (field_code error))
  end.

End EmailService.

(** [src/services/smsService.js] *)
Module SmsService.

Inductive provider : Type := Twilio | Vonage.

Definition providerName (p : provider) : string :=
  match p with Twilio => "twilio" | Vonage => "vonage" end.

Definition construct (client : option thrown) (p : provider) : result provider :=
  match client with
  | None => inl p
  | Some e => inr e
  end.

(** [init(settings)]: loads and constructs the client of the provider
    named by the settings when its account id or key is configured. *)
Definition init (cfg : config) (ext : collaborators) (st : Db.settings)
  : result provider :=
  let name := or_else (Db.sms_provider st) "twilio" in
  if String.eqb name "twilio" && truthy (twilio_accountSid cfg)
  then construct (twilio_client ext) Twilio
  else if String.eqb name "vonage" && truthy (vonage_apiKey cfg)
  then construct (vonage_client ext) Vonage
  else inr (JsError ("SMS provider not configured: " ++ name)%string None).

(** [validatePhoneNumber(phone)] *)
Definition validatePhoneNumber (ext : collaborators) (phone : string)
  : result string :=
  match parsePhoneNumber ext phone with
  | Some e164 => inl e164
  | None => inr (JsError ("Invalid phone number: " ++ phone)%string None)
  end.

Definition transport (ext : collaborators) (p : provider) (to message : string)
  : result provider_reply :=
  match p with
  | Twilio => twilio_create ext to message
  | Vonage => vonage_sendSms ext to message
  end.

Definition attempt (ext : collaborators) (p : provider) (params : sms_params)
  : result provider_reply :=
  match validatePhoneNumber ext (JS.slotToString (sp_to params)) with
  | inr e => inr e
  | inl phoneNumber =>
      match renderMessage ext params with
      | inr e => inr e
      | inl message => transport ext p phoneNumber message
      end
  end.

Definition sendInvoiceSMS (ext : collaborators) (p : provider)
           (params : sms_params) : result send_result :=
  match attempt ext p params with
  | inl reply =>
      inl (SendResult (providerName p) (reply_messageId reply)
                      (reply_response reply))
  | inr error =>
      inr (ChannelFailure (Some (providerName p)) (field_message error)
                          (field_code error))
  end.

End SmsService.

(* ===================================================================== *)
(** ** Effects: database state, exceptions, and the trace of a run        *)
(* ===================================================================== *)

Module Effect.
Import Db.

(** What a run does, in the order it does it. *)
Inductive event : Type :=
| EvProgress (percent : Z)
| EvRenderPdf (d : invoice_data) (c : company_data)
| EvSavePdf (buffer fileName : string)
| EvMintToken (resource : JS.jsval) (days : Z)
| EvInsertFile (f : invoice_file)
| EvInsertLog (ch : channel) (id : Z)
| EvInit (ch : channel)
| EvSendEmail (p : email_params)
| EvSendSms (p : sms_params)
| EvLogSent (ch : channel) (id : Z)
| EvLogFailed (ch : channel) (id : Z) (message code : option string)
| EvFlagSent (ch : channel) (invoiceId : Z)
| EvSendStatus (invoiceId : Z) (s : send_status).

(** A computation reads and writes the database, returns or throws, and
    leaves a trace. *)
Definition M (A : Type) : Type := db -> result A * db * list event.

Definition ret {A : Type} (a : A) : M A := fun d => (inl a, d, []).

Definition throw {A : Type} (e : thrown) : M A := fun d => (inr e, d, []).

Definition bind {A B : Type} (m : M A) (k : A -> M B) : M B :=
  fun d =>
    match m d with
    | (inl a, d1, t1) =>
        match k a d1 with (r, d2, t2) => (r, d2, t1 ++ t2) end
    | (inr e, d1, t1) => (inr e, d1, t1)
    end.

(** [try { m } catch (e) { h e }] *)
Definition try_catch {A : Type} (m : M A) (h : thrown -> M A) : M A :=
  fun d =>
    match m d with
    | (inl a, d1, t1) => (inl a, d1, t1)
    | (inr e, d1, t1) =>
        match h e d1 with (r, d2, t2) => (r, d2, t1 ++ t2) end
    end.

Definition emit (e : event) : M unit := fun d => (inl tt, d, [e]).

Definition write (f : db -> db) : M unit := fun d => (inl tt, f d, []).

Definition read {A : Type} (f : db -> A) : M A := fun d => (inl (f d), d, []).

(** A statement that changes the database or throws. *)
Definition run_statement (f : db -> result db) : M unit :=
  fun d =>
    match f d with
    | inl d' => (inl tt, d', [])
    | inr e => (inr e, d, [])
    end.

(** Awaiting a call that returns or throws. *)
Definition await {A : Type} (r : result A) : M A := fun d => (r, d, []).

Definition outcome_of {A : Type} (x : result A * db * list event) : result A :=
  fst (fst x).
Definition db_of {A : Type} (x : result A * db * list event) : db :=
  snd (fst x).
Definition trace_of {A : Type} (x : result A * db * list event) : list event :=
  snd x.

End Effect.

Declare Scope job_scope.
Delimit Scope job_scope with job.
Notation "x <- m ;; k" := (Effect.bind m (fun x => k))
  (at level 100, m at next level, right associativity) : job_scope.
Notation "m ;;; k" := (Effect.bind m (fun _ => k))
  (at level 100, right associativity) : job_scope.

Local Open Scope job_scope.

(* ===================================================================== *)
(** ** [src/queue/mockQueue.js]                                            *)
(* ===================================================================== *)

Module MockQueue.
Import Effect.

Section Queue.
Context {Data Res : Type}.

(** The job object handed to the processor.  Its [progress] callback is
    [EvProgress] in the trace. *)
Record job : Type := Job { id : string; data : Data }.

(** [this.name], [this.processor] *)
Record queue : Type := Queue {
  name : string;
  processor : option (job -> M Res)
}.

(** What [add] resolves to: [{ id, data, result }] or [{ id, data }]. *)
Record added : Type := Added {
  added_id : string;
  added_data : Data;
  added_result : option Res
}.

(** [new MockQueue(name)] *)
Definition create (n : string) : queue := Queue n None.

(** [add(jobName, data, options = {})]; [options] is not read and [now]
    is [Date.now()]. *)
Definition add (now : Z) (q : queue) (jobName : string) (d : Data) : M added :=
  match processor q with
  | Some p =>
      try_catch
        (let j := Job (JS.numToString now) d in
         r <- p j ;;
         ret (Added (id j) d (Some r)))
        (fun error => throw error)
  | None => ret (Added (JS.numToString now) d None)
  end.

(** [process(jobName, concurrency, processorFn)] *)
Definition process (q : queue) (jobName : string) (concurrency : Z)
           (processorFn : job -> M Res) : queue :=
  Queue (name q) (Some processorFn).

(** [close()] *)
Definition close (q : queue) : M unit := ret tt.

End Queue.

Arguments job : clear implicits.
Arguments queue : clear implicits.
Arguments added : clear implicits.

End MockQueue.

(* ===================================================================== *)
(** ** [src/workers/invoice-worker.js]                                     *)
(* ===================================================================== *)

Module Worker.
Import Db Effect.

(** [job.data] *)
Record job_data : Type := JobData {
  invoiceId : Z;
  invoiceData : invoice_data;
  triggeredBy : option string;
  triggerType : option string
}.

(** [{ skipped: true, reason }] or [{ success: true, invoiceId, fileName }] *)
Inductive job_result : Type :=
| Skipped (reason : string)
| Success (invoiceId : Z) (fileName : option string).

(** [pdfBuffer], [fileName], [invoiceUrl] *)
Definition artifact : Type := (option string * option string * option string)%type.

Definition no_artifact : artifact := (None, None, None).

Section Job.
Variable cfg : config.
Variable ext : collaborators.
Variable SECRET : string.
(** [Date.now()], in milliseconds, and [datetime('now')], in seconds;
    a run is taken to be instantaneous. *)
Variable now : Z.

Definition now_s : Z := now / 1000.

Definition progress (percent : Z) : M unit := emit (EvProgress percent).

Definition query {A : Type} (f : db -> result A) : M A :=
  fun d => (f d, d, []).

(** Reading a property of [settings] when the query returned no row:
    the TypeError names the property. *)
Definition settings_undefined (property : string) : thrown :=
  JsError ("Cannot read properties of undefined (reading '"
             ++ property ++ "')")%string None.

Definition the_settings (property : string) (s : option settings)
  : M settings :=
  match s with
  | Some st => ret st
  | None => throw (settings_undefined property)
  end.

(** [settings.signed_url_expiry_days || 7] *)
Definition expiry_days (st : settings) : Z :=
  match signed_url_expiry_days st with
  | Some n => if n =? 0 then 7 else n
  | None => 7
  end.

Definition companyData (st : settings) : company_data :=
  CompanyData (or_else (company_name st) "Finverse")
              (or_else (company_email st)
                       (or_else (email_from st) "noreply@finverse.info"))
              (or_else (company_address st) "")
              (or_else (company_phone st) "").

(** [`/api/invoices/${invoiceId}/pdf`] *)
Definition pdf_path (invoice : Z) : string :=
  ("/api/invoices/" ++ JS.numToString invoice ++ "/pdf")%string.

(** [`invoice-${invoiceData.invoiceNumber}.pdf`] *)
Definition pdf_file_name (d : invoice_data) : string :=
  ("invoice-" ++ invoiceNumber d ++ ".pdf")%string.

(** The call [generateSignedUrl(`/api/invoices/${invoiceId}/pdf`,
    settings.signed_url_expiry_days || 7)]. *)
Definition worker_token (invoice : Z) (st : settings) : string :=
  UrlSigning.generateSignedUrl SECRET now (JS.JStr (pdf_path invoice))
                               (expiry_days st).

Definition file_record (invoice : Z) (info : file_info) (signedUrl : string)
  : invoice_file :=
  InvoiceFile invoice (info_fileName info) (info_filePath info)
              (info_fileSize info) (info_fileHash info)
              (info_storageType info) (Some signedUrl) now_s.

(** Step 1 of the worker: the [try] block around PDF generation, and
    its [catch]. *)
Definition generate_pdf (jd : job_data) (s : option settings) : M artifact :=
  try_catch
    (st <- the_settings "company_name" s ;;
     emit (EvRenderPdf (invoiceData jd) (companyData st)) ;;;
     pdfBuffer <- await (generateInvoicePDF ext (invoiceData jd) (companyData st)) ;;
     let fileName := pdf_file_name (invoiceData jd) in
     progress 25 ;;;
     emit (EvSavePdf pdfBuffer fileName) ;;;
     fileInfo <- await (savePDF ext pdfBuffer fileName) ;;
     emit (EvMintToken (JS.JStr (pdf_path (invoiceId jd))) (expiry_days st)) ;;;
     let signedUrl := worker_token (invoiceId jd) st in
     let f := file_record (invoiceId jd) fileInfo signedUrl in
     emit (EvInsertFile f) ;;;
     write (fun d => with_files d (invoice_files d ++ [f])) ;;;
     ret (Some pdfBuffer, Some fileName, Some signedUrl))
    (fun pdfError => ret no_artifact).

Definition insert_log (ch : channel) (jd : job_data)
           (recipient provider : option string) : M Z :=
  lastID <- (fun d =>
               let '(i, d') :=
                 insert_send_log now_s (invoiceId jd) ch recipient provider
                                 (triggeredBy jd) (triggerType jd) d in
               (inl i, d', [])) ;;
  emit (EvInsertLog ch lastID) ;;;
  ret lastID.

(** [prefs?.unsubscribe_token] *)
Definition token_of (prefs : option preferences) : option string :=
  match prefs with Some p => unsubscribe_token p | None => None end.

Definition email_params_of (jd : job_data) (st : settings)
           (prefs : option preferences) (a : artifact) : email_params :=
  let '(pdfBuffer, fileName, invoiceUrl) := a in
  EmailParams (customerEmail (invoiceData jd))
              (customerName (invoiceData jd))
              (invoiceData jd) pdfBuffer fileName invoiceUrl
              (appUrl cfg ++ "/unsubscribe?token="
                 ++ or_else (token_of prefs) "")%string
              st.

(** Step 2 of the worker.  Everything from the initialisation to the
    update of the flag is inside the [try] block; [EvLogSent] and
    [EvFlagSent] stand for the two updates once they are done. *)
Definition send_email (jd : job_data) (st : settings)
           (prefs : option preferences) (a : artifact) : M unit :=
  if email_enabled st && truthy (customerEmail (invoiceData jd)) then
    emailLog <- insert_log Email jd (customerEmail (invoiceData jd))
                           (email_provider st) ;;
    try_catch
      (emit (EvInit Email) ;;;
       p <- await (EmailService.init cfg ext st) ;;
       let params := email_params_of jd st prefs a in
       emit (EvSendEmail params) ;;;
       r <- await (EmailService.sendInvoiceEmail ext p params) ;;
       json <- await (stringify ext (sr_response r)) ;;
       write (update_logs_where emailLog
                (set_sent_email now_s (sr_messageId r) json)) ;;;
       emit (EvLogSent Email emailLog) ;;;
       run_statement (mark_email_sent now_s (invoiceId jd)) ;;;
       emit (EvFlagSent Email (invoiceId jd)))
      (fun error =>
         emit (EvLogFailed Email emailLog (field_error error)
                           (field_errorCode error)) ;;;
         write (update_logs_where emailLog
                  (set_failed_email now_s (field_error error)
                                    (field_errorCode error))) ;;;
         throw error)
  else ret tt.

Definition sms_params_of (jd : job_data) (st : settings) (a : artifact)
  : sms_params :=
  SmsParams (customerPhone (invoiceData jd)) (customerName (invoiceData jd))
            (invoiceData jd) (snd a) st.

Definition sms_opted_in (prefs : option preferences) : bool :=
  match prefs with Some p => sms_opt_in p | None => false end.

(** Step 3 of the worker. *)
Definition send_sms (jd : job_data) (st : settings)
           (prefs : option preferences) (a : artifact) : M unit :=
  if sms_enabled st && truthy (customerPhone (invoiceData jd))
     && sms_opted_in prefs then
    smsLog <- insert_log Sms jd (customerPhone (invoiceData jd))
                         (sms_provider st) ;;
    try_catch
      (emit (EvInit Sms) ;;;
       p <- await (SmsService.init cfg ext st) ;;
       let params := sms_params_of jd st a in
       emit (EvSendSms params) ;;;
       r <- await (SmsService.sendInvoiceSMS ext p params) ;;
       write (update_logs_where smsLog (set_sent_sms now_s (sr_messageId r))) ;;;
       emit (EvLogSent Sms smsLog) ;;;
       run_statement (mark_sms_sent now_s (invoiceId jd)) ;;;
       emit (EvFlagSent Sms (invoiceId jd)))
      (fun error =>
         emit (EvLogFailed Sms smsLog (field_error error) None) ;;;
         write (update_logs_where smsLog
                  (set_failed_sms now_s (field_error error))))
  else ret tt.

Definition mark (jd : job_data) (s : send_status) : M unit :=
  emit (EvSendStatus (invoiceId jd) s) ;;;
  write (update_invoice (invoiceId jd) (set_send_status s)).

Definition unsubscribed (prefs : option preferences) : bool :=
  match prefs with Some p => email_unsubscribed p | None => false end.

(** The processor registered for ['send-invoice']. *)
Definition processJob (j : MockQueue.job job_data) : M job_result :=
  let jd := MockQueue.data j in
  try_catch
    (s <- read invoice_settings ;;
     prefs <- try_catch
                (query (select_preferences (customerEmail (invoiceData jd))))
                (fun err => ret None) ;;
     if unsubscribed prefs then ret (Skipped "unsubscribed")
     else
       progress 10 ;;;
       a <- generate_pdf jd s ;;
       progress 40 ;;;
       st <- the_settings "email_enabled" s ;;
       send_email jd st prefs a ;;;
       progress 70 ;;;
       send_sms jd st prefs a ;;;
       progress 100 ;;;
       mark jd SendSent ;;;
       ret (Success (invoiceId jd) (snd (fst a))))
    (fun error => mark jd SendFailed ;;; throw error).

(** [invoiceQueue.process('send-invoice', config.queue.concurrentJobs, ...)]
    on the queue of [src/queue/invoiceQueue.js]. *)
Definition invoiceQueue : MockQueue.queue job_data job_result :=
  MockQueue.process (MockQueue.create "invoice-notifications")
                    "send-invoice" (concurrentJobs cfg) processJob.

End Job.

End Worker.

(* ===================================================================== *)
(** ** [src/routes/invoices.js]                                            *)
(* ===================================================================== *)

Module Routes.
Import Db Effect.

(** Responses of [POST /api/invoices/:id/send]. *)
Inductive send_response : Type :=
| AlreadySent (sendLog : send_log)
| InvoiceNotFound
| QueuedForSending (jobId : string)
| Failure (error : thrown).

(** Responses of [GET /api/invoices/:id/pdf]. *)
Inductive pdf_response : Type :=
| Forbidden
| PdfNotFound
| StreamFile (path : string)
| RedirectTo (url : option string).

Section Handlers.
Variable SECRET : string.
Variable now : Z.
Variable queue : MockQueue.queue Worker.job_data Worker.job_result.

(** The handler of [POST /:id/send]; [invoiceId] is
    [parseInt(req.params.id)] and [user] is [req.user?.id]. *)
Definition post_send (invoiceId : Z) (user : option string) : M send_response :=
  try_catch
    (recentSend <- read (select_recent_email_send (now / 1000) invoiceId) ;;
     match recentSend with
     | Some row => ret (AlreadySent row)
     | None =>
         invoice <- read (fun d => invoices d !! invoiceId) ;;
         match invoice with
         | None => ret InvoiceNotFound
         | Some row =>
             j <- MockQueue.add now queue "send-invoice"
                    (Worker.JobData invoiceId (row_data row)
                                    (Some (or_else user "manual"))
                                    (Some "manual")) ;;
             ret (QueuedForSending (MockQueue.added_id j))
         end
     end)
    (fun error => ret (Failure error)).

(** The handler of [GET /:id/pdf]; [token] is [req.query.token]. *)
Definition get_pdf (invoiceId : Z) (token : option string) (d : db)
  : pdf_response :=
  if negb (truthy token)
     || negb (UrlSigning.verifySignedUrl SECRET now (JS.slotToString token)
                                         (JS.JNum invoiceId))
  then Forbidden
  else
    match select_latest_file invoiceId d with
    | None => PdfNotFound
    | Some file =>
        if String.eqb (storage_type file) "local"
        then StreamFile (file_path file)
        else RedirectTo (signed_url file)
    end.

End Handlers.

End Routes.

(* ===================================================================== *)
(** ** Reading a trace                                                     *)
(* ===================================================================== *)

Module Trace.
Import Db Effect.

(** The values passed to [job.progress], in order. *)
Definition progress_values (t : list event) : list Z :=
  List.flat_map (fun e => match e with EvProgress n => [n] | _ => [] end) t.

(** What happens to one channel during a run. *)
Inductive phase : Type :=
| PhInsert (id : Z)     (* the 'sending' row is inserted *)
| PhInit                (* the channel service is initialised *)
| PhDispatch            (* the dispatch call is made *)
| PhSent (id : Z)       (* the row is updated to 'sent' *)
| PhFailed (id : Z).    (* the row is updated to 'failed' *)

Definition same_channel (a b : channel) : bool :=
  match a, b with
  | Email, Email | Sms, Sms => true
  | _, _ => false
  end.

Definition phase_of (ch : channel) (e : event) : list phase :=
  match e with
  | EvInsertLog c id => if same_channel c ch then [PhInsert id] else []
  | EvInit c => if same_channel c ch then [PhInit] else []
  | EvSendEmail _ => if same_channel Email ch then [PhDispatch] else []
  | EvSendSms _ => if same_channel Sms ch then [PhDispatch] else []
  | EvLogSent c id => if same_channel c ch then [PhSent id] else []
  | EvLogFailed c id _ _ => if same_channel c ch then [PhFailed id] else []
  | _ => []
  end.

Definition channel_phases (ch : channel) (t : list event) : list phase :=
  List.flat_map (phase_of ch) t.

Definition opt_list {A : Type} (o : option A) : list A :=
  match o with Some a => [a] | None => [] end.

(** The retrieval tokens a run hands out: in the email, in the SMS, and
    in the file record. *)
Definition links_of (e : event) : list string :=
  match e with
  | EvSendEmail p => opt_list (ep_invoiceUrl p)
  | EvSendSms p => opt_list (sp_invoiceUrl p)
  | EvInsertFile f => opt_list (signed_url f)
  | _ => []
  end.

Definition links (t : list event) : list string := List.flat_map links_of t.

(** The stage an event belongs to: 1 settings and preferences, 2 render
    and store, 3 token, 4 email, 5 SMS; 0 for progress reports and the
    final status. *)
Definition stage_of (e : event) : Z :=
  match e with
  | EvRenderPdf _ _ | EvSavePdf _ _ | EvInsertFile _ => 2
  | EvMintToken _ _ => 3
  | EvInsertLog Email _ | EvInit Email | EvSendEmail _
  | EvLogSent Email _ | EvLogFailed Email _ _ _ | EvFlagSent Email _ => 4
  | EvInsertLog Sms _ | EvInit Sms | EvSendSms _
  | EvLogSent Sms _ | EvLogFailed Sms _ _ _ | EvFlagSent Sms _ => 5
  | EvProgress _ | EvSendStatus _ _ => 0
  end.

(** The success-path updates of the email stage and of the job. *)
Definition is_success_update (e : event) : bool :=
  match e with
  | EvLogSent Email _ | EvFlagSent Email _ | EvSendStatus _ SendSent => true
  | _ => false
  end.

Definition marks_failed (e : event) : bool :=
  match e with
  | EvSendStatus _ SendFailed => true
  | _ => false
  end.

Definition is_status (e : event) : bool :=
  match e with
  | EvSendStatus _ _ => true
  | _ => false
  end.

(** Neither a status update nor a success-path update. *)
Definition quiet (e : event) : bool :=
  negb (is_status e) && negb (is_success_update e).

(** The preferences the worker goes on with: none when the query fails. *)
Definition loaded_preferences (email : option string) (d : db)
  : option preferences :=
  match select_preferences email d with
  | inl p => p
  | inr _ => None
  end.

End Trace.

(* ===================================================================== *)
(** ** Vocabulary for statements about texts                              *)
(* ===================================================================== *)

Module Charset.
Import JS.

(** Characters of a string, as a predicate on codes. *)
Fixpoint all_codes (P : Z -> bool) (s : string) : bool :=
  match s with
  | EmptyString => true
  | String c r => P (code c) && all_codes P r
  end.

Definition is_digit (n : Z) : bool := (48 <=? n) && (n <=? 57).
Definition is_numeral (n : Z) : bool := is_digit n || (n =? 45).
Definition is_seven_bit (n : Z) : bool := (0 <=? n) && (n <=? 127).
Definition not_colon (n : Z) : bool := negb (n =? 58).

Definition is_byte (b : Z) : Prop := 0 <= b < 256.

Definition is_hex (n : Z) : bool :=
  is_digit n || ((97 <=? n) && (n <=? 102)).

(** The text a token decodes to: [id:expiry:signature]. *)
Definition token_text (id expiry signature : string) : string :=
  (id ++ String ":" (expiry ++ String ":" signature))%string.

End Charset.

(* ===================================================================== *)
(** ** Vocabulary for statements about a run of the worker                *)
(* ===================================================================== *)

Module States.
Import Db Effect Worker.

Section Run.
Variable SECRET : string.
Variable now : Z.

(** After the file record is inserted. *)
Definition stored (jd : job_data) (st : settings) (buf : string)
           (info : file_info) (d : db) : db :=
  with_files d
    (invoice_files d
       ++ [file_record now (invoiceId jd) info (worker_token SECRET now (invoiceId jd) st)]).

(** Whether the email, resp. the SMS, stage is entered. *)
Definition email_wanted (jd : job_data) (st : settings) : bool :=
  email_enabled st && truthy (customerEmail (invoiceData jd)).

Definition email_logged (jd : job_data) (st : settings) (d : db) : db :=
  snd (insert_send_log (now_s now) (invoiceId jd) Email
         (customerEmail (invoiceData jd)) (email_provider st)
         (triggeredBy jd) (triggerType jd) d).

Definition email_failed (jd : job_data) (st : settings) (e : thrown) (d : db)
  : db :=
  update_logs_where (send_logs_seq d + 1)
    (set_failed_email (now_s now) (field_error e) (field_errorCode e))
    (email_logged jd st d).

(** The row is 'sent'; [json] is the stringified answer. *)
Definition email_marked_sent (jd : job_data) (st : settings)
           (r : send_result) (json : option string) (d : db) : db :=
  update_logs_where (send_logs_seq d + 1)
    (set_sent_email (now_s now) (sr_messageId r) json)
    (email_logged jd st d).

Definition email_sent (jd : job_data) (st : settings) (r : send_result)
           (json : option string) (d : db) : db :=
  update_invoice (invoiceId jd) (flag_email_sent (now_s now))
    (email_marked_sent jd st r json d).

(** The update of the flag has thrown: the [catch] block sets the row,
    which was 'sent', to 'failed'; the error has no [error] and no
    [errorCode]. *)
Definition email_unflagged (jd : job_data) (st : settings)
           (r : send_result) (json : option string) (d : db) : db :=
  update_logs_where (send_logs_seq d + 1)
    (set_failed_email (now_s now) None None)
    (email_marked_sent jd st r json d).

Definition sms_wanted (jd : job_data) (st : settings)
           (prefs : option preferences) : bool :=
  sms_enabled st && truthy (customerPhone (invoiceData jd))
  && sms_opted_in prefs.

Definition sms_logged (jd : job_data) (st : settings) (d : db) : db :=
  snd (insert_send_log (now_s now) (invoiceId jd) Sms
         (customerPhone (invoiceData jd)) (sms_provider st)
         (triggeredBy jd) (triggerType jd) d).

Definition sms_failed (jd : job_data) (st : settings) (e : thrown) (d : db)
  : db :=
  update_logs_where (send_logs_seq d + 1)
    (set_failed_sms (now_s now) (field_error e)) (sms_logged jd st d).

Definition sms_marked_sent (jd : job_data) (st : settings)
           (r : send_result) (d : db) : db :=
  update_logs_where (send_logs_seq d + 1)
    (set_sent_sms (now_s now) (sr_messageId r)) (sms_logged jd st d).

Definition sms_sent (jd : job_data) (st : settings) (r : send_result)
           (d : db) : db :=
  update_invoice (invoiceId jd) (flag_sms_sent (now_s now))
    (sms_marked_sent jd st r d).

Definition sms_unflagged (jd : job_data) (st : settings)
           (r : send_result) (d : db) : db :=
  update_logs_where (send_logs_seq d + 1)
    (set_failed_sms (now_s now) None) (sms_marked_sent jd st r d).

(** After [UPDATE invoices SET send_status = ?]. *)
Definition marked (jd : job_data) (s : send_status) (d : db) : db :=
  update_invoice (invoiceId jd) (set_send_status s) d.

End Run.

End States.

(* ===================================================================== *)
(** ** A concrete installation, for instances of the statements          *)
(* ===================================================================== *)

Module Sample.
Import Db Effect Worker.

Definition reply (m : string) : result provider_reply :=
  inl (ProviderReply (Some m) None).

(** Collaborators that all succeed; the phone number 12345 is invalid. *)
Definition ext : collaborators :=
  Collaborators
    (fun _ _ => inl "%PDF")
    (fun _ n => inl (FileInfo n ("storage/invoices/" ++ n)%string 4 "hash" "local"))
    (fun _ => inl (RenderedEmail "subject" "html" "text"))
    (fun _ => reply "sg-1") (fun _ => reply "mg-1") (fun _ => reply "ses-1")
    (fun p => if String.eqb p "12345" then None else Some p)
    (fun _ => inl "message")
    (fun _ _ => reply "tw-1") (fun _ _ => reply "vo-1")
    None None None None None
    (fun response => inl response).

(** The same, with a PDF generator that throws. *)
Definition failing_render (e : thrown) : collaborators :=
  Collaborators
    (fun _ _ => inr e)
    (savePDF ext) (renderTemplate ext)
    (sendgrid_send ext) (mailgun_create ext) (ses_sendMail ext)
    (parsePhoneNumber ext) (renderMessage ext)
    (twilio_create ext) (vonage_sendSms ext)
    None None None None None (stringify ext).

(** The same, with a SendGrid client that throws. *)
Definition failing_email (e : thrown) : collaborators :=
  Collaborators
    (generateInvoicePDF ext)
    (savePDF ext) (renderTemplate ext)
    (fun _ => inr e) (mailgun_create ext) (ses_sendMail ext)
    (parsePhoneNumber ext) (renderMessage ext)
    (twilio_create ext) (vonage_sendSms ext)
    None None None None None (stringify ext).

(** The same, with a Mailgun client whose construction throws. *)
Definition failing_client (e : thrown) : collaborators :=
  Collaborators
    (generateInvoicePDF ext)
    (savePDF ext) (renderTemplate ext)
    (sendgrid_send ext) (mailgun_create ext) (ses_sendMail ext)
    (parsePhoneNumber ext) (renderMessage ext)
    (twilio_create ext) (vonage_sendSms ext)
    None (Some e) None None None (stringify ext).

Definition boom : thrown := JsError "boom" (Some "E_BOOM").

(** SendGrid and Twilio are configured. *)
Definition cfg : config :=
  Config "http://localhost:3000" (Some "SG.key") None None (Some "AC.sid")
         None 5.

(** No provider is configured. *)
Definition cfg_bare : config :=
  Config "http://localhost:3000" None None None None None 5.

Definition st : settings :=
  Settings true (Some "sendgrid") None true None None true (Some 7)
           None None None None "".

Definition data1001 : invoice_data :=
  InvoiceData "INV-1001" "Ann" (Some "ann@example.com") (Some "12345") "".

Definition row1001 : invoice_row :=
  InvoiceRow data1001 SendPending false None false None.

Definition prefs_in : preferences :=
  Preferences "ann@example.com" false true None.

Definition prefs_out : preferences :=
  Preferences "ann@example.com" true false None.

(** Migration 002 has run. *)
Definition db_with (p : preferences) : db :=
  Database {[ 5 := row1001 ]} [] 0 [] (Some st) (Some [p]) true.

(** The tables as [src/utils/db.js] creates them: no flag columns and
    no preferences table. *)
Definition db_fresh : db :=
  Database {[ 5 := row1001 ]} [] 0 [] (Some st) None false.

Definition db0 : db := db_with prefs_in.

Definition job0 : MockQueue.job job_data :=
  MockQueue.Job "1700000000000" (JobData 5 data1001 (Some "system") None).

Definition now0 : Z := 1700000000000.

Definition run (c : config) (x : collaborators) (d : db)
  : result job_result * db * list event :=
  processJob c x UrlSigning.DEFAULT_SECRET now0 job0 d.

End Sample.

(* ===================================================================== *)
(** ** [src/services/pdfGenerator.js]: hashing and storing                *)
(* ===================================================================== *)

Module PdfGenerator.

(** [config.storage] *)
Record storage : Type := Storage {
  storage_type_of : string;
  localPath : string;
  baseUrl : option string
}.

(** The file system and the S3 client; [path.join] is a function of its
    two arguments. *)
Record io : Type := IO {
  path_join : string -> string -> string;
  mkdir : string -> option thrown;
  writeFile : string -> string -> option thrown;
  s3_put : string -> string -> option thrown;
  s3_sign : string -> result string
}.

Inductive io_event : Type :=
| IoMkdir (path : string)
| IoWriteFile (path content : string)
| IoPut (key content : string)
| IoSign (key : string).

Record saved : Type := Saved {
  saved_fileName : string;
  saved_filePath : string;
  saved_fileSize : Z;
  saved_fileHash : string;
  saved_storageType : string;
  saved_publicUrl : string
}.

(** [crypto.createHash('sha256').update(buffer).digest('hex')] *)
Definition generateFileHash (buffer : string) : string :=
  Crypto.hex (Crypto.sha256 (JS.bytes_of_string buffer)).

(** [saveToS3(pdfBuffer, fileName)]: the key and the signed URL. *)
Definition saveToS3 (x : io) (pdfBuffer fileName : string)
  : result (string * string) * list io_event :=
  let key := ("invoices/" ++ fileName)%string in
  match s3_put x key pdfBuffer with
  | Some e => (inr e, [IoPut key pdfBuffer])
  | None =>
      match s3_sign x key with
      | inr e => (inr e, [IoPut key pdfBuffer; IoSign key])
      | inl url => (inl (key, url), [IoPut key pdfBuffer; IoSign key])
      end
  end.

(** [savePDF(pdfBuffer, fileName)]; its [catch] block throws again what
    it caught. *)
Definition savePDF (st : storage) (x : io) (pdfBuffer fileName : string)
  : result saved * list io_event :=
  let fileHash := generateFileHash pdfBuffer in
  let fileSize := Z.of_nat (String.length pdfBuffer) in
  if String.eqb (storage_type_of st) "local" then
    let filePath := path_join x (localPath st) fileName in
    match mkdir x (localPath st) with
    | Some e => (inr e, [IoMkdir (localPath st)])
    | None =>
        match writeFile x filePath pdfBuffer with
        | Some e =>
            (inr e, [IoMkdir (localPath st); IoWriteFile filePath pdfBuffer])
        | None =>
            (inl (Saved fileName filePath fileSize fileHash "local"
                        (JS.slotToString (baseUrl st) ++ "/" ++ fileName)%string),
             [IoMkdir (localPath st); IoWriteFile filePath pdfBuffer])
        end
    end
  else if String.eqb (storage_type_of st) "s3" then
    match saveToS3 x pdfBuffer fileName with
    | (inr e, t) => (inr e, t)
    | (inl (key, url), t) =>
        (inl (Saved fileName key fileSize fileHash "s3" url), t)
    end
  else
    (inr (JsError ("Unsupported storage type: " ++ storage_type_of st)%string
                  None), []).

End PdfGenerator.

(* ===================================================================== *)
(** ** The column migrations                                               *)
(* ===================================================================== *)

(** [up(db)] of the two migrations that add columns to [send_logs] and to
    [invoices].  A table is the list of its column names, or [None] while
    it does not exist. *)
Module Migration.

Definition table : Type := option (list string).

(** [column.split(' ')[0]] *)
Fixpoint first_word (s : string) : string :=
  match s with
  | EmptyString => EmptyString
  | String c r => if JS.code c =? 32 then EmptyString else String c (first_word r)
  end.

(** SQLite compares column names without regard to the case of ASCII
    letters. *)
Definition fold_case (c : ascii) : Z :=
  let n := JS.code c in
  if (65 <=? n) && (n <=? 90) then n + 32 else n.

Fixpoint same_name (a b : string) : bool :=
  match a, b with
  | EmptyString, EmptyString => true
  | String x a', String y b' => (fold_case x =? fold_case y) && same_name a' b'
  | _, _ => false
  end.

(** [PRAGMA table_info(t)]: no row for a table that does not exist. *)
Definition table_info (t : table) : list string :=
  match t with Some cols => cols | None => [] end.

(** [ALTER TABLE t ADD COLUMN <column>] *)
Definition add_column (t : table) (column : string) : result table :=
  match t with
  | None => inr (JsError "SQLITE_ERROR: no such table" (Some "SQLITE_ERROR"))
  | Some cols =>
      if List.existsb (same_name (first_word column)) cols
      then inr (JsError "SQLITE_ERROR: duplicate column name"
                        (Some "SQLITE_ERROR"))
      else inl (Some (cols ++ [first_word column]))
  end.

(** One turn of the loop: the [try] block and its [catch], which only
    logs. *)
Definition migrate_column (t : table) (column : string) : table :=
  let columnName := first_word column in
  let columnExists := List.existsb (String.eqb columnName) (table_info t) in
  if negb columnExists then
    match add_column t column with
    | inl t' => t'
    | inr _ => t
    end
  else t.

Definition up (columns : list string) (t : table) : table :=
  List.fold_left migrate_column columns t.

Definition send_logs_columns : list string :=
  ["recipient TEXT"; "provider_response TEXT"; "triggered_by TEXT";
   "trigger_type TEXT"; "queued_at DATETIME"; "failed_at DATETIME";
   "error_code TEXT"].

Definition invoices_columns : list string :=
  ["email_sent INTEGER DEFAULT 0"; "email_sent_at DATETIME";
   "sms_sent INTEGER DEFAULT 0"; "sms_sent_at DATETIME"].

(** Whether the table has a column of that name. *)
Definition has_column (t : table) (column : string) : bool :=
  List.existsb (same_name (first_word column)) (table_info t).

End Migration.

(* ===================================================================== *)
(** ** Numeric options of [src/config/index.js]                           *)
(* ===================================================================== *)

Module Env.

(** The double nearest to an integer, ties to the even significand: an
    integer below 2^53 in absolute value is a double itself.  (Integers
    from 2^1024 on, which become [Infinity], are not dealt with.) *)
Definition nearest_double (z : Z) : Z :=
  let a := Z.abs z in
  if a <? 2 ^ 53 then z
  else
    let k := Z.log2 a - 52 in
    let q := a / 2 ^ k in
    let r := a mod 2 ^ k in
    let up := (2 ^ (k - 1) <? r) || ((r =? 2 ^ (k - 1)) && Z.odd q) in
    Z.sgn z * ((if up then q + 1 else q) * 2 ^ k).

(** [parseInt(process.env.NAME) || dflt]; [parseInt] gives a double. *)
Definition int_option (value : option string) (dflt : Z) : Z :=
  match JS.parseInt_string (JS.slotToString value) with
  | Some n =>
      let v := nearest_double n in
      if v =? 0 then dflt else v
  | None => dflt
  end.

(** [EXPIRY_DAYS] of [src/utils/urlSigning.js] *)
Definition EXPIRY_DAYS (SIGNED_URL_EXPIRY_DAYS : option string) : Z :=
  int_option SIGNED_URL_EXPIRY_DAYS 7.

End Env.

(* ===================================================================== *)
(** ** [src/routes/invoices.js]: creating and viewing                     *)
(* ===================================================================== *)

Module MoreRoutes.
Import Db Effect.

(** Responses of [POST /api/invoices]. *)
Inductive create_response : Type :=
| Created (invoiceId : Z) (queued : bool)
| CreateFailed (error : thrown).

(** Responses of [GET /api/invoices/:id/view]. *)
Inductive view_response : Type :=
| ViewDenied
| ViewNotFound
| ViewPage (download html : string)
| ViewFailed (error : thrown).

(** The id given to the next invoice.  The code never deletes an
    invoice, so this is one more than the largest id in the table. *)
Definition next_invoice_id (d : db) : Z :=
  1 + List.fold_right Z.max 0 (List.map fst (map_to_list (invoices d))).

Definition number_taken (number : string) (d : db) : bool :=
  List.existsb
    (fun kv => String.eqb (invoiceNumber (row_data (snd kv))) number)
    (map_to_list (invoices d)).

Definition unique_violation : thrown :=
  JsError "SQLITE_CONSTRAINT: UNIQUE constraint failed: invoices.invoiceNumber"
          (Some "SQLITE_CONSTRAINT").

(** [settings?.auto_send_on_create] *)
Definition auto_send (s : option settings) : bool :=
  match s with Some st => auto_send_on_create st | None => false end.

Section Handlers.
Variable SECRET : string.
Variable now : Z.
Variable queue : MockQueue.queue Worker.job_data Worker.job_result.
(** The remaining columns as they are stored: the currency with its
    default, the items as JSON text. *)
Variable stored_columns : string -> string.
(** The HTML of the page, from the invoice, the settings and the
    download link; it throws when the items are no JSON, for instance. *)
Variable render_page : invoice_row -> option settings -> string -> result string.

Definition new_row (body : invoice_data) : invoice_row :=
  InvoiceRow (InvoiceData (invoiceNumber body) (customerName body)
                          (customerEmail body) (customerPhone body)
                          (stored_columns (otherColumns body)))
             SendPending false None false None.

(** [INSERT INTO invoices (...) VALUES (..., 'pending', datetime('now'))];
    [invoiceNumber] is UNIQUE, and [lastID] is the new row id. *)
Definition insert_invoice (body : invoice_data) : M Z :=
  fun d =>
    if number_taken (invoiceNumber body) d then (inr unique_violation, d, [])
    else
      let id := next_invoice_id d in
      (inl id, with_invoices d (<[id := new_row body]> (invoices d)), []).

(** The handler of [POST /]; [body] is the validated request body and
    [user] is [req.user?.id]. *)
Definition post_create (body : invoice_data) (user : option string)
  : M create_response :=
  try_catch
    (invoiceId <- insert_invoice body ;;
     s <- read invoice_settings ;;
     if auto_send s then
       j <- MockQueue.add now queue "send-invoice"
              (Worker.JobData invoiceId body (Some (or_else user "system"))
                              None) ;;
       ret (Created invoiceId true)
     else ret (Created invoiceId false))
    (fun error => ret (CreateFailed error)).

(** [`/api/invoices/${invoiceId}/pdf?token=${token}`] *)
Definition download_link (invoiceId : Z) (token : string) : string :=
  ("/api/invoices/" ++ JS.numToString invoiceId ++ "/pdf?token=" ++ token)%string.

(** The handler of [GET /:id/view]. *)
Definition get_view (invoiceId : Z) (token : option string) (d : db)
  : view_response :=
  if negb (truthy token)
     || negb (UrlSigning.verifySignedUrl SECRET now (JS.slotToString token)
                                         (JS.JNum invoiceId))
  then ViewDenied
  else
    match invoices d !! invoiceId with
    | None => ViewNotFound
    | Some invoice =>
        let link := download_link invoiceId (JS.slotToString token) in
        match render_page invoice (invoice_settings d) link with
        | inl html => ViewPage link html
        | inr e => ViewFailed e
        end
    end.

End Handlers.

End MoreRoutes.

(* ===================================================================== *)
(** ** Further vocabulary for statements                                  *)
(* ===================================================================== *)

Module Vocabulary.
Import Db Effect.

(** Letters, digits and the padding character [=]: the characters that
    stand for themselves in a query string. *)
Definition is_query_safe (n : Z) : bool :=
  Charset.is_digit n
  || ((65 <=? n) && (n <=? 90)) || ((97 <=? n) && (n <=? 122))
  || (n =? 61).

(** The characters of the text of a token minted for a number: digits,
    the sign, the colon and the hexadecimal letters. *)
Definition is_token_code (n : Z) : bool :=
  Charset.is_numeral n || (n =? 58) || Charset.is_hex n.

Definition token_codes : list Z :=
  [45; 48; 49; 50; 51; 52; 53; 54; 55; 56; 57; 58; 97; 98; 99; 100; 101; 102].

(** A ledger row that is no longer ['sending']. *)
Definition settled (r : send_log) : bool :=
  match log_status_of r with
  | LogSending => false
  | LogSent | LogDelivered | LogFailed => true
  end.

(** From [d] to [d'] the ledger has grown by the rows [new]: settled
    rows of one invoice, with ids the sequence had not handed out. *)
Definition appended (invoice : Z) (d d' : db) (new : list send_log) : Prop :=
  send_logs d' = send_logs d ++ new
  /\ Forall (fun r => send_logs_seq d < log_id r <= send_logs_seq d'
                      /\ log_invoice_id r = invoice
                      /\ settled r = true) new
  /\ send_logs_seq d <= send_logs_seq d'
  /\ ids_below_seq d'.

(** Whether a row of the channel was set to 'sent' during the run. *)
Definition logged_sent (ch : channel) (t : list event) : bool :=
  List.existsb
    (fun e => match e with
              | EvLogSent c _ => Trace.same_channel c ch
              | _ => false
              end) t.

(** The file records a run inserts. *)
Definition files_of (t : list event) : list invoice_file :=
  List.flat_map (fun e => match e with EvInsertFile f => [f] | _ => [] end) t.

(** A database without settings row and without preferences table. *)
Definition db_bare : db :=
  Database {[ 5 := Sample.row1001 ]} [] 0 [] None None true.

(** The body of a request that creates a second invoice. *)
Definition body1002 : invoice_data :=
  InvoiceData "INV-1002" "Bob" (Some "bob@example.com") None "".

(** An installation that sends its email through Mailgun. *)
Definition cfg_mailgun : config :=
  Config "http://localhost:3000" None (Some "mg.key") None None None 5.

Definition st_mailgun : settings :=
  Settings true (Some "mailgun") None false None None true (Some 7)
           None None None None "".

Definition db_mailgun : db :=
  Database {[ 5 := Sample.row1001 ]} [] 0 [] (Some st_mailgun) (Some []) true.

(** An installation with both channels switched off. *)
Definition st_off : settings :=
  Settings false None None false None None false None None None None None "".

Definition db_off : db :=
  Database {[ 5 := Sample.row1001 ]} [] 0 [] (Some st_off) (Some []) true.

(** Local storage on a file system that accepts every write. *)
Definition storage_local : PdfGenerator.storage :=
  PdfGenerator.Storage "local" "storage/invoices"
                       (Some "http://localhost:3000/files").

Definition io_ok : PdfGenerator.io :=
  PdfGenerator.IO (fun dir name => (dir ++ "/" ++ name)%string)
                  (fun _ => None) (fun _ _ => None) (fun _ _ => None)
                  (fun key => inl ("https://s3.example/" ++ key)%string).

(** The credentials [init] looks at for a provider. *)
Definition email_credential (cfg : config) (p : EmailService.provider)
  : option string :=
  match p with
  | EmailService.SendGrid => sendgrid_apiKey cfg
  | EmailService.Mailgun => mailgun_apiKey cfg
  | EmailService.SES => ses_accessKeyId cfg
  end.

Definition sms_credential (cfg : config) (p : SmsService.provider)
  : option string :=
  match p with
  | SmsService.Twilio => twilio_accountSid cfg
  | SmsService.Vonage => vonage_apiKey cfg
  end.

(** What constructing the client of a provider does: nothing to report,
    or the error it throws. *)
Definition email_client (ext : collaborators) (p : EmailService.provider)
  : option thrown :=
  match p with
  | EmailService.SendGrid => sendgrid_client ext
  | EmailService.Mailgun => mailgun_client ext
  | EmailService.SES => ses_client ext
  end.

Definition sms_client (ext : collaborators) (p : SmsService.provider)
  : option thrown :=
  match p with
  | SmsService.Twilio => twilio_client ext
  | SmsService.Vonage => vonage_client ext
  end.

End Vocabulary.

(* ===================================================================== *)
(** * Properties                                                           *)
(* ===================================================================== *)

(** ** Characters and numerals *)

Module JSFacts.
Import JS Charset.

Lemma code_range (c : ascii) : 0 <= code c < 256.
Proof.
  unfold code. pose proof (N_ascii_bounded c). lia.
Qed.

Lemma code_chr (n : Z) : 0 <= n < 256 -> code (chr n) = n.
Proof.
  intros Hn. unfold code, chr.
  rewrite N_ascii_embedding by lia. lia.
Qed.

Lemma chr_code (c : ascii) : chr (code c) = c.
Proof.
  unfold code, chr. rewrite N2Z.id. apply ascii_N_embedding.
Qed.

Lemma string_of_bytes_of_string (s : string) :
  string_of_bytes (bytes_of_string s) = s.
Proof.
  unfold string_of_bytes, bytes_of_string.
  induction s as [|c s IH]; simpl; [reflexivity|].
  rewrite chr_code. f_equal. exact IH.
Qed.

Lemma all_codes_app (P : Z -> bool) (a b : string) :
  all_codes P (a ++ b)%string = all_codes P a && all_codes P b.
Proof.
  induction a as [|c a IH]; simpl; [reflexivity|].
  rewrite IH. apply andb_assoc.
Qed.

Lemma all_codes_weaken (P Q : Z -> bool) (s : string) :
  (forall n, P n = true -> Q n = true) ->
  all_codes P s = true -> all_codes Q s = true.
Proof.
  intros HPQ. induction s as [|c s IH]; simpl; [reflexivity|].
  intros H. apply andb_true_iff in H as [Hc Hs].
  rewrite (HPQ _ Hc). simpl. auto.
Qed.

Lemma digit_char_code (d : Z) : 0 <= d < 10 -> code (digit_char d) = 48 + d.
Proof. intros Hd. unfold digit_char. apply code_chr. lia. Qed.

Lemma digits_fuel_digits (fuel : nat) (n : Z) (acc : string) :
  0 <= n -> all_codes is_digit acc = true ->
  all_codes is_digit (digits_fuel fuel n acc) = true.
Proof.
  revert n acc. induction fuel as [|f IH]; intros n acc Hn Hacc; simpl.
  - exact Hacc.
  - assert (Hd : all_codes is_digit (String (digit_char (n mod 10)) acc) = true).
    { simpl. rewrite Hacc, digit_char_code by (apply Z.mod_pos_bound; lia).
      pose proof (Z.mod_pos_bound n 10 ltac:(lia)).
      unfold is_digit. rewrite andb_true_r.
      apply andb_true_iff. split; [apply Z.leb_le | apply Z.leb_le]; lia. }
    destruct (n <? 10); [exact Hd|].
    apply IH; [apply Z.div_pos; lia | exact Hd].
Qed.

Lemma numToString_numeral (z : Z) : all_codes is_numeral (numToString z) = true.
Proof.
  assert (W : forall n, 0 <= n -> all_codes is_numeral (nat_digits n) = true).
  { intros n Hn. apply all_codes_weaken with (P := is_digit).
    - intros k H. unfold is_numeral. rewrite H. reflexivity.
    - apply digits_fuel_digits; [exact Hn | reflexivity]. }
  unfold numToString. destruct (z <? 0) eqn:Hz.
  - apply Z.ltb_lt in Hz. cbn [all_codes].
    rewrite W by lia. reflexivity.
  - apply Z.ltb_ge in Hz. apply W. exact Hz.
Qed.

(** Reading back the digits that [digits_fuel] wrote. *)
Lemma digit_val_digit_char (d : Z) :
  0 <= d < 10 -> digit_val 10 (digit_char d) = Some d.
Proof.
  intros Hd. unfold digit_val. rewrite digit_char_code by exact Hd.
  replace ((48 <=? 48 + d) && (48 + d <=? 57)) with true
    by (symmetry; apply andb_true_iff; split; apply Z.leb_le; lia).
  replace (48 + d - 48) with d by lia.
  replace (d <? 10) with true by (symmetry; apply Z.ltb_lt; lia).
  reflexivity.
Qed.

Lemma digits_fuel_S (f : nat) (n : Z) (acc : string) :
  digits_fuel (S f) n acc
  = if n <? 10 then String (digit_char (n mod 10)) acc
    else digits_fuel f (n / 10) (String (digit_char (n mod 10)) acc).
Proof. reflexivity. Qed.

Lemma parse_digits_fuel (fuel : nat) (n : Z) (acc : string) :
  0 <= n < 2 ^ Z.of_nat (S fuel) ->
  parse_digits 10 (digits_fuel (S fuel) n acc) None
  = parse_digits 10 acc (Some n).
Proof.
  revert n acc. induction fuel as [|f IH]; intros n acc Hn.
  - change (2 ^ Z.of_nat 1) with 2 in Hn.
    rewrite digits_fuel_S.
    replace (n <? 10) with true by (symmetry; apply Z.ltb_lt; lia).
    cbn [parse_digits].
    rewrite Z.mod_small by lia.
    rewrite digit_val_digit_char by lia. reflexivity.
  - rewrite digits_fuel_S. destruct (n <? 10) eqn:Hlt.
    + apply Z.ltb_lt in Hlt. cbn [parse_digits].
      rewrite Z.mod_small by lia.
      rewrite digit_val_digit_char by lia. reflexivity.
    + apply Z.ltb_ge in Hlt.
      rewrite IH.
      * cbn [parse_digits].
        rewrite digit_val_digit_char by (apply Z.mod_pos_bound; lia).
        f_equal. f_equal. pose proof (Z.div_mod n 10 ltac:(lia)). lia.
      * split; [apply Z.div_pos; lia|].
        rewrite Nat2Z.inj_succ, Z.pow_succ_r in Hn by lia.
        apply Z.div_lt_upper_bound; lia.
Qed.

Lemma log2_fuel (n : Z) : 0 <= n -> n < 2 ^ Z.of_nat (S (Z.to_nat (Z.log2 n))).
Proof.
  intros Hn. rewrite Nat2Z.inj_succ, Z2Nat.id by apply Z.log2_nonneg.
  destruct (Z.eq_dec n 0) as [->|Hnz]; [reflexivity|].
  apply Z.log2_spec. lia.
Qed.

Lemma parse_nat_digits (n : Z) :
  0 <= n -> parse_digits 10 (nat_digits n) None = Some n.
Proof.
  intros Hn. unfold nat_digits.
  rewrite parse_digits_fuel by (split; [exact Hn | apply log2_fuel; exact Hn]).
  reflexivity.
Qed.

(** A numeral starts with a digit or a sign, so nothing is skipped. *)
Lemma skip_ws_low (c : ascii) (r : string) :
  ws1 c = false -> code c < 128 -> skip_ws (String c r) = String c r.
Proof.
  intros W1 Hc.
  assert (E : forall k, 128 <= k -> (code c =? k) = false).
  { intros k Hk. apply Z.eqb_neq. lia. }
  cbn [skip_ws]. rewrite W1.
  destruct r as [|c2 r2]; [reflexivity|].
  unfold ws2. rewrite E by lia. cbn [andb].
  destruct r2 as [|c3 r3]; [reflexivity|].
  unfold ws3. rewrite !E by lia. reflexivity.
Qed.

Lemma skip_ws_digit (c : ascii) (r : string) :
  is_digit (code c) = true -> skip_ws (String c r) = String c r.
Proof.
  intros Hc. unfold is_digit in Hc.
  apply andb_true_iff in Hc as [H1 H2].
  apply Z.leb_le in H1. apply Z.leb_le in H2.
  apply skip_ws_low; [|lia].
  unfold ws1. apply orb_false_iff. split.
  - apply andb_false_iff. right. apply Z.leb_gt. lia.
  - apply Z.eqb_neq. lia.
Qed.

Lemma strip_radix_digits (s : string) :
  all_codes is_digit s = true -> strip_radix s = (10, s).
Proof.
  intros Hs. destruct s as [|c1 [|c2 r]]; try reflexivity.
  cbn in Hs. apply andb_true_iff in Hs as [_ Hs].
  apply andb_true_iff in Hs as [H2 _].
  unfold is_digit in H2. apply andb_true_iff in H2 as [A B].
  apply Z.leb_le in A. apply Z.leb_le in B.
  unfold strip_radix.
  replace (code c2 =? 120) with false by (symmetry; apply Z.eqb_neq; lia).
  replace (code c2 =? 88) with false by (symmetry; apply Z.eqb_neq; lia).
  rewrite andb_false_r. reflexivity.
Qed.

Lemma nat_digits_shape (n : Z) :
  0 <= n ->
  exists c r, nat_digits n = String c r /\ is_digit (code c) = true
              /\ all_codes is_digit (nat_digits n) = true.
Proof.
  intros Hn.
  assert (Hall : all_codes is_digit (nat_digits n) = true)
    by (apply digits_fuel_digits; [exact Hn | reflexivity]).
  destruct (nat_digits n) as [|c r] eqn:E.
  - exfalso. pose proof (parse_nat_digits n Hn) as P. rewrite E in P.
    discriminate P.
  - exists c, r. split; [reflexivity|]. split; [|exact Hall].
    cbn in Hall. apply andb_true_iff in Hall as [Hc _]. exact Hc.
Qed.

Lemma parseInt_string_eq (s s1 s2 : string) (neg : bool) (radix : Z) :
  strip_sign (skip_ws s) = (neg, s1) ->
  strip_radix s1 = (radix, s2) ->
  parseInt_string s
  = match parse_digits radix s2 None with
    | Some v => Some (if neg then - v else v)
    | None => None
    end.
Proof.
  intros H1 H2. unfold parseInt_string. rewrite H1, H2. reflexivity.
Qed.

Lemma parseInt_nat_digits (n : Z) :
  0 <= n -> parseInt_string (nat_digits n) = Some n.
Proof.
  intros Hn. destruct (nat_digits_shape n Hn) as (c & r & E & Hc & Hall).
  rewrite (parseInt_string_eq _ (nat_digits n) (nat_digits n) false 10).
  - rewrite parse_nat_digits by exact Hn. reflexivity.
  - rewrite E, skip_ws_digit by exact Hc.
    unfold is_digit in Hc. apply andb_true_iff in Hc as [A B].
    apply Z.leb_le in A. apply Z.leb_le in B.
    unfold strip_sign.
    replace (code c =? 45) with false by (symmetry; apply Z.eqb_neq; lia).
    replace (code c =? 43) with false by (symmetry; apply Z.eqb_neq; lia).
    reflexivity.
  - apply strip_radix_digits. exact Hall.
Qed.

(** [parseInt(String(z))] is [z]. *)
Lemma parseInt_numToString (z : Z) : parseInt_string (numToString z) = Some z.
Proof.
  unfold numToString. destruct (z <? 0) eqn:Hz.
  - apply Z.ltb_lt in Hz.
    assert (Hn : 0 <= - z) by lia.
    destruct (nat_digits_shape (- z) Hn) as (c & r & E & Hc & Hall).
    rewrite (parseInt_string_eq _ (nat_digits (- z)) (nat_digits (- z)) true 10).
    + rewrite parse_nat_digits by exact Hn. f_equal. lia.
    + rewrite skip_ws_low by (vm_compute; (reflexivity || lia)).
      reflexivity.
    + apply strip_radix_digits. exact Hall.
  - apply Z.ltb_ge in Hz. apply parseInt_nat_digits. exact Hz.
Qed.

Lemma append_cons (c : ascii) (a b : string) :
  (String c a ++ b)%string = String c (a ++ b)%string.
Proof. reflexivity. Qed.

Lemma append_nil (b : string) : (EmptyString ++ b)%string = b.
Proof. reflexivity. Qed.

(** *** Splitting at colons *)

Lemma split_colon_single (a : string) :
  all_codes not_colon a = true -> split_colon a = [a].
Proof.
  induction a as [|c a IH]; intros H; [reflexivity|].
  cbn [all_codes] in H. apply andb_true_iff in H as [Hc Ha].
  cbn [split_colon]. unfold is_colon.
  unfold not_colon in Hc. apply negb_true_iff in Hc. rewrite Hc.
  rewrite (IH Ha). reflexivity.
Qed.

Lemma split_colon_app (a b : string) :
  all_codes not_colon a = true ->
  split_colon (a ++ String ":" b)%string = a :: split_colon b.
Proof.
  induction a as [|c a IH]; intros H; [reflexivity|].
  cbn [all_codes] in H. apply andb_true_iff in H as [Hc Ha].
  rewrite append_cons. cbn [split_colon]. unfold is_colon.
  unfold not_colon in Hc. apply negb_true_iff in Hc. rewrite Hc.
  rewrite (IH Ha). reflexivity.
Qed.

Lemma numeral_not_colon (n : Z) : is_numeral n = true -> not_colon n = true.
Proof.
  unfold is_numeral, is_digit, not_colon. intros H.
  apply negb_true_iff. apply Z.eqb_neq. intros ->. discriminate H.
Qed.

Lemma numeral_seven_bit (n : Z) : is_numeral n = true -> is_seven_bit n = true.
Proof.
  unfold is_numeral, is_digit, is_seven_bit. intros H.
  apply orb_true_iff in H as [H|H].
  - apply andb_true_iff in H as [A B].
    apply Z.leb_le in A. apply Z.leb_le in B.
    apply andb_true_iff. split; apply Z.leb_le; lia.
  - apply Z.eqb_eq in H. subst n. reflexivity.
Qed.

End JSFacts.

(** ** Base64 and UTF-8 round trips *)

(** Decides the integer comparisons of the goal with [lia]. *)
Ltac decide_cmp :=
  repeat match goal with
    | |- context [?a <=? ?b] =>
        first [ replace (a <=? b) with true by (symmetry; apply Z.leb_le; lia)
              | replace (a <=? b) with false by (symmetry; apply Z.leb_gt; lia) ]
    | |- context [?a <? ?b] =>
        first [ replace (a <? b) with true by (symmetry; apply Z.ltb_lt; lia)
              | replace (a <? b) with false by (symmetry; apply Z.ltb_ge; lia) ]
    | |- context [?a =? ?b] =>
        first [ replace (a =? b) with true by (symmetry; apply Z.eqb_eq; lia)
              | replace (a =? b) with false by (symmetry; apply Z.eqb_neq; lia) ]
    end;
  cbn [andb orb negb].

(** Brings nested list appends into right-nested form. *)
Ltac list_norm :=
  repeat (cbn [app]; rewrite <- ?List.app_assoc); cbn [app].

Module BufferFacts.
Import JS Buffer Charset JSFacts.

Lemma b64_char_code (v : Z) :
  0 <= v < 64 ->
  code (b64_char v)
  = if v <? 26 then 65 + v
    else if v <? 52 then 71 + v
    else if v <? 62 then v - 4
    else if v =? 62 then 43 else 47.
Proof.
  intros Hv. unfold b64_char.
  destruct (v <? 26) eqn:E1; [apply Z.ltb_lt in E1; apply code_chr; lia|].
  destruct (v <? 52) eqn:E2; [apply Z.ltb_lt in E2; apply code_chr; lia|].
  destruct (v <? 62) eqn:E3.
  { apply Z.ltb_lt in E3. apply Z.ltb_ge in E2. apply code_chr; lia. }
  destruct (v =? 62); apply code_chr; lia.
Qed.

Lemma b64_val_char (v : Z) : 0 <= v < 64 -> b64_val (b64_char v) = Some v.
Proof.
  intros Hv. unfold b64_val. rewrite b64_char_code by exact Hv.
  destruct (v <? 26) eqn:E1.
  { apply Z.ltb_lt in E1. decide_cmp. f_equal. lia. }
  apply Z.ltb_ge in E1.
  destruct (v <? 52) eqn:E2.
  { apply Z.ltb_lt in E2. decide_cmp. f_equal. lia. }
  apply Z.ltb_ge in E2.
  destruct (v <? 62) eqn:E3.
  { apply Z.ltb_lt in E3. decide_cmp. f_equal. lia. }
  apply Z.ltb_ge in E3.
  destruct (v =? 62) eqn:E4.
  { apply Z.eqb_eq in E4. subst v. reflexivity. }
  apply Z.eqb_neq in E4. assert (v = 63) by lia. subst v. reflexivity.
Qed.

Lemma b64_char_not_pad (v : Z) : 0 <= v < 64 -> (code (b64_char v) =? 61) = false.
Proof.
  intros Hv. rewrite b64_char_code by exact Hv.
  destruct (v <? 26) eqn:E1; [apply Z.ltb_lt in E1; apply Z.eqb_neq; lia|].
  apply Z.ltb_ge in E1.
  destruct (v <? 52) eqn:E2; [apply Z.ltb_lt in E2; apply Z.eqb_neq; lia|].
  apply Z.ltb_ge in E2.
  destruct (v <? 62) eqn:E3; [apply Z.ltb_lt in E3; apply Z.eqb_neq; lia|].
  destruct (v =? 62); reflexivity.
Qed.

(** A byte below 194 starts no sequence of several bytes. *)
Lemma utf16_low_single (c : ascii) (r : string) :
  code c < 194 -> utf16_low (String c r) = String c (utf16_low r).
Proof.
  intros Hc. cbn [utf16_low].
  replace (code c <? 194) with true by (symmetry; apply Z.ltb_lt; exact Hc).
  reflexivity.
Qed.

Lemma b64_char_low (v : Z) : 0 <= v < 64 -> code (b64_char v) < 194.
Proof.
  intros Hv. rewrite b64_char_code by exact Hv.
  destruct (v <? 26) eqn:E1; [apply Z.ltb_lt in E1; lia|].
  destruct (v <? 52) eqn:E2; [apply Z.ltb_lt in E2; lia|].
  destruct (v <? 62) eqn:E3; [apply Z.ltb_lt in E3; lia|].
  destruct (v =? 62); lia.
Qed.

Lemma sextets_char (v : Z) (r : string) :
  0 <= v < 64 -> b64_sextets (String (b64_char v) r) = v :: b64_sextets r.
Proof.
  intros Hv. unfold b64_sextets.
  rewrite utf16_low_single by (apply b64_char_low; exact Hv).
  cbn [low_sextets].
  rewrite b64_char_not_pad, b64_val_char by exact Hv. reflexivity.
Qed.

Lemma sextets_pad (r : string) : b64_sextets (String pad r) = [].
Proof. reflexivity. Qed.

Lemma list_ind3 (P : list Z -> Prop) :
  P [] -> (forall a, P [a]) -> (forall a b, P [a; b]) ->
  (forall a b c l, P l -> P (a :: b :: c :: l)) ->
  forall l, P l.
Proof.
  intros H0 H1 H2 H3. fix IH 1.
  intros [|a [|b [|c l]]]; [exact H0 | apply H1 | apply H2 |].
  apply H3. apply IH.
Qed.

Lemma b64_decode_encode (bs : list Z) :
  Forall is_byte bs -> b64_decode (b64_encode bs) = bs.
Proof.
  unfold b64_decode, is_byte.
  induction bs as [|a|a b|a b c l IH] using list_ind3; intros H.
  - reflexivity.
  - inversion H as [|? ? Ha _]; subst.
    cbn [b64_encode].
    rewrite !sextets_char, sextets_pad
      by (Z.div_mod_to_equations; lia).
    cbn [b64_bytes]. f_equal. Z.div_mod_to_equations; lia.
  - inversion H as [|? ? Ha H']; subst.
    inversion H' as [|? ? Hb _]; subst.
    cbn [b64_encode].
    rewrite !sextets_char, sextets_pad
      by (Z.div_mod_to_equations; lia).
    cbn [b64_bytes].
    f_equal; [|f_equal]; Z.div_mod_to_equations; lia.
  - inversion H as [|? ? Ha H']; subst.
    inversion H' as [|? ? Hb H'']; subst.
    inversion H'' as [|? ? Hc Hl]; subst.
    cbn [b64_encode].
    rewrite !sextets_char by (Z.div_mod_to_equations; lia).
    cbn [b64_bytes]. rewrite (IH Hl).
    f_equal; [|f_equal; [|f_equal]]; Z.div_mod_to_equations; lia.
Qed.

Lemma utf8_scrub_seven_bit (bs : list Z) :
  Forall (fun b => 0 <= b <= 127) bs -> utf8_scrub bs = bs.
Proof.
  unfold utf8_scrub. induction bs as [|b bs IH]; intros H; [reflexivity|].
  inversion H as [|? ? Hb Hbs]; subst.
  cbn [utf8_run utf8_step utf8_idle needed]. unfold utf8_lead.
  replace (b <=? 127) with true by (symmetry; apply Z.leb_le; lia).
  cbn [app]. f_equal. apply IH. exact Hbs.
Qed.

Lemma bytes_of_string_seven_bit (s : string) :
  all_codes is_seven_bit s = true ->
  Forall (fun b => 0 <= b <= 127) (bytes_of_string s).
Proof.
  unfold bytes_of_string. induction s as [|c s IH]; intros H; cbn.
  - constructor.
  - cbn in H. apply andb_true_iff in H as [Hc Hs].
    unfold is_seven_bit in Hc. apply andb_true_iff in Hc as [A B].
    apply Z.leb_le in A. apply Z.leb_le in B.
    constructor; [lia | apply IH; exact Hs].
Qed.

(** Decoding what was encoded gives the text back, for 7-bit text. *)
Lemma fromBase64_toBase64 (s : string) :
  all_codes is_seven_bit s = true -> fromBase64 (toBase64 s) = s.
Proof.
  intros H. unfold fromBase64, toBase64.
  pose proof (bytes_of_string_seven_bit s H) as Hb.
  rewrite b64_decode_encode.
  - rewrite utf8_scrub_seven_bit by exact Hb.
    apply string_of_bytes_of_string.
  - eapply List.Forall_impl; [|exact Hb]. unfold is_byte. cbn. intros; lia.
Qed.

End BufferFacts.

(** ** The hexadecimal digest *)

Module CryptoFacts.
Import JS Charset JSFacts BufferFacts Crypto.

Lemma be_bytes_byte (n : nat) (v : Z) : Forall is_byte (be_bytes n v).
Proof.
  induction n as [|n IH]; cbn [be_bytes]; constructor; [|exact IH].
  unfold is_byte. apply Z.mod_pos_bound. lia.
Qed.

Lemma sha256_byte (msg : list Z) : Forall is_byte (sha256 msg).
Proof.
  unfold sha256.
  generalize (List.fold_left compress
                (blocks (List.length (sha_pad msg)) (sha_pad msg)) initial_hash).
  intros h. induction h as [|w h IH]; cbn [List.map List.concat].
  - constructor.
  - apply Forall_app. split; [apply be_bytes_byte | exact IH].
Qed.

Lemma hmac_sha256_byte (key msg : list Z) : Forall is_byte (hmac_sha256 key msg).
Proof. unfold hmac_sha256. apply sha256_byte. Qed.

Lemma hex_char_hex (v : Z) : 0 <= v < 16 -> is_hex (code (hex_char v)) = true.
Proof.
  intros Hv. unfold hex_char, is_hex, is_digit.
  destruct (v <? 10) eqn:E.
  - apply Z.ltb_lt in E. rewrite code_chr by lia. decide_cmp. reflexivity.
  - apply Z.ltb_ge in E. rewrite code_chr by lia. decide_cmp. reflexivity.
Qed.

Lemma hex_is_hex (bs : list Z) :
  Forall is_byte bs -> all_codes is_hex (hex bs) = true.
Proof.
  induction bs as [|b bs IH]; intros H; [reflexivity|].
  inversion H as [|? ? Hb Hbs]; subst. unfold is_byte in Hb.
  cbn [hex all_codes].
  rewrite !hex_char_hex, (IH Hbs); [reflexivity| |].
  - apply Z.mod_pos_bound. lia.
  - split; [apply Z.div_pos; lia | apply Z.div_lt_upper_bound; lia].
Qed.

Lemma hmacHex_is_hex (key msg : string) :
  all_codes is_hex (hmacHex key msg) = true.
Proof. unfold hmacHex. apply hex_is_hex, hmac_sha256_byte. Qed.

Lemma hex_not_colon (n : Z) : is_hex n = true -> not_colon n = true.
Proof.
  unfold is_hex, is_digit, not_colon. intros H.
  apply negb_true_iff, Z.eqb_neq. intros ->. discriminate H.
Qed.

Lemma hex_seven_bit (n : Z) : is_hex n = true -> is_seven_bit n = true.
Proof.
  unfold is_hex, is_digit, is_seven_bit. intros H.
  apply orb_true_iff in H as [H|H];
    apply andb_true_iff in H as [A B];
    apply Z.leb_le in A; apply Z.leb_le in B;
    apply andb_true_iff; split; apply Z.leb_le; lia.
Qed.

(** The digest of RFC 4231, test case 2. *)
Example hmac_rfc4231_case2 :
  hmacHex "Jefe" "what do ya want for nothing?"
  = "5bdcc146bf60754e6a042426089575c75a003f089d2739839dec58b964ec3843"%string.
Proof. vm_compute. reflexivity. Qed.

(** The digest of FIPS 180-4 for the message [abc]. *)
Example sha256_abc :
  hex (sha256 (bytes_of_string "abc"))
  = "ba7816bf8f01cfea414140de5dae2223b00361a396177a9cb410ff61f20015ad"%string.
Proof. vm_compute. reflexivity. Qed.

End CryptoFacts.

(** ** Access tokens *)

Module UrlSigningFacts.
Import JS Charset JSFacts BufferFacts CryptoFacts UrlSigning.

Lemma append_assoc (a b c : string) :
  ((a ++ b) ++ c)%string = (a ++ (b ++ c))%string.
Proof.
  induction a as [|x a IH]; [reflexivity|].
  rewrite !append_cons, IH. reflexivity.
Qed.

Lemma generateSignedUrl_text (SECRET : string) (now : Z) (v : jsval) (d : Z) :
  let expiry := numToString (now + d * 24 * 60 * 60 * 1000) in
  generateSignedUrl SECRET now v d
  = Buffer.toBase64
      (token_text (toString v) expiry
         (Crypto.hmacHex SECRET (toString v ++ String ":" expiry)%string)).
Proof.
  cbn zeta. unfold generateSignedUrl, token_text.
  f_equal. rewrite append_assoc. rewrite !append_cons, !append_nil.
  reflexivity.
Qed.

Lemma token_text_fields (id expiry signature : string) :
  all_codes is_seven_bit (token_text id expiry signature) = true ->
  all_codes not_colon id = true ->
  all_codes not_colon expiry = true ->
  all_codes not_colon signature = true ->
  token_fields (Buffer.toBase64 (token_text id expiry signature))
  = (id, Some expiry, Some signature).
Proof.
  intros H7 Hi He Hs. unfold token_fields.
  rewrite fromBase64_toBase64 by exact H7.
  unfold token_text.
  rewrite split_colon_app by exact Hi.
  rewrite split_colon_app by exact He.
  rewrite split_colon_single by exact Hs.
  reflexivity.
Qed.

Lemma token_text_seven_bit (id expiry signature : string) :
  all_codes is_seven_bit id = true ->
  all_codes is_seven_bit expiry = true ->
  all_codes is_seven_bit signature = true ->
  all_codes is_seven_bit (token_text id expiry signature) = true.
Proof.
  intros Hi He Hs. unfold token_text.
  rewrite all_codes_app. cbn [all_codes].
  rewrite all_codes_app. cbn [all_codes].
  rewrite Hi, He, Hs. reflexivity.
Qed.

Lemma numToString_seven_bit (z : Z) :
  all_codes is_seven_bit (numToString z) = true.
Proof.
  eapply all_codes_weaken; [apply numeral_seven_bit | apply numToString_numeral].
Qed.

Lemma numToString_not_colon (z : Z) :
  all_codes not_colon (numToString z) = true.
Proof.
  eapply all_codes_weaken; [apply numeral_not_colon | apply numToString_numeral].
Qed.

Lemma hmacHex_seven_bit (k m : string) :
  all_codes is_seven_bit (Crypto.hmacHex k m) = true.
Proof.
  eapply all_codes_weaken; [apply hex_seven_bit | apply hmacHex_is_hex].
Qed.

Lemma hmacHex_not_colon (k m : string) :
  all_codes not_colon (Crypto.hmacHex k m) = true.
Proof.
  eapply all_codes_weaken; [apply hex_not_colon | apply hmacHex_is_hex].
Qed.

(** The fields of a token minted for a numeric id. *)
Lemma minted_fields (SECRET : string) (now id d : Z) :
  let expiry := numToString (now + d * 24 * 60 * 60 * 1000) in
  token_fields (generateSignedUrl SECRET now (JNum id) d)
  = (numToString id, Some expiry,
     Some (Crypto.hmacHex SECRET (numToString id ++ String ":" expiry)%string)).
Proof.
  cbn zeta. rewrite generateSignedUrl_text. cbn zeta. cbn [toString].
  apply token_text_fields.
  - apply token_text_seven_bit;
      [apply numToString_seven_bit | apply numToString_seven_bit
      | apply hmacHex_seven_bit].
  - apply numToString_not_colon.
  - apply numToString_not_colon.
  - apply hmacHex_not_colon.
Qed.

Lemma verifySignedUrl_fields (SECRET : string) (t : Z) (token : string)
      (v : jsval) (id : string) (expiry signature : option string) :
  token_fields token = (id, expiry, signature) ->
  verifySignedUrl SECRET t token v
  = negb (num_strict_neq (parseInt_string id) (parseInt v))
    && negb (num_gt (Some t) (parseInt_string (slotToString expiry)))
    && signature_matches signature
         (Crypto.hmacHex SECRET (id ++ ":" ++ slotToString expiry)%string).
Proof.
  intros E. unfold verifySignedUrl. rewrite E.
  destruct (num_strict_neq _ _); [reflexivity|].
  destruct (num_gt _ _); [reflexivity|].
  destruct (signature_matches _ _); reflexivity.
Qed.

(** A text that starts with a slash is not a number. *)
Lemma parseInt_slash (r : string) : parseInt_string (String "/" r) = None.
Proof.
  rewrite (parseInt_string_eq _ (String "/" r) (String "/" r) false 10).
  - reflexivity.
  - rewrite skip_ws_low by (vm_compute; reflexivity). reflexivity.
  - destruct r; reflexivity.
Qed.

Lemma split_colon_head_slash (r : string) :
  exists h, List.hd EmptyString (split_colon (String "/" r)) = String "/" h.
Proof.
  cbn [split_colon]. change (is_colon "/") with false. cbn iota.
  destruct (split_colon r) as [|h t]; eexists; reflexivity.
Qed.

End UrlSigningFacts.

(** ** Tokens minted by the codec for numeric invoice ids *)

Module TokenProperties.
Import JS Charset JSFacts BufferFacts CryptoFacts UrlSigning UrlSigningFacts.

Lemma eqb_neq_false (a b : string) : a <> b -> String.eqb a b = false.
Proof. intros H. apply String.eqb_neq. exact H. Qed.

(** C2, as amended.  For a numeric invoice id and a positive whole number
    of days [d], a token minted at [now] verifies against the same id at
    every instant up to and including its expiry [now + d] days, and at no
    later instant; it is rejected for every id' whose [parseInt] differs
    from the id ([NaN] included); and a token is rejected whenever its
    signature field is not the HMAC of its own [id:expiry] fields, in
    particular when it carries the minted id and expiry with another
    signature. *)
Theorem token_round_trip (SECRET : string) (id d now : Z) :
  safe_int id -> safe_int now -> safe_int (now + d * MS_PER_DAY) -> 0 < d ->
  let token := generateSignedUrl SECRET now (JNum id) d in
  let expiry := now + d * MS_PER_DAY in
  let payload := (numToString id ++ ":" ++ numToString expiry)%string in
  (forall t, t <= expiry -> verifySignedUrl SECRET t token (JNum id) = true)
  /\ (forall t, expiry < t -> verifySignedUrl SECRET t token (JNum id) = false)
  /\ (forall t id',
        num_strict_neq (parseInt (JNum id)) (parseInt id') = true ->
        verifySignedUrl SECRET t token id' = false)
  /\ (forall t token' v i e s,
        token_fields token' = (i, e, s) ->
        signature_matches s
          (Crypto.hmacHex SECRET (i ++ ":" ++ slotToString e)%string) = false ->
        verifySignedUrl SECRET t token' v = false)
  /\ (forall t signature',
        signature' <> Crypto.hmacHex SECRET payload ->
        all_codes is_seven_bit signature' = true ->
        all_codes not_colon signature' = true ->
        verifySignedUrl SECRET t
          (Buffer.toBase64 (payload ++ ":" ++ signature')%string) (JNum id)
        = false).
Proof.
  intros _ _ _ _. cbn zeta.
  assert (Ed : d * 24 * 60 * 60 * 1000 = d * MS_PER_DAY)
    by (unfold MS_PER_DAY; lia).
  pose proof (minted_fields SECRET now id d) as F. cbn zeta in F.
  rewrite Ed in F.
  assert (Pid : parseInt (JNum id) = Some id)
    by (unfold parseInt; cbn [toString]; apply parseInt_numToString).
  repeat split.
  - intros t Ht. rewrite (verifySignedUrl_fields _ _ _ _ _ _ _ F).
    cbn [slotToString]. rewrite Pid, !parseInt_numToString.
    cbn [num_strict_neq num_gt signature_matches].
    rewrite Z.eqb_refl. cbn [negb andb].
    replace (now + d * MS_PER_DAY <? t) with false
      by (symmetry; apply Z.ltb_ge; lia).
    cbn [negb andb]. apply String.eqb_refl.
  - intros t Ht. rewrite (verifySignedUrl_fields _ _ _ _ _ _ _ F).
    cbn [slotToString]. rewrite Pid, !parseInt_numToString.
    cbn [num_strict_neq num_gt].
    replace (now + d * MS_PER_DAY <? t) with true
      by (symmetry; apply Z.ltb_lt; lia).
    rewrite Z.eqb_refl. reflexivity.
  - intros t id' Hne. rewrite (verifySignedUrl_fields _ _ _ _ _ _ _ F).
    rewrite Pid in Hne. rewrite parseInt_numToString, Hne. reflexivity.
  - intros t token' v i e s Hf Hs.
    rewrite (verifySignedUrl_fields _ _ _ _ _ _ _ Hf), Hs.
    apply andb_false_r.
  - intros t signature' Hne H7 Hc.
    replace ((numToString id ++ ":" ++ numToString (now + d * MS_PER_DAY))
               ++ ":" ++ signature')%string
      with (token_text (numToString id)
              (numToString (now + d * MS_PER_DAY)) signature')
      by (unfold token_text; rewrite append_assoc; reflexivity).
    rewrite (verifySignedUrl_fields SECRET t _ (JNum id) (numToString id)
               (Some (numToString (now + d * MS_PER_DAY))) (Some signature')).
    + cbn [slotToString signature_matches].
      rewrite (eqb_neq_false _ _ Hne). apply andb_false_r.
    + apply token_text_fields.
      * apply token_text_seven_bit;
          [apply numToString_seven_bit | apply numToString_seven_bit | exact H7].
      * apply numToString_not_colon.
      * apply numToString_not_colon.
      * exact Hc.
Qed.

(** An instance: invoice 5, seven days, minted at 1700000000000. *)
Lemma token_round_trip_witness :
  verifySignedUrl DEFAULT_SECRET 1700000000001
    (generateSignedUrl DEFAULT_SECRET 1700000000000 (JNum 5) 7) (JNum 5) = true.
Proof.
  apply (token_round_trip DEFAULT_SECRET 5 7 1700000000000);
    unfold safe_int, MS_PER_DAY; lia.
Defined.

(** C2, as stated, fails twice.  For the resource id the worker really
    passes, a path, [verify(mint(id, d), id)] is false right after minting;
    and a token whose payload differs from the minted one, here the same
    id with another expiry, is accepted. *)
Lemma token_round_trip_counterexample :
  let path := JStr "/api/invoices/5/pdf" in
  let minted := generateSignedUrl DEFAULT_SECRET 1700000000000 (JNum 5) 7 in
  let other := generateSignedUrl DEFAULT_SECRET 1700000000000 (JNum 5) 14 in
  verifySignedUrl DEFAULT_SECRET 1700000000000
    (generateSignedUrl DEFAULT_SECRET 1700000000000 path 7) path = false
  /\ token_fields other <> token_fields minted
  /\ verifySignedUrl DEFAULT_SECRET 1700000000001 other (JNum 5) = true.
Proof.
  cbn zeta. split; [vm_compute; reflexivity|].
  split; [vm_compute; discriminate | vm_compute; reflexivity].
Qed.

(** Whatever id it is checked against, a token minted over a path is
    rejected: its id field starts with a slash and parses to [NaN]. *)
Lemma path_token_rejected (SECRET : string) (now : Z) (r : string) (d t : Z)
      (v : jsval) :
  all_codes is_seven_bit r = true ->
  verifySignedUrl SECRET t
    (generateSignedUrl SECRET now (JStr (String "/" r)) d) v = false.
Proof.
  intros Hr. unfold verifySignedUrl, token_fields.
  rewrite generateSignedUrl_text. cbn zeta. cbn [toString].
  rewrite fromBase64_toBase64.
  - unfold token_text. rewrite append_cons.
    match goal with
    | |- context [split_colon (String "/" ?x)] =>
        destruct (split_colon_head_slash x) as [h Hh]
    end.
    rewrite Hh, parseInt_slash. reflexivity.
  - apply token_text_seven_bit;
      [cbn [all_codes]; rewrite Hr; reflexivity
      | apply numToString_seven_bit | apply hmacHex_seven_bit].
Qed.

End TokenProperties.

(** ** The worker, stage by stage *)

Module WorkerFacts.
Import Db Effect Worker Trace States.

Section Run.
Variable cfg : config.
Variable ext : collaborators.
Variable SECRET : string.
Variable now : Z.

Abbreviation generate_pdf := (Worker.generate_pdf ext SECRET now).
Abbreviation send_email := (Worker.send_email cfg ext now).
Abbreviation send_sms := (Worker.send_sms cfg ext now).
Abbreviation processJob := (Worker.processJob cfg ext SECRET now).
Abbreviation worker_token := (Worker.worker_token SECRET now).
Abbreviation stored := (States.stored SECRET now).
Abbreviation email_failed := (States.email_failed now).
Abbreviation email_sent := (States.email_sent now).
Abbreviation email_unflagged := (States.email_unflagged now).
Abbreviation sms_unflagged := (States.sms_unflagged now).
Abbreviation sms_failed := (States.sms_failed now).
Abbreviation sms_sent := (States.sms_sent now).
Abbreviation marked := States.marked.

(** *** Rendering and storing *)

Lemma generate_pdf_run (jd : job_data) (s : option settings) (d : db) :
  generate_pdf jd s d
  = match s with
    | None => (inl no_artifact, d, [])
    | Some st =>
        let render := EvRenderPdf (invoiceData jd) (companyData st) in
        match generateInvoicePDF ext (invoiceData jd) (companyData st) with
        | inr _ => (inl no_artifact, d, [render])
        | inl buf =>
            let name := pdf_file_name (invoiceData jd) in
            match savePDF ext buf name with
            | inr _ =>
                (inl no_artifact, d, [render; EvProgress 25; EvSavePdf buf name])
            | inl info =>
                (inl (Some buf, Some name, Some (worker_token (invoiceId jd) st)),
                 stored jd st buf info d,
                 [render; EvProgress 25; EvSavePdf buf name;
                  EvMintToken (JS.JStr (pdf_path (invoiceId jd))) (expiry_days st);
                  EvInsertFile
                    (file_record now (invoiceId jd) info
                                 (worker_token (invoiceId jd) st))])
            end
        end
    end.
Proof.
  unfold Worker.generate_pdf, try_catch, bind, the_settings, emit, await,
    progress, write, ret, throw.
  destruct s as [st|]; [|reflexivity].
  cbn zeta. destruct (generateInvoicePDF ext _ _) as [buf|e]; [|reflexivity].
  destruct (savePDF ext buf _) as [info|e]; reflexivity.
Qed.

(** *** Email *)

Lemma send_email_run (jd : job_data) (st : settings)
      (prefs : option preferences) (a : artifact) (d : db) :
  send_email jd st prefs a d
  = if email_wanted jd st then
      let id := send_logs_seq d + 1 in
      let params := email_params_of cfg jd st prefs a in
      match EmailService.init cfg ext st with
      | inr e =>
          (inr e, email_failed jd st e d,
           [EvInsertLog Email id; EvInit Email;
            EvLogFailed Email id (field_error e) (field_errorCode e)])
      | inl p =>
          match EmailService.sendInvoiceEmail ext p params with
          | inr e =>
              (inr e, email_failed jd st e d,
               [EvInsertLog Email id; EvInit Email; EvSendEmail params;
                EvLogFailed Email id (field_error e) (field_errorCode e)])
          | inl r =>
              match stringify ext (sr_response r) with
              | inr e =>
                  (inr e, email_failed jd st e d,
                   [EvInsertLog Email id; EvInit Email; EvSendEmail params;
                    EvLogFailed Email id (field_error e)
                                (field_errorCode e)])
              | inl json =>
                  if invoice_flag_columns d then
                    (inl tt, email_sent jd st r json d,
                     [EvInsertLog Email id; EvInit Email;
                      EvSendEmail params; EvLogSent Email id;
                      EvFlagSent Email (invoiceId jd)])
                  else
                    (inr (no_such_column "email_sent"),
                     email_unflagged jd st r json d,
                     [EvInsertLog Email id; EvInit Email;
                      EvSendEmail params; EvLogSent Email id;
                      EvLogFailed Email id None None])
              end
          end
      end
    else (inl tt, d, []).
Proof.
  unfold Worker.send_email, email_wanted.
  destruct (email_enabled st && truthy (customerEmail (invoiceData jd)));
    [|reflexivity].
  unfold insert_log, try_catch, bind, emit, await, write, run_statement,
    ret, throw.
  cbn zeta. cbn [insert_send_log].
  destruct (EmailService.init cfg ext st) as [p|e]; [|reflexivity].
  destruct (EmailService.sendInvoiceEmail ext p _) as [r|e]; [|reflexivity].
  destruct (stringify ext (sr_response r)) as [json|e]; [|reflexivity].
  unfold mark_email_sent.
  change (invoice_flag_columns (update_logs_where _ _ _))
    with (invoice_flag_columns d).
  destruct (invoice_flag_columns d); reflexivity.
Qed.

(** *** SMS *)

Lemma send_sms_run (jd : job_data) (st : settings)
      (prefs : option preferences) (a : artifact) (d : db) :
  send_sms jd st prefs a d
  = if sms_wanted jd st prefs then
      let id := send_logs_seq d + 1 in
      let params := sms_params_of jd st a in
      match SmsService.init cfg ext st with
      | inr e =>
          (inl tt, sms_failed jd st e d,
           [EvInsertLog Sms id; EvInit Sms;
            EvLogFailed Sms id (field_error e) None])
      | inl p =>
          match SmsService.sendInvoiceSMS ext p params with
          | inr e =>
              (inl tt, sms_failed jd st e d,
               [EvInsertLog Sms id; EvInit Sms; EvSendSms params;
                EvLogFailed Sms id (field_error e) None])
          | inl r =>
              if invoice_flag_columns d then
                (inl tt, sms_sent jd st r d,
                 [EvInsertLog Sms id; EvInit Sms; EvSendSms params;
                  EvLogSent Sms id; EvFlagSent Sms (invoiceId jd)])
              else
                (inl tt, sms_unflagged jd st r d,
                 [EvInsertLog Sms id; EvInit Sms; EvSendSms params;
                  EvLogSent Sms id; EvLogFailed Sms id None None])
          end
      end
    else (inl tt, d, []).
Proof.
  unfold Worker.send_sms, sms_wanted.
  destruct (sms_enabled st && truthy (customerPhone (invoiceData jd))
            && sms_opted_in prefs); [|reflexivity].
  unfold insert_log, try_catch, bind, emit, await, write, run_statement,
    ret, throw.
  cbn zeta. cbn [insert_send_log].
  destruct (SmsService.init cfg ext st) as [p|e]; [|reflexivity].
  destruct (SmsService.sendInvoiceSMS ext p _) as [r|e]; [|reflexivity].
  unfold mark_sms_sent.
  change (invoice_flag_columns (update_logs_where _ _ _))
    with (invoice_flag_columns d).
  destruct (invoice_flag_columns d); reflexivity.
Qed.

(** *** The whole job *)

Lemma processJob_run (j : MockQueue.job job_data) (d : db) :
  processJob j d
  = let jd := MockQueue.data j in
    let prefs := loaded_preferences (customerEmail (invoiceData jd)) d in
    let failed := EvSendStatus (invoiceId jd) SendFailed in
    if unsubscribed prefs then (inl (Skipped "unsubscribed"), d, [])
    else
      match generate_pdf jd (invoice_settings d) d with
      | (inr e, d1, t1) =>
          (inr e, marked jd SendFailed d1, EvProgress 10 :: t1 ++ [failed])
      | (inl a, d1, t1) =>
          match invoice_settings d with
          | None =>
              (inr (settings_undefined "email_enabled"),
               marked jd SendFailed d1,
               EvProgress 10 :: t1 ++ [EvProgress 40; failed])
          | Some st =>
              match send_email jd st prefs a d1 with
              | (inr e, d2, t2) =>
                  (inr e, marked jd SendFailed d2,
                   EvProgress 10 :: t1 ++ EvProgress 40 :: t2 ++ [failed])
              | (inl _, d2, t2) =>
                  match send_sms jd st prefs a d2 with
                  | (inr e, d3, t3) =>
                      (inr e, marked jd SendFailed d3,
                       EvProgress 10 :: t1 ++ EvProgress 40 :: t2
                         ++ EvProgress 70 :: t3 ++ [failed])
                  | (inl _, d3, t3) =>
                      (inl (Success (invoiceId jd) (snd (fst a))),
                       marked jd SendSent d3,
                       EvProgress 10 :: t1 ++ EvProgress 40 :: t2
                         ++ EvProgress 70 :: t3
                         ++ [EvProgress 100;
                             EvSendStatus (invoiceId jd) SendSent])
                  end
              end
          end
      end.
Proof.
  cbn zeta.
  unfold Worker.processJob, loaded_preferences, marked, mark, progress,
    query, read, the_settings.
  unfold try_catch, bind, emit, write, ret, throw.
  destruct (select_preferences _ d) as [prefs|err]; cbn beta iota zeta.
  - destruct (unsubscribed prefs); [reflexivity|].
    destruct (generate_pdf _ _ d) as [[[a|e] d1] t1]; cbn beta iota zeta.
    + destruct (invoice_settings d) as [st|]; cbn beta iota zeta.
      * destruct (send_email _ st prefs a d1) as [[[u|e] d2] t2];
          cbn beta iota zeta.
        -- destruct (send_sms _ st prefs a d2) as [[[u'|e] d3] t3];
             cbn beta iota zeta; list_norm; reflexivity.
        -- list_norm; reflexivity.
      * list_norm; reflexivity.
    + list_norm; reflexivity.
  - change (unsubscribed None) with false. cbn beta iota zeta.
    destruct (generate_pdf _ _ d) as [[[a|e] d1] t1]; cbn beta iota zeta.
    + destruct (invoice_settings d) as [st|]; cbn beta iota zeta.
      * destruct (send_email _ st None a d1) as [[[u|e] d2] t2];
          cbn beta iota zeta.
        -- destruct (send_sms _ st None a d2) as [[[u'|e] d3] t3];
             cbn beta iota zeta; list_norm; reflexivity.
        -- list_norm; reflexivity.
      * list_norm; reflexivity.
    + list_norm; reflexivity.
Qed.

(** *** What the stages leave untouched *)

Lemma generate_pdf_frame (jd : job_data) (s : option settings) (d d1 : db)
      (r : result artifact) (t1 : list event) :
  generate_pdf jd s d = (r, d1, t1) ->
  invoices d1 = invoices d
  /\ send_logs d1 = send_logs d
  /\ send_logs_seq d1 = send_logs_seq d
  /\ forallb quiet t1 = true.
Proof.
  rewrite generate_pdf_run. destruct s as [st|].
  - cbn zeta. destruct (generateInvoicePDF ext _ _) as [buf|e].
    + destruct (savePDF ext buf _) as [info|e];
        intros H; injection H as <- <- <-; repeat split; reflexivity.
    + intros H; injection H as <- <- <-; repeat split; reflexivity.
  - intros H; injection H as <- <- <-; repeat split; reflexivity.
Qed.

Lemma generate_pdf_failed (jd : job_data) (st : settings) (d : db)
      (e : thrown) :
  (generateInvoicePDF ext (invoiceData jd) (companyData st) = inr e
   \/ exists buf,
       generateInvoicePDF ext (invoiceData jd) (companyData st) = inl buf
       /\ savePDF ext buf (pdf_file_name (invoiceData jd)) = inr e) ->
  exists t1,
    generate_pdf jd (Some st) d = (inl no_artifact, d, t1)
    /\ links t1 = []
    /\ (forall p, ~ List.In (EvSendEmail p) t1)
    /\ (forall p, ~ List.In (EvSendSms p) t1).
Proof.
  intros Hfail. rewrite generate_pdf_run. cbn zeta.
  destruct Hfail as [Hr | (buf & Hr & Hsv)].
  - rewrite Hr. eexists. split; [reflexivity|]. split; [reflexivity|].
    split; intros p [H|[]]; discriminate H.
  - rewrite Hr, Hsv. eexists. split; [reflexivity|]. split; [reflexivity|].
    split; intros p [H|[H|[H|[]]]]; discriminate H.
Qed.

Lemma send_email_frame (jd : job_data) (st : settings)
      (prefs : option preferences) (a : artifact) (d d2 : db) (u : unit)
      (t2 : list event) :
  send_email jd st prefs a d = (inl u, d2, t2) ->
  forallb (fun e => negb (is_status e)) t2 = true.
Proof.
  rewrite send_email_run. destruct (email_wanted jd st).
  - cbn zeta.
    destruct (EmailService.init cfg ext st) as [p|e]; [|discriminate].
    destruct (EmailService.sendInvoiceEmail ext p _) as [r|e];
      [|discriminate].
    destruct (stringify ext (sr_response r)) as [json|e]; [|discriminate].
    destruct (invoice_flag_columns d); [|discriminate].
    intros H; injection H as _ <- <-. reflexivity.
  - intros H; injection H as _ <- <-. reflexivity.
Qed.

Lemma logs_after_failed_email (jd : job_data) (st : settings) (e : thrown)
      (d : db) :
  send_logs (email_failed jd st e d)
  = List.map (fun r => if log_id r =? send_logs_seq d + 1
                       then set_failed_email (now_s now) (field_error e)
                                             (field_errorCode e) r
                       else r) (send_logs d)
      ++ [set_failed_email (now_s now) (field_error e) (field_errorCode e)
            (sending_row (send_logs_seq d + 1) (now_s now) (invoiceId jd)
               Email (customerEmail (invoiceData jd)) (email_provider st)
               (triggeredBy jd) (triggerType jd))].
Proof.
  unfold States.email_failed, email_logged, update_logs_where,
    insert_send_log, with_logs.
  cbn [snd send_logs]. rewrite List.map_app. cbn [List.map sending_row log_id].
  rewrite Z.eqb_refl. reflexivity.
Qed.

Lemma logs_after_failed_sms (jd : job_data) (st : settings) (e : thrown)
      (d : db) :
  send_logs (sms_failed jd st e d)
  = List.map (fun r => if log_id r =? send_logs_seq d + 1
                       then set_failed_sms (now_s now) (field_error e) r
                       else r) (send_logs d)
      ++ [set_failed_sms (now_s now) (field_error e)
            (sending_row (send_logs_seq d + 1) (now_s now) (invoiceId jd)
               Sms (customerPhone (invoiceData jd)) (sms_provider st)
               (triggeredBy jd) (triggerType jd))].
Proof.
  unfold States.sms_failed, sms_logged, update_logs_where,
    insert_send_log, with_logs.
  cbn [snd send_logs]. rewrite List.map_app. cbn [List.map sending_row log_id].
  rewrite Z.eqb_refl. reflexivity.
Qed.

Lemma update_logs_fresh (f : send_log -> send_log) (d : db) :
  ids_below_seq d ->
  List.map (fun r => if log_id r =? send_logs_seq d + 1 then f r else r)
           (send_logs d)
  = send_logs d.
Proof.
  unfold ids_below_seq. generalize (send_logs_seq d). intros n.
  induction (send_logs d) as [|r l IH]; intros H; [reflexivity|].
  apply List.Forall_cons_iff in H as [Hr Hl].
  cbn [List.map]. rewrite (IH Hl).
  replace (log_id r =? n + 1) with false
    by (symmetry; apply Z.eqb_neq; lia).
  reflexivity.
Qed.

Lemma invoices_after_mark (jd : job_data) (s : send_status) (d : db) :
  invoices (marked jd s d) !! invoiceId jd
  = set_send_status s <$> invoices d !! invoiceId jd.
Proof.
  unfold States.marked, update_invoice, with_invoices. cbn [invoices].
  apply lookup_alter_eq.
Qed.

Lemma invoices_after_mark_logs (jd : job_data) (s : send_status) (d : db) :
  send_logs (marked jd s d) = send_logs d.
Proof. reflexivity. Qed.

Lemma lookup_update_invoice (i : Z) (f : invoice_row -> invoice_row)
      (d : db) :
  invoices (update_invoice i f d) !! i = f <$> invoices d !! i.
Proof.
  unfold update_invoice, with_invoices. cbn [invoices].
  apply lookup_alter_eq.
Qed.

Lemma invoices_update_logs (i : Z) (f : send_log -> send_log) (d : db) :
  invoices (update_logs_where i f d) = invoices d.
Proof. reflexivity. Qed.

Lemma invoices_insert_log (n i : Z) (ch : channel)
      (r p tb tt' : option string) (d : db) :
  invoices (snd (insert_send_log n i ch r p tb tt' d)) = invoices d.
Proof. reflexivity. Qed.

Lemma invoices_after_failed_email (jd : job_data) (st : settings)
      (e : thrown) (d : db) :
  invoices (email_failed jd st e d) = invoices d.
Proof. reflexivity. Qed.

Lemma invoices_after_failed_sms (jd : job_data) (st : settings)
      (e : thrown) (d : db) :
  invoices (sms_failed jd st e d) = invoices d.
Proof. reflexivity. Qed.

(** The email stage leaves the invoices as they are or sets the flag
    of the job's invoice. *)
Lemma send_email_invoices (jd : job_data) (st : settings)
      (prefs : option preferences) (a : artifact) (d d2 : db)
      (r : result unit) (t2 : list event) :
  send_email jd st prefs a d = (r, d2, t2) ->
  invoices d2 = invoices d
  \/ invoices d2
     = alter (flag_email_sent (now_s now)) (invoiceId jd) (invoices d).
Proof.
  rewrite send_email_run. destruct (email_wanted jd st); cbn zeta.
  - destruct (EmailService.init cfg ext st) as [p|e].
    + destruct (EmailService.sendInvoiceEmail ext p _) as [x|e].
      * destruct (stringify ext (sr_response x)) as [json|e].
        -- destruct (invoice_flag_columns d);
             intros H; injection H as _ <- _; [right|left]; reflexivity.
        -- intros H; injection H as _ <- _. left. reflexivity.
      * intros H; injection H as _ <- _. left. reflexivity.
    + intros H; injection H as _ <- _. left. reflexivity.
  - intros H; injection H as _ <- _. left. reflexivity.
Qed.

(** The flag columns are there or not for the whole run. *)
Lemma flags_stored (jd : job_data) (st : settings) (buf : string)
      (info : file_info) (d : db) :
  invoice_flag_columns (stored jd st buf info d) = invoice_flag_columns d.
Proof. reflexivity. Qed.

Lemma flags_email_sent (jd : job_data) (st : settings) (r : send_result)
      (json : option string) (d : db) :
  invoice_flag_columns (email_sent jd st r json d) = invoice_flag_columns d.
Proof. reflexivity. Qed.

Lemma quiet_no_status (t : list event) :
  forallb quiet t = true -> List.filter is_status t = [].
Proof.
  induction t as [|e t IH]; intros H; [reflexivity|].
  cbn [forallb] in H. apply andb_true_iff in H as [Q1 Q2].
  unfold quiet in Q1. apply andb_true_iff in Q1 as [Q1 _].
  apply negb_true_iff in Q1. cbn [List.filter]. rewrite Q1. apply IH, Q2.
Qed.

Lemma no_status_filter (t : list event) :
  forallb (fun e => negb (is_status e)) t = true ->
  List.filter is_status t = [].
Proof.
  induction t as [|e t IH]; intros H; [reflexivity|].
  cbn [forallb] in H. apply andb_true_iff in H as [Q1 Q2].
  apply negb_true_iff in Q1. cbn [List.filter]. rewrite Q1. apply IH, Q2.
Qed.

End Run.

End WorkerFacts.

(** One step of the case analysis of a run: rewrite a stage by its
    equation, or split on the next call whose result decides the run. *)
Ltac run_step :=
  first
    [ rewrite WorkerFacts.generate_pdf_run
    | rewrite WorkerFacts.send_email_run
    | rewrite WorkerFacts.send_sms_run
    | rewrite WorkerFacts.flags_stored
    | rewrite WorkerFacts.flags_email_sent
    | match goal with
      | H : Db.invoice_flag_columns ?d = _
        |- context [if Db.invoice_flag_columns ?d then _ else _] => rewrite H
      end
    | match goal with
      | |- context [if Worker.unsubscribed ?p then _ else _] =>
          destruct (Worker.unsubscribed p) eqn:?
      | |- context [match Db.invoice_settings ?d with _ => _ end] =>
          destruct (Db.invoice_settings d) eqn:?
      | |- context [match generateInvoicePDF ?e ?a ?b with _ => _ end] =>
          destruct (generateInvoicePDF e a b) eqn:?
      | |- context [match savePDF ?e ?a ?b with _ => _ end] =>
          destruct (savePDF e a b) eqn:?
      | |- context [if States.email_wanted ?a ?b then _ else _] =>
          destruct (States.email_wanted a b) eqn:?
      | |- context [match EmailService.init ?a ?b ?c with _ => _ end] =>
          destruct (EmailService.init a b c) eqn:?
      | |- context [match EmailService.sendInvoiceEmail ?a ?b ?c with _ => _ end] =>
          destruct (EmailService.sendInvoiceEmail a b c) eqn:?
      | |- context [if States.sms_wanted ?a ?b ?c then _ else _] =>
          destruct (States.sms_wanted a b c) eqn:?
      | |- context [match SmsService.init ?a ?b ?c with _ => _ end] =>
          destruct (SmsService.init a b c) eqn:?
      | |- context [match stringify ?a ?b with _ => _ end] =>
          destruct (stringify a b) eqn:?
      | |- context [if Db.invoice_flag_columns ?d then _ else _] =>
          destruct (Db.invoice_flag_columns d) eqn:?
      | |- context [match SmsService.sendInvoiceSMS ?a ?b ?c with _ => _ end] =>
          destruct (SmsService.sendInvoiceSMS a b c) eqn:?
      end ];
  cbn beta iota zeta.

Ltac run_cases :=
  rewrite WorkerFacts.processJob_run; cbn beta iota zeta; repeat run_step;
  cbn [Effect.outcome_of Effect.db_of Effect.trace_of fst snd app].

(** ** The delivery job *)

Module JobProperties.
Import Db Effect Worker Trace States WorkerFacts.

(** C6.  When the customer's preferences row has [email_unsubscribed]
    set, the job returns the skipped outcome at once: the database is left
    as it was (no send-log row, no file record, no change to the invoice's
    [send_status], [email_sent], [sms_sent]) and nothing else happens. *)
Theorem unsubscribed_job_is_skipped
        (cfg : config) (ext : collaborators) (SECRET : string) (now : Z)
        (j : MockQueue.job job_data) (d : db) (p : preferences) :
  select_preferences (customerEmail (invoiceData (MockQueue.data j))) d
  = inl (Some p) ->
  email_unsubscribed p = true ->
  let run := processJob cfg ext SECRET now j d in
  outcome_of run = inl (Skipped "unsubscribed")
  /\ db_of run = d
  /\ trace_of run = []
  /\ send_logs (db_of run) = send_logs d
  /\ invoice_files (db_of run) = invoice_files d
  /\ invoices (db_of run) = invoices d.
Proof.
  intros Hp Hu. cbn zeta. rewrite processJob_run. cbn zeta.
  unfold loaded_preferences. rewrite Hp. cbn [unsubscribed]. rewrite Hu.
  repeat split; reflexivity.
Qed.

(** An instance: the sample customer has unsubscribed. *)
Lemma unsubscribed_job_is_skipped_witness :
  let run := Sample.run Sample.cfg Sample.ext (Sample.db_with Sample.prefs_out) in
  outcome_of run = inl (Skipped "unsubscribed")
  /\ db_of run = Sample.db_with Sample.prefs_out
  /\ trace_of run = [].
Proof.
  pose proof (unsubscribed_job_is_skipped Sample.cfg Sample.ext
                UrlSigning.DEFAULT_SECRET Sample.now0 Sample.job0
                (Sample.db_with Sample.prefs_out) Sample.prefs_out
                eq_refl eq_refl) as H.
  cbn zeta in *. destruct H as (Ho & Hd & Ht & _).
  repeat split; assumption.
Defined.

(** C3.  When the email dispatch call throws, the job's email row goes
    from 'sending' to 'failed' with the message and the code of the error,
    the error is thrown again and leaves the job, and the invoice's
    [send_status] becomes 'failed': that is the value the column holds at
    the end.  None of the success-path updates happens: no row is set to
    'sent', the flag columns keep their values, and [send_status] is not
    set to 'sent'. *)
Theorem email_dispatch_failure_is_fatal
        (cfg : config) (ext : collaborators) (SECRET : string) (now : Z)
        (j : MockQueue.job job_data) (d d1 : db) (st : settings)
        (p : EmailService.provider) (a : artifact) (t1 : list event)
        (inner : thrown) :
  let jd := MockQueue.data j in
  let prefs := loaded_preferences (customerEmail (invoiceData jd)) d in
  let params := email_params_of cfg jd st prefs a in
  let id := send_logs_seq d + 1 in
  let error := ChannelFailure (Some (EmailService.providerName p))
                              (field_message inner) (field_code inner) in
  let failed_row :=
    set_failed_email (now_s now) (field_message inner) (field_code inner)
      (sending_row id (now_s now) (invoiceId jd) Email
         (customerEmail (invoiceData jd)) (email_provider st)
         (triggeredBy jd) (triggerType jd)) in
  unsubscribed prefs = false ->
  invoice_settings d = Some st ->
  generate_pdf ext SECRET now jd (Some st) d = (inl a, d1, t1) ->
  email_wanted jd st = true ->
  EmailService.init cfg ext st = inl p ->
  EmailService.attempt ext p params = inr inner ->
  let run := processJob cfg ext SECRET now j d in
  outcome_of run = inr error
  /\ trace_of run
     = EvProgress 10 :: t1
         ++ [EvProgress 40; EvInsertLog Email id; EvInit Email;
             EvSendEmail params;
             EvLogFailed Email id (field_message inner) (field_code inner);
             EvSendStatus (invoiceId jd) SendFailed]
  /\ List.In failed_row (send_logs (db_of run))
  /\ (ids_below_seq d -> send_logs (db_of run) = send_logs d ++ [failed_row])
  /\ (log_status_of failed_row = LogFailed
      /\ log_error_message failed_row = field_message inner
      /\ log_error_code failed_row = field_code inner)
  /\ invoices (db_of run) !! invoiceId jd
     = set_send_status SendFailed <$> invoices d !! invoiceId jd
  /\ List.existsb is_success_update (trace_of run) = false
  /\ row_send_status <$> invoices (db_of run) !! invoiceId jd
     = (fun _ => SendFailed) <$> invoices d !! invoiceId jd
  /\ (fun r => (row_email_sent r, row_email_sent_at r,
                row_sms_sent r, row_sms_sent_at r))
       <$> invoices (db_of run) !! invoiceId jd
     = (fun r => (row_email_sent r, row_email_sent_at r,
                  row_sms_sent r, row_sms_sent_at r))
         <$> invoices d !! invoiceId jd.
Proof.
  cbn zeta. intros Hu Hs Hpdf Hw Hi Ha.
  destruct (generate_pdf_frame ext SECRET now _ _ _ _ _ _ Hpdf)
    as (Finv & Flog & Fseq & Fq).
  rewrite processJob_run. cbn zeta.
  rewrite Hu, Hs, Hpdf, send_email_run, Hw. cbn zeta. rewrite Hi.
  unfold EmailService.sendInvoiceEmail. rewrite Ha.
  cbn [outcome_of db_of trace_of fst snd field_error field_errorCode].
  rewrite Fseq. repeat split.
  - rewrite invoices_after_mark_logs.
    rewrite logs_after_failed_email, Fseq.
    apply List.in_or_app. right. left. reflexivity.
  - intros Hwf. rewrite invoices_after_mark_logs, logs_after_failed_email.
    rewrite update_logs_fresh, Flog, Fseq; [reflexivity|].
    unfold ids_below_seq. rewrite Flog, Fseq. exact Hwf.
  - rewrite invoices_after_mark, invoices_after_failed_email, Finv.
    reflexivity.
  - cbn [List.existsb is_success_update orb]. rewrite List.existsb_app.
    cbn [List.existsb is_success_update orb]. rewrite orb_false_r.
    clear - Fq. induction t1 as [|e t IH]; [reflexivity|].
    cbn [forallb] in Fq. apply andb_true_iff in Fq as [Q1 Q2].
    cbn [List.existsb]. rewrite (IH Q2), orb_false_r.
    unfold quiet in Q1. apply andb_true_iff in Q1 as [_ Q1].
    apply negb_true_iff in Q1. exact Q1.
  - rewrite invoices_after_mark, invoices_after_failed_email, Finv.
    destruct (invoices d !! invoiceId (MockQueue.data j)); reflexivity.
  - rewrite invoices_after_mark, invoices_after_failed_email, Finv.
    destruct (invoices d !! invoiceId (MockQueue.data j)); reflexivity.
Qed.

(** An instance: SendGrid throws [boom] for invoice 5. *)
Lemma email_dispatch_failure_is_fatal_witness :
  let run := Sample.run Sample.cfg (Sample.failing_email Sample.boom) Sample.db0 in
  outcome_of run
  = inr (ChannelFailure (Some "sendgrid") (Some "boom") (Some "E_BOOM"))
  /\ invoices (db_of run) !! 5
     = Some (set_send_status SendFailed Sample.row1001)
  /\ row_send_status <$> invoices (db_of run) !! 5 = Some SendFailed.
Proof.
  cbn zeta.
  destruct (email_dispatch_failure_is_fatal
              Sample.cfg (Sample.failing_email Sample.boom)
              UrlSigning.DEFAULT_SECRET Sample.now0 Sample.job0 Sample.db0
              (db_of (generate_pdf (Sample.failing_email Sample.boom)
                        UrlSigning.DEFAULT_SECRET Sample.now0
                        (MockQueue.data Sample.job0) (Some Sample.st) Sample.db0))
              Sample.st EmailService.SendGrid
              (Some "%PDF", Some "invoice-INV-1001.pdf",
               Some (worker_token UrlSigning.DEFAULT_SECRET Sample.now0 5 Sample.st))
              (trace_of (generate_pdf (Sample.failing_email Sample.boom)
                           UrlSigning.DEFAULT_SECRET Sample.now0
                           (MockQueue.data Sample.job0) (Some Sample.st) Sample.db0))
              Sample.boom eq_refl eq_refl eq_refl eq_refl eq_refl eq_refl)
    as (Ho & _ & _ & _ & _ & Hi & _ & Hst & _).
  split; [exact Ho|]. split; [exact Hi | exact Hst].
Defined.

(** C5.  When the email stage did not throw (the email was sent, or the
    stage was not entered) and the SMS dispatch call throws, the SMS row
    goes to 'failed' with the message of the error, nothing is thrown
    again, the job succeeds, and the invoice's [send_status] is set to
    'sent', which is the value the column holds at the end; it is never
    set to 'failed'. *)
Theorem sms_dispatch_failure_is_not_fatal
        (cfg : config) (ext : collaborators) (SECRET : string) (now : Z)
        (j : MockQueue.job job_data) (d d1 d2 : db) (st : settings)
        (p : SmsService.provider) (a : artifact) (t1 t2 : list event)
        (inner : thrown) :
  let jd := MockQueue.data j in
  let prefs := loaded_preferences (customerEmail (invoiceData jd)) d in
  let params := sms_params_of jd st a in
  let id := send_logs_seq d2 + 1 in
  let failed_row :=
    set_failed_sms (now_s now) (field_message inner)
      (sending_row id (now_s now) (invoiceId jd) Sms
         (customerPhone (invoiceData jd)) (sms_provider st)
         (triggeredBy jd) (triggerType jd)) in
  unsubscribed prefs = false ->
  invoice_settings d = Some st ->
  generate_pdf ext SECRET now jd (Some st) d = (inl a, d1, t1) ->
  send_email cfg ext now jd st prefs a d1 = (inl tt, d2, t2) ->
  sms_wanted jd st prefs = true ->
  SmsService.init cfg ext st = inl p ->
  SmsService.attempt ext p params = inr inner ->
  let run := processJob cfg ext SECRET now j d in
  outcome_of run = inl (Success (invoiceId jd) (snd (fst a)))
  /\ trace_of run
     = EvProgress 10 :: t1 ++ EvProgress 40 :: t2
         ++ [EvProgress 70; EvInsertLog Sms id; EvInit Sms; EvSendSms params;
             EvLogFailed Sms id (field_message inner) None;
             EvProgress 100; EvSendStatus (invoiceId jd) SendSent]
  /\ List.In failed_row (send_logs (db_of run))
  /\ (ids_below_seq d2 -> send_logs (db_of run) = send_logs d2 ++ [failed_row])
  /\ (log_status_of failed_row = LogFailed
      /\ log_error_message failed_row = field_message inner)
  /\ invoices (db_of run) !! invoiceId jd
     = set_send_status SendSent <$> invoices d2 !! invoiceId jd
  /\ List.existsb marks_failed (trace_of run) = false
  /\ row_send_status <$> invoices (db_of run) !! invoiceId jd
     = (fun _ => SendSent) <$> invoices d !! invoiceId jd
  /\ List.filter is_status (trace_of run)
     = [EvSendStatus (invoiceId jd) SendSent].
Proof.
  cbn zeta. intros Hu Hs Hpdf Hmail Hw Hi Ha.
  destruct (generate_pdf_frame ext SECRET now _ _ _ _ _ _ Hpdf)
    as (Finv & _ & _ & Fq).
  pose proof (send_email_frame cfg ext now _ _ _ _ _ _ _ _ Hmail) as Fm.
  rewrite processJob_run. cbn zeta.
  rewrite Hu, Hs, Hpdf, Hmail, send_sms_run, Hw. cbn zeta. rewrite Hi.
  unfold SmsService.sendInvoiceSMS. rewrite Ha.
  cbn [outcome_of db_of trace_of fst snd field_error field_errorCode].
  repeat split.
  - rewrite invoices_after_mark_logs, logs_after_failed_sms.
    apply List.in_or_app. right. left. reflexivity.
  - intros Hwf. rewrite invoices_after_mark_logs, logs_after_failed_sms.
    rewrite update_logs_fresh by exact Hwf. reflexivity.
  - rewrite invoices_after_mark, invoices_after_failed_sms. reflexivity.
  - cbn [List.existsb marks_failed orb]. rewrite List.existsb_app.
    cbn [List.existsb marks_failed orb]. rewrite List.existsb_app.
    cbn [List.existsb marks_failed orb]. rewrite !orb_false_r.
    apply orb_false_iff. split.
    + clear - Fq. induction t1 as [|e t IH]; [reflexivity|].
      cbn [forallb] in Fq. apply andb_true_iff in Fq as [Q1 Q2].
      cbn [List.existsb]. rewrite (IH Q2), orb_false_r.
      unfold quiet in Q1. apply andb_true_iff in Q1 as [Q1 _].
      destruct e; try reflexivity. discriminate Q1.
    + clear - Fm. induction t2 as [|e t IH]; [reflexivity|].
      cbn [forallb] in Fm. apply andb_true_iff in Fm as [Q1 Q2].
      cbn [List.existsb]. rewrite (IH Q2), orb_false_r.
      destruct e; try reflexivity. discriminate Q1.
  - rewrite invoices_after_mark, invoices_after_failed_sms.
    destruct (send_email_invoices cfg ext now _ _ _ _ _ _ _ _ Hmail)
      as [-> | ->]; rewrite Finv;
      rewrite ?lookup_alter_eq;
      destruct (invoices d !! invoiceId (MockQueue.data j)); reflexivity.
  - cbn [List.filter is_status]. rewrite List.filter_app.
    rewrite (quiet_no_status _ Fq). cbn [List.filter is_status app].
    rewrite List.filter_app, (no_status_filter _ Fm). reflexivity.
Qed.

(** An instance: the sample phone number is rejected by the validator. *)
Lemma sms_dispatch_failure_is_not_fatal_witness :
  let run := Sample.run Sample.cfg Sample.ext Sample.db0 in
  outcome_of run = inl (Success 5 (Some "invoice-INV-1001.pdf"))
  /\ invoices (db_of run) !! 5
     = Some (set_send_status SendSent
               (flag_email_sent (now_s Sample.now0) Sample.row1001))
  /\ row_send_status <$> invoices (db_of run) !! 5 = Some SendSent.
Proof.
  cbn zeta.
  pose (pdf := generate_pdf Sample.ext UrlSigning.DEFAULT_SECRET Sample.now0
                 (MockQueue.data Sample.job0) (Some Sample.st) Sample.db0).
  pose (art := (Some "%PDF", Some "invoice-INV-1001.pdf",
                Some (worker_token UrlSigning.DEFAULT_SECRET Sample.now0 5
                                   Sample.st)) : artifact).
  pose (mail := send_email Sample.cfg Sample.ext Sample.now0
                  (MockQueue.data Sample.job0) Sample.st (Some Sample.prefs_in)
                  art (db_of pdf)).
  destruct (sms_dispatch_failure_is_not_fatal
              Sample.cfg Sample.ext UrlSigning.DEFAULT_SECRET Sample.now0
              Sample.job0 Sample.db0 (db_of pdf) (db_of mail) Sample.st
              SmsService.Twilio art (trace_of pdf) (trace_of mail)
              (JsError "Invalid phone number: 12345" None)
              eq_refl eq_refl eq_refl eq_refl eq_refl eq_refl eq_refl)
    as (Ho & _ & _ & _ & _ & Hi & _ & Hst & _).
  split; [exact Ho|]. split; [exact Hi | exact Hst].
Defined.

(** C10, as amended.  The progress values of a run are reported in
    increasing order, each at most once, and they are one of: nothing (a
    skipped job); 10, 40 or 10, 25, 40 (the job fails in or before the
    email stage); 10, 40, 70, 100 (rendering threw); 10, 25, 40, 70, 100.
    A job that is not skipped, whose PDF is rendered and stored and whose
    email stage returns, runs rendering, storing, token minting and the
    file record, the email stage and the SMS stage in this order, and
    reports 10 before rendering, 25 after rendering, 40 after the token and
    the file record, 70 after the email stage and 100 after the SMS
    stage. *)
Theorem progress_reports
        (cfg : config) (ext : collaborators) (SECRET : string) (now : Z)
        (j : MockQueue.job job_data) (d : db) :
  let jd := MockQueue.data j in
  let prefs := loaded_preferences (customerEmail (invoiceData jd)) d in
  let run := processJob cfg ext SECRET now j d in
  List.In (progress_values (trace_of run))
          [[]; [10; 40]; [10; 25; 40]; [10; 40; 70; 100]; [10; 25; 40; 70; 100]]
  /\ (forall st buf info d2 t2,
        unsubscribed prefs = false ->
        invoice_settings d = Some st ->
        generateInvoicePDF ext (invoiceData jd) (companyData st) = inl buf ->
        savePDF ext buf (pdf_file_name (invoiceData jd)) = inl info ->
        send_email cfg ext now jd st prefs
          (Some buf, Some (pdf_file_name (invoiceData jd)),
           Some (worker_token SECRET now (invoiceId jd) st))
          (stored SECRET now jd st buf info d)
        = (inl tt, d2, t2) ->
        exists t3,
          trace_of run
          = [EvProgress 10;
             EvRenderPdf (invoiceData jd) (companyData st);
             EvProgress 25;
             EvSavePdf buf (pdf_file_name (invoiceData jd));
             EvMintToken (JS.JStr (pdf_path (invoiceId jd))) (expiry_days st);
             EvInsertFile (file_record now (invoiceId jd) info
                             (worker_token SECRET now (invoiceId jd) st));
             EvProgress 40]
            ++ t2 ++ [EvProgress 70] ++ t3
            ++ [EvProgress 100; EvSendStatus (invoiceId jd) SendSent]
          /\ Forall (fun e => stage_of e = 4) t2
          /\ Forall (fun e => stage_of e = 5) t3
          /\ progress_values (trace_of run) = [10; 25; 40; 70; 100]).
Proof.
  cbn zeta. split.
  - run_cases; cbn; tauto.
  - intros st buf info d2 t2 Hu Hs Hr Hsave Hmail.
    rewrite processJob_run. cbn beta iota zeta.
    rewrite Hu, generate_pdf_run, Hs. cbn beta iota zeta.
    rewrite Hr, Hsave. cbn beta iota zeta. rewrite Hmail.
    assert (T2 : Forall (fun e => stage_of e = 4) t2
                 /\ progress_values t2 = []).
    { revert Hmail. rewrite send_email_run.
      destruct (email_wanted _ st); cbn zeta.
      - destruct (EmailService.init cfg ext st); [|discriminate].
        destruct (EmailService.sendInvoiceEmail ext _ _) as [x|];
          [|discriminate].
        destruct (stringify ext (sr_response x)); [|discriminate].
        destruct (invoice_flag_columns _); [|discriminate].
        intros H; injection H as _ <-.
        split; [repeat constructor | reflexivity].
      - intros H; injection H as _ <-. split; [constructor | reflexivity]. }
    destruct T2 as [T2 P2].
    assert (T3 : forall a dd, exists t3,
               trace_of (send_sms cfg ext now (MockQueue.data j) st
                           (loaded_preferences
                              (customerEmail (invoiceData (MockQueue.data j))) d)
                           a dd) = t3
               /\ outcome_of (send_sms cfg ext now (MockQueue.data j) st
                           (loaded_preferences
                              (customerEmail (invoiceData (MockQueue.data j))) d)
                           a dd) = inl tt
               /\ Forall (fun e => stage_of e = 5) t3
               /\ progress_values t3 = []).
    { intros a dd. rewrite send_sms_run.
      destruct (sms_wanted _ st _); cbn zeta.
      - destruct (SmsService.init cfg ext st).
        + destruct (SmsService.sendInvoiceSMS ext _ _);
            [destruct (invoice_flag_columns dd)|];
            eexists; (split; [reflexivity|]); (split; [reflexivity|]);
            (split; [repeat constructor | reflexivity]).
        + eexists; (split; [reflexivity|]); (split; [reflexivity|]);
            (split; [repeat constructor | reflexivity]).
      - eexists; (split; [reflexivity|]); (split; [reflexivity|]);
          (split; [constructor | reflexivity]). }
    match goal with
    | |- context [send_sms ?c ?e ?n ?jd ?s ?p ?a ?dd] =>
        destruct (T3 a dd) as (t3 & E3 & O3 & F3 & P3);
        destruct (send_sms c e n jd s p a dd) as [[o3 d3] t3'] eqn:Hsms
    end.
    cbn [trace_of outcome_of fst snd] in E3, O3. subst t3' o3.
    exists t3. cbn [trace_of snd].
    split; [list_norm; reflexivity|].
    split; [exact T2|]. split; [exact F3|].
    cbn [progress_values List.flat_map app].
    fold (progress_values (t2 ++ EvProgress 70 :: t3
                             ++ [EvProgress 100;
                                 EvSendStatus (invoiceId (MockQueue.data j)) SendSent])).
    unfold progress_values in *.
    rewrite List.flat_map_app, P2. cbn [List.flat_map app].
    rewrite List.flat_map_app, P3. reflexivity.
Qed.

(** An instance: everything succeeds but the SMS validation. *)
Lemma progress_reports_witness :
  progress_values (trace_of (Sample.run Sample.cfg Sample.ext Sample.db0))
  = [10; 25; 40; 70; 100].
Proof.
  pose (art := (Some "%PDF", Some "invoice-INV-1001.pdf",
                Some (worker_token UrlSigning.DEFAULT_SECRET Sample.now0 5
                                   Sample.st)) : artifact).
  pose (mail := send_email Sample.cfg Sample.ext Sample.now0
                  (MockQueue.data Sample.job0) Sample.st (Some Sample.prefs_in)
                  art
                  (stored UrlSigning.DEFAULT_SECRET Sample.now0
                     (MockQueue.data Sample.job0) Sample.st "%PDF"
                     (FileInfo "invoice-INV-1001.pdf"
                               "storage/invoices/invoice-INV-1001.pdf" 4 "hash"
                               "local")
                     Sample.db0)).
  destruct (proj2 (progress_reports Sample.cfg Sample.ext
                     UrlSigning.DEFAULT_SECRET Sample.now0 Sample.job0
                     Sample.db0)
                  Sample.st "%PDF"
                  (FileInfo "invoice-INV-1001.pdf"
                            "storage/invoices/invoice-INV-1001.pdf" 4 "hash"
                            "local")
                  (db_of mail) (trace_of mail)
                  eq_refl eq_refl eq_refl eq_refl eq_refl)
    as (t3 & _ & _ & _ & H).
  exact H.
Defined.

(** C10, as stated, fails: when rendering throws the job goes on and
    never reports 25, and a skipped job reports nothing. *)
Lemma progress_reports_counterexample :
  let degraded :=
    Sample.run Sample.cfg (Sample.failing_render Sample.boom) Sample.db0 in
  let skipped :=
    Sample.run Sample.cfg Sample.ext (Sample.db_with Sample.prefs_out) in
  outcome_of degraded = inl (Success 5 None)
  /\ progress_values (trace_of degraded) = [10; 40; 70; 100]
  /\ outcome_of skipped = inl (Skipped "unsubscribed")
  /\ progress_values (trace_of skipped) = [].
Proof. vm_compute. repeat split; reflexivity. Qed.


(** An instance: on the sample installation the email is dispatched and
    the call returns. *)
Lemma ledger_phases_sample :
  channel_phases Email
    (trace_of (Sample.run Sample.cfg Sample.ext Sample.db0))
  = [PhInsert 1; PhInit; PhDispatch; PhSent 1]
  /\ channel_phases Email
       (trace_of (Sample.run Sample.cfg Sample.ext Sample.db_fresh))
     = [PhInsert 1; PhInit; PhDispatch; PhSent 1; PhFailed 1].
Proof. vm_compute. split; reflexivity. Qed.


(** C4.  When rendering or storing throws, the job goes on: no file
    record is written and no link is handed out; if email is enabled and
    the customer has an address, the email stage is entered, and the
    dispatch call, when it is made, carries no buffer, no file name and no
    link, hence no attachment; and the run ends by setting the invoice's
    [send_status] to 'sent' or to 'failed'. *)
Theorem pdf_failure_degrades
        (cfg : config) (ext : collaborators) (SECRET : string) (now : Z)
        (j : MockQueue.job job_data) (d : db) (st : settings) (e : thrown) :
  let jd := MockQueue.data j in
  let prefs := loaded_preferences (customerEmail (invoiceData jd)) d in
  let degraded := email_params_of cfg jd st prefs no_artifact in
  unsubscribed prefs = false ->
  invoice_settings d = Some st ->
  (generateInvoicePDF ext (invoiceData jd) (companyData st) = inr e
   \/ exists buf,
       generateInvoicePDF ext (invoiceData jd) (companyData st) = inl buf
       /\ savePDF ext buf (pdf_file_name (invoiceData jd)) = inr e) ->
  let run := processJob cfg ext SECRET now j d in
  List.In (EvProgress 40) (trace_of run)
  /\ invoice_files (db_of run) = invoice_files d
  /\ links (trace_of run) = []
  /\ (email_wanted jd st = true ->
      List.In (EvInsertLog Email (send_logs_seq d + 1)) (trace_of run)
      /\ List.In (EvInit Email) (trace_of run)
      /\ (forall p, EmailService.init cfg ext st = inl p ->
                    List.In (EvSendEmail degraded) (trace_of run)))
  /\ (forall p, List.In (EvSendEmail p) (trace_of run) -> p = degraded)
  /\ (forall p, List.In (EvSendSms p) (trace_of run) -> sp_invoiceUrl p = None)
  /\ (ep_pdfBuffer degraded = None /\ ep_pdfFileName degraded = None
      /\ ep_invoiceUrl degraded = None
      /\ EmailService.attachments_of degraded = None)
  /\ exists pre s,
      trace_of run = pre ++ [EvSendStatus (invoiceId jd) s]
      /\ (s = SendSent \/ s = SendFailed)
      /\ forall row, invoices d !! invoiceId jd = Some row ->
                     exists row',
                       invoices (db_of run) !! invoiceId jd = Some row'
                       /\ row_send_status row' = s.
Proof.
  cbn zeta. intros Hu Hs Hfail.
  rewrite processJob_run. cbn beta iota zeta.
  rewrite Hu, Hs.
  destruct (generate_pdf_failed ext SECRET now _ _ d _ Hfail)
    as (t1 & Hpdf & Hl & He & Hm).
  rewrite Hpdf. cbn beta iota zeta.
  clear Hfail Hpdf.
  repeat run_step; cbn [outcome_of db_of trace_of fst snd app].
  all: split; [right; apply List.in_or_app; right; left; reflexivity|].
  all: split; [reflexivity|].
  all: split; [unfold links in *; cbn [List.flat_map app];
               rewrite List.flat_map_app, Hl; reflexivity|].
  all: split;
    [intros Hw;
     first [ discriminate Hw
           | split; [right; apply List.in_or_app; right; cbn; tauto|];
             split; [right; apply List.in_or_app; right; cbn; tauto|];
             intros q Hq;
             first [ discriminate Hq
                   | right; apply List.in_or_app; right; cbn; tauto ] ]|].
  all: split;
    [intros q Hq; cbn [List.In] in Hq; destruct Hq as [Hq|Hq];
     [discriminate Hq|];
     apply List.in_app_or in Hq; destruct Hq as [Hq|Hq];
     [exfalso; exact (He q Hq)|];
     cbn [List.In app] in Hq;
     repeat (destruct Hq as [Hq|Hq];
             [first [discriminate Hq | injection Hq as <-; reflexivity]|]);
     contradiction|].
  all: split;
    [intros q Hq; cbn [List.In] in Hq; destruct Hq as [Hq|Hq];
     [discriminate Hq|];
     apply List.in_app_or in Hq; destruct Hq as [Hq|Hq];
     [exfalso; exact (Hm q Hq)|];
     cbn [List.In app] in Hq;
     repeat (destruct Hq as [Hq|Hq];
             [first [discriminate Hq | injection Hq as <-; reflexivity]|]);
     contradiction|].
  all: split; [repeat split; reflexivity|].
  all: match goal with
       | |- context [EvProgress 10 :: ?l ++ ?m] =>
           exists (EvProgress 10 :: l ++ List.removelast m);
           let x := eval cbn [List.last] in (List.last m (EvProgress 0)) in
           match x with
           | EvSendStatus _ ?s => exists s
           end
       end.
  all: split; [cbn [List.removelast]; list_norm; reflexivity|].
  all: split; [first [left; reflexivity | right; reflexivity]|].
  all: intros row Hrow;
    unfold States.marked, States.sms_sent, States.sms_failed,
      States.email_sent, States.email_failed, States.sms_unflagged,
      States.email_unflagged, States.sms_marked_sent,
      States.email_marked_sent, States.sms_logged, States.email_logged;
    repeat first [ rewrite lookup_update_invoice
                 | rewrite invoices_update_logs
                 | rewrite invoices_insert_log ];
    rewrite Hrow; eexists; split; reflexivity.
Qed.

(** An instance: the PDF generator throws [boom]. *)
Lemma pdf_failure_degrades_witness :
  let run :=
    Sample.run Sample.cfg (Sample.failing_render Sample.boom) Sample.db0 in
  List.In (EvProgress 40) (trace_of run)
  /\ invoice_files (db_of run) = []
  /\ links (trace_of run) = [].
Proof.
  cbn zeta.
  destruct (pdf_failure_degrades
              Sample.cfg (Sample.failing_render Sample.boom)
              UrlSigning.DEFAULT_SECRET Sample.now0 Sample.job0 Sample.db0
              Sample.st Sample.boom eq_refl eq_refl (or_introl eq_refl))
    as (H1 & H2 & H3 & _).
  repeat split; assumption.
Defined.

End JobProperties.

(** ** Links, the queue and the routes *)

Module RouteProperties.
Import Db Effect Worker Trace States WorkerFacts Routes.
Import Charset JSFacts UrlSigningFacts TokenProperties.

Lemma pdf_path_slash (invoice : Z) :
  exists r, pdf_path invoice = String "/" r
            /\ all_codes is_seven_bit r = true.
Proof.
  exists ("api/invoices/" ++ JS.numToString invoice ++ "/pdf")%string.
  split; [reflexivity|].
  rewrite all_codes_app.
  change (all_codes is_seven_bit "api/invoices/") with true.
  rewrite all_codes_app, numToString_seven_bit. reflexivity.
Qed.

Lemma worker_token_rejected (SECRET : string) (now invoice : Z)
      (st : settings) (t : Z) (v : JS.jsval) :
  UrlSigning.verifySignedUrl SECRET t (worker_token SECRET now invoice st) v
  = false.
Proof.
  unfold worker_token.
  destruct (pdf_path_slash invoice) as (r & -> & Hr).
  apply path_token_rejected. exact Hr.
Qed.

(** C1.  Every link a delivery job hands out (in the email, in the SMS,
    in the file record) is the token minted over the path
    [/api/invoices/<id>/pdf].  [parseInt] of that path is [NaN], so
    [verifySignedUrl] rejects the token against every invoice id and at
    every instant, and the PDF route answers 403. *)
Theorem worker_links_fail_verification
        (cfg : config) (ext : collaborators) (SECRET : string) (now : Z)
        (j : MockQueue.job job_data) (d : db) (token : string) :
  let jd := MockQueue.data j in
  let run := processJob cfg ext SECRET now j d in
  List.In token (links (trace_of run)) ->
  (exists st,
      invoice_settings d = Some st
      /\ token = UrlSigning.generateSignedUrl SECRET now
                   (JS.JStr (pdf_path (invoiceId jd))) (expiry_days st))
  /\ JS.parseInt (JS.JStr (pdf_path (invoiceId jd))) = None
  /\ forall (t routeId : Z) (files : db),
      UrlSigning.verifySignedUrl SECRET t token (JS.JNum routeId) = false
      /\ get_pdf SECRET t routeId (Some token) files = Forbidden.
Proof.
  cbn zeta. intros Hin.
  assert (Hm : exists st,
             invoice_settings d = Some st
             /\ token = worker_token SECRET now (invoiceId (MockQueue.data j)) st).
  { revert Hin. run_cases;
      cbn [links links_of List.flat_map app opt_list ep_invoiceUrl
           sp_invoiceUrl signed_url file_record email_params_of
           sms_params_of snd fst no_artifact List.In];
      intros Hin;
      repeat match goal with
        | H : _ \/ _ |- _ => destruct H as [H|H]
        | H : False |- _ => destruct H
        end;
      subst; eexists; split; reflexivity. }
  destruct Hm as (st & Hs & ->).
  split; [exists st; split; [exact Hs | reflexivity]|].
  split.
  - unfold JS.parseInt. cbn [JS.toString].
    destruct (pdf_path_slash (invoiceId (MockQueue.data j))) as (r & -> & _).
    apply parseInt_slash.
  - intros t routeId files.
    pose proof (worker_token_rejected SECRET now (invoiceId (MockQueue.data j))
                  st t (JS.JNum routeId)) as V.
    split; [exact V|].
    unfold get_pdf. cbn [JS.slotToString]. rewrite V.
    rewrite orb_true_r. reflexivity.
Qed.

(** An instance: the link in the email of the sample job. *)
Lemma worker_links_fail_verification_witness :
  UrlSigning.verifySignedUrl UrlSigning.DEFAULT_SECRET (Sample.now0 + 1)
    (worker_token UrlSigning.DEFAULT_SECRET Sample.now0 5 Sample.st)
    (JS.JNum 5) = false.
Proof.
  assert (Hin : List.In
                  (worker_token UrlSigning.DEFAULT_SECRET Sample.now0 5 Sample.st)
                  (links (trace_of (Sample.run Sample.cfg Sample.ext Sample.db0))))
    by (vm_compute; left; reflexivity).
  destruct (worker_links_fail_verification
              Sample.cfg Sample.ext UrlSigning.DEFAULT_SECRET Sample.now0
              Sample.job0 Sample.db0 _ Hin) as (_ & _ & H).
  exact (proj1 (H (Sample.now0 + 1) 5 Sample.db0)).
Defined.

(** *** The resend route *)

Lemma fold_newer (l : list send_log) (b : send_log) :
  exists r,
    List.fold_left newer l (Some b) = Some r
    /\ (r = b \/ List.In r l)
    /\ log_created_at b <= log_created_at r
    /\ forall x, List.In x l -> log_created_at x <= log_created_at r.
Proof.
  revert b. induction l as [|x l IH]; intros b.
  - exists b. cbn. repeat split; [left; reflexivity | lia | intros x []].
  - cbn [List.fold_left newer].
    destruct (log_created_at b <? log_created_at x) eqn:E.
    + apply Z.ltb_lt in E.
      destruct (IH x) as (r & Hr & Hin & Hle & Hall).
      exists r. split; [exact Hr|]. split.
      * right. destruct Hin as [->|Hin]; [left; reflexivity | right; exact Hin].
      * split; [lia|]. intros y [<-|Hy]; [exact Hle | apply Hall, Hy].
    + apply Z.ltb_ge in E.
      destruct (IH b) as (r & Hr & Hin & Hle & Hall).
      exists r. split; [exact Hr|]. split.
      * destruct Hin as [->|Hin]; [left; reflexivity | right; right; exact Hin].
      * split; [lia|]. intros y [<-|Hy]; [lia | apply Hall, Hy].
Qed.

Lemma select_recent_email_send_some (now_s invoice : Z) (d : db)
      (row0 : send_log) :
  List.In row0 (send_logs d) ->
  is_recent_email_send now_s invoice row0 = true ->
  exists row,
    select_recent_email_send now_s invoice d = Some row
    /\ List.In row (send_logs d)
    /\ is_recent_email_send now_s invoice row = true
    /\ forall r, List.In r (send_logs d) ->
                 is_recent_email_send now_s invoice r = true ->
                 log_created_at r <= log_created_at row.
Proof.
  intros Hin Hrec. unfold select_recent_email_send.
  assert (Hf : List.In row0
                 (List.filter (is_recent_email_send now_s invoice) (send_logs d)))
    by (apply List.filter_In; split; assumption).
  destruct (List.filter (is_recent_email_send now_s invoice) (send_logs d))
    as [|x l] eqn:E; [destruct Hf|].
  cbn [List.fold_left newer].
  destruct (fold_newer l x) as (r & Hr & Hrin & Hle & Hall).
  assert (Hr' : List.In r (x :: l))
    by (destruct Hrin as [->|H]; [left; reflexivity | right; exact H]).
  rewrite <- E in Hr'. apply List.filter_In in Hr' as [R1 R2].
  exists r. repeat split; try assumption.
  intros y Hy Hyrec.
  assert (Hy' : List.In y (x :: l))
    by (rewrite <- E; apply List.filter_In; split; assumption).
  destruct Hy' as [<-|Hy']; [exact Hle | apply Hall, Hy'].
Qed.

Lemma recent_email_send_fields (now_s invoice : Z) (r : send_log) :
  is_recent_email_send now_s invoice r = true
  <-> log_invoice_id r = invoice
      /\ log_send_type r = Email
      /\ (log_status_of r = LogSent \/ log_status_of r = LogDelivered)
      /\ now_s - 3600 < log_created_at r.
Proof.
  unfold is_recent_email_send. split.
  - intros H.
    apply andb_true_iff in H as [H Ht]. apply Z.ltb_lt in Ht.
    apply andb_true_iff in H as [H Hs].
    apply andb_true_iff in H as [Hi Hy]. apply Z.eqb_eq in Hi.
    split; [exact Hi|]. split.
    + destruct (log_send_type r); [reflexivity|discriminate Hy].
    + split; [|exact Ht].
      destruct (log_status_of r); try discriminate Hs;
        [left|right]; reflexivity.
  - intros (Hi & Hy & Hs & Ht).
    rewrite Hi, Hy, Z.eqb_refl.
    replace (now_s - 3600 <? log_created_at r) with true
      by (symmetry; apply Z.ltb_lt; exact Ht).
    destruct Hs as [-> | ->]; reflexivity.
Qed.

(** C7.  When the invoice has an email row with status 'sent' or
    'delivered' created within the last hour, the resend route answers
    with the success response that reports such a row: a row of the send
    log whose invoice is the one asked for, whose channel is email, whose
    status is 'sent' or 'delivered', created within the last hour, and
    the most recent of the rows of that kind.  The route adds no job to
    the queue, so nothing runs and the database, the send log included,
    stays as it was. *)
Theorem resend_is_idempotent
        (now : Z) (queue : MockQueue.queue job_data job_result)
        (invoice : Z) (user : option string) (d : db) (row0 : send_log) :
  List.In row0 (send_logs d) ->
  log_invoice_id row0 = invoice ->
  log_send_type row0 = Email ->
  (log_status_of row0 = LogSent \/ log_status_of row0 = LogDelivered) ->
  now / 1000 - 3600 < log_created_at row0 ->
  exists row,
    post_send now queue invoice user d = (inl (AlreadySent row), d, [])
    /\ List.In row (send_logs d)
    /\ log_invoice_id row = invoice
    /\ log_send_type row = Email
    /\ (log_status_of row = LogSent \/ log_status_of row = LogDelivered)
    /\ now / 1000 - 3600 < log_created_at row
    /\ log_created_at row0 <= log_created_at row
    /\ (forall r, List.In r (send_logs d) ->
                  log_invoice_id r = invoice ->
                  log_send_type r = Email ->
                  (log_status_of r = LogSent \/ log_status_of r = LogDelivered) ->
                  now / 1000 - 3600 < log_created_at r ->
                  log_created_at r <= log_created_at row)
    /\ is_recent_email_send (now / 1000) invoice row = true
    /\ (forall r, List.In r (send_logs d) ->
                  is_recent_email_send (now / 1000) invoice r = true ->
                  log_created_at r <= log_created_at row)
    /\ send_logs (db_of (post_send now queue invoice user d)) = send_logs d
    /\ trace_of (post_send now queue invoice user d) = [].
Proof.
  intros Hin Hid Hty Hst Hti.
  assert (Hrec : is_recent_email_send (now / 1000) invoice row0 = true)
    by (apply recent_email_send_fields; repeat split; assumption).
  destruct (select_recent_email_send_some _ _ _ _ Hin Hrec)
    as (row & Hsel & Hrin & Hrrec & Hmax).
  exists row.
  assert (E : post_send now queue invoice user d = (inl (AlreadySent row), d, [])).
  { unfold post_send, try_catch, bind, read. rewrite Hsel. reflexivity. }
  rewrite E.
  destruct (proj1 (recent_email_send_fields _ _ _) Hrrec)
    as (Fi & Fy & Fs & Ft).
  split; [reflexivity|]. split; [exact Hrin|].
  split; [exact Fi|]. split; [exact Fy|]. split; [exact Fs|].
  split; [exact Ft|].
  split; [exact (Hmax row0 Hin Hrec)|].
  split.
  { intros r Hr Ri Ry Rs Rt. apply Hmax; [exact Hr|].
    apply recent_email_send_fields. repeat split; assumption. }
  split; [exact Hrrec|]. split; [exact Hmax|].
  split; reflexivity.
Qed.

(** An instance: the email of invoice 5 was sent ten minutes ago. *)
Lemma resend_is_idempotent_witness :
  let sent :=
    set_sent_email 1699999400 (Some "sg-1") None
      (sending_row 1 1699999400 5 Email (Some "ann@example.com")
                   (Some "sendgrid") (Some "manual") (Some "manual")) in
  let d := with_logs Sample.db0 [sent] 1 in
  let queue := invoiceQueue Sample.cfg Sample.ext UrlSigning.DEFAULT_SECRET
                            Sample.now0 in
  post_send Sample.now0 queue 5 None d = (inl (AlreadySent sent), d, []).
Proof.
  cbn zeta.
  destruct (resend_is_idempotent Sample.now0
              (invoiceQueue Sample.cfg Sample.ext UrlSigning.DEFAULT_SECRET
                            Sample.now0)
              5 None
              (with_logs Sample.db0
                 [set_sent_email 1699999400 (Some "sg-1") None
                    (sending_row 1 1699999400 5 Email (Some "ann@example.com")
                                 (Some "sendgrid") (Some "manual")
                                 (Some "manual"))] 1)
              (set_sent_email 1699999400 (Some "sg-1") None
                 (sending_row 1 1699999400 5 Email (Some "ann@example.com")
                              (Some "sendgrid") (Some "manual") (Some "manual")))
              (or_introl eq_refl) eq_refl eq_refl (or_introl eq_refl)
              ltac:(vm_compute; reflexivity))
    as (row & E & [<-|[]] & _).
  exact E.
Defined.

(** The route called twice, ten minutes apart, on the sample
    installation: the first call runs the job, the second one reports the
    row of the first and changes nothing. *)
Example resend_twice :
  let queue := invoiceQueue Sample.cfg Sample.ext UrlSigning.DEFAULT_SECRET
                            Sample.now0 in
  let first := post_send Sample.now0 queue 5 None Sample.db0 in
  let second := post_send (Sample.now0 + 600000) queue 5 None (db_of first) in
  outcome_of first = inl (QueuedForSending "1700000000000")
  /\ List.map (fun r => (log_id r, log_send_type r, log_status_of r))
              (send_logs (db_of first))
     = [(1, Email, LogSent); (2, Sms, LogFailed)]
  /\ (exists row,
         outcome_of second = inl (AlreadySent row)
         /\ log_id row = 1
         /\ log_invoice_id row = 5
         /\ log_send_type row = Email
         /\ log_status_of row = LogSent
         /\ log_created_at row = 1700000000)
  /\ db_of second = db_of first
  /\ trace_of second = [].
Proof.
  cbn zeta. split; [vm_compute; reflexivity|].
  split; [vm_compute; reflexivity|].
  split; [eexists; split; [vm_compute; reflexivity|];
          repeat split; vm_compute; reflexivity|].
  split; vm_compute; reflexivity.
Qed.

(** *** The queue *)

(** C8, as amended.  Without a registered handler, [add] returns at once
    with a job identifier and does nothing else: the job is not run, and
    as the queue keeps nothing but its name and its handler, it is neither
    stored nor retried when a handler is registered later.  With a
    registered handler, [add] runs the handler inline, to completion,
    before it returns: when the handler returns, [add] returns the
    identifier with the handler's result as job metadata; when the handler
    throws, [add] throws the same error and returns no job. *)
Theorem mock_queue_add
        (Data Res : Type) (now : Z) (q : MockQueue.queue Data Res)
        (jobName : string) (payload : Data) (d : db) :
  let jobId := JS.numToString now in
  (MockQueue.processor q = None ->
   MockQueue.add now q jobName payload d
   = (inl (MockQueue.Added jobId payload None), d, [])
   /\ forall name' concurrency f,
       MockQueue.process q name' concurrency f
       = MockQueue.Queue (MockQueue.name q) (Some f))
  /\ (forall p,
        MockQueue.processor q = Some p ->
        MockQueue.add now q jobName payload d
        = match p (MockQueue.Job jobId payload) d with
          | (inl r, d', t) =>
              (inl (MockQueue.Added jobId payload (Some r)), d', t)
          | (inr e, d', t) => (inr e, d', t)
          end).
Proof.
  cbn zeta. split.
  - intros Hn. unfold MockQueue.add. rewrite Hn. split; reflexivity.
  - intros p Hp. unfold MockQueue.add. rewrite Hp.
    unfold try_catch, bind, ret, throw. cbn zeta.
    destruct (p _ d) as [[[r|e] d'] t]; cbn [MockQueue.id app];
      rewrite ?List.app_nil_r; reflexivity.
Qed.

(** An instance: a queue without handler, then the worker's queue. *)
Lemma mock_queue_add_witness :
  MockQueue.add Sample.now0
    (MockQueue.create (Data := job_data) (Res := job_result)
                      "invoice-notifications")
    "send-invoice" (MockQueue.data Sample.job0) Sample.db0
  = (inl (MockQueue.Added "1700000000000" (MockQueue.data Sample.job0) None),
     Sample.db0, []).
Proof.
  exact (proj1 (proj1 (mock_queue_add job_data job_result Sample.now0
                         (MockQueue.create "invoice-notifications")
                         "send-invoice" (MockQueue.data Sample.job0)
                         Sample.db0)
                      eq_refl)).
Defined.

(** C8, as stated, fails with a registered handler: [add] runs the whole
    job before it returns, and when the job throws (here no email
    provider is configured) [add] throws as well instead of returning a
    job identifier. *)
Lemma mock_queue_add_counterexample :
  let queue := invoiceQueue Sample.cfg_bare Sample.ext
                            UrlSigning.DEFAULT_SECRET Sample.now0 in
  let added := MockQueue.add Sample.now0 queue "send-invoice"
                             (MockQueue.data Sample.job0) Sample.db0 in
  outcome_of added
  = inr (JsError "Email provider not configured: sendgrid" None)
  /\ progress_values (trace_of added) = [10; 25; 40]
  /\ invoices (db_of added) !! 5
     = Some (set_send_status SendFailed Sample.row1001).
Proof. vm_compute. repeat split; reflexivity. Qed.

End RouteProperties.

(* ===================================================================== *)
(** * Further properties of the code                                       *)
(* ===================================================================== *)

(** ** [verifySignedUrl] beyond the round trip *)

Module TokenFacts.
Import JS Charset JSFacts BufferFacts CryptoFacts UrlSigning UrlSigningFacts.

Lemma minted_verify (SECRET : string) (now id d t : Z) (v : jsval) :
  verifySignedUrl SECRET t (generateSignedUrl SECRET now (JNum id) d) v
  = negb (num_strict_neq (Some id) (parseInt v))
    && negb (now + d * MS_PER_DAY <? t).
Proof.
  pose proof (minted_fields SECRET now id d) as F. cbn zeta in F.
  rewrite (verifySignedUrl_fields _ _ _ _ _ _ _ F).
  cbn [slotToString signature_matches num_gt].
  rewrite !parseInt_numToString, String.eqb_refl, andb_true_r.
  replace (d * 24 * 60 * 60 * 1000) with (d * MS_PER_DAY)
    by (unfold MS_PER_DAY; lia).
  reflexivity.
Qed.

(** X1.  A token minted for an integer id is accepted for a value [v]
    exactly when [parseInt(v)] is that id and the expiry has not passed:
    a string such as [5abc] passes for id 5. *)
Theorem minted_token_accepted_iff
        (SECRET : string) (now id d t : Z) (v : jsval) :
  safe_int id -> safe_int (now + d * MS_PER_DAY) ->
  verifySignedUrl SECRET t (generateSignedUrl SECRET now (JNum id) d) v = true
  <-> parseInt v = Some id /\ t <= now + d * MS_PER_DAY.
Proof.
  intros _ _. rewrite minted_verify. split.
  - intros H. apply andb_true_iff in H as [H1 H2].
    apply negb_true_iff in H1. apply negb_true_iff, Z.ltb_ge in H2.
    split; [|exact H2].
    destruct (parseInt v) as [x|]; [|discriminate H1].
    cbn [num_strict_neq] in H1. apply negb_false_iff, Z.eqb_eq in H1.
    congruence.
  - intros [H1 H2]. rewrite H1. cbn [num_strict_neq].
    rewrite Z.eqb_refl. cbn [negb andb].
    apply negb_true_iff, Z.ltb_ge. exact H2.
Qed.

(** An instance: the text [5abc] against a token for invoice 5. *)
Lemma minted_token_accepted_iff_witness :
  verifySignedUrl DEFAULT_SECRET 1700000000001
    (generateSignedUrl DEFAULT_SECRET 1700000000000 (JNum 5) 7) (JStr "5abc")
  = true.
Proof.
  apply (minted_token_accepted_iff DEFAULT_SECRET 1700000000000 5 7
           1700000000001 (JStr "5abc"));
    [unfold safe_int; lia | unfold safe_int, MS_PER_DAY; lia |].
  split; [vm_compute; reflexivity | unfold MS_PER_DAY; lia].
Defined.

(** X2.  A token whose decoded text has fewer than three fields separated
    by colons is rejected, whatever the id and the instant. *)
Theorem short_token_rejected
        (SECRET : string) (t : Z) (token : string) (v : jsval) :
  (List.length (split_colon (Buffer.fromBase64 token)) < 3)%nat ->
  verifySignedUrl SECRET t token v = false.
Proof.
  intros Hlen.
  assert (Hsig : List.nth_error (split_colon (Buffer.fromBase64 token)) 2 = None)
    by (apply List.nth_error_None; lia).
  rewrite (verifySignedUrl_fields SECRET t token v
             (List.hd EmptyString (split_colon (Buffer.fromBase64 token)))
             (List.nth_error (split_colon (Buffer.fromBase64 token)) 1) None).
  - cbn [signature_matches]. apply andb_false_r.
  - unfold token_fields. rewrite Hsig. reflexivity.
Qed.

(** An instance: the token that decodes to [5:1700604800000]. *)
Lemma short_token_rejected_witness :
  verifySignedUrl DEFAULT_SECRET 0 (Buffer.toBase64 "5:1700604800000") (JNum 5)
  = false.
Proof.
  apply short_token_rejected. vm_compute. lia.
Defined.

Lemma minted_text (SECRET : string) (now id d : Z) :
  exists signature,
    let text :=
      token_text (numToString id)
                 (numToString (now + d * 24 * 60 * 60 * 1000)) signature in
    Buffer.fromBase64 (generateSignedUrl SECRET now (JNum id) d) = text
    /\ all_codes is_seven_bit text = true
    /\ all_codes not_colon signature = true.
Proof.
  eexists. cbn zeta.
  rewrite generateSignedUrl_text. cbn zeta. cbn [toString].
  match goal with
  | |- Buffer.fromBase64 (Buffer.toBase64 ?x) = _ /\ _ =>
      assert (H7 : all_codes is_seven_bit x = true)
  end.
  { apply token_text_seven_bit;
      [apply numToString_seven_bit | apply numToString_seven_bit
      | apply hmacHex_seven_bit]. }
  split; [apply fromBase64_toBase64; exact H7|].
  split; [exact H7 | apply hmacHex_not_colon].
Qed.

Lemma token_text_extended (a b c j : string) :
  (token_text a b c ++ ":" ++ j)%string
  = (a ++ String ":" (b ++ String ":" (c ++ String ":" j)))%string.
Proof.
  unfold token_text.
  rewrite append_assoc, append_cons, append_assoc, append_cons.
  reflexivity.
Qed.

(** X3.  Only the first three fields are read: when [:junk] is appended
    to the decoded text of a minted token and the result is encoded
    again, the new token is accepted exactly when the minted one is. *)
Theorem trailing_fields_ignored
        (SECRET : string) (now id d t : Z) (v : jsval) (junk : string) :
  all_codes is_seven_bit junk = true ->
  let minted := generateSignedUrl SECRET now (JNum id) d in
  verifySignedUrl SECRET t
    (Buffer.toBase64 (Buffer.fromBase64 minted ++ ":" ++ junk)%string) v
  = verifySignedUrl SECRET t minted v.
Proof.
  intros Hj. cbn zeta.
  destruct (minted_text SECRET now id d) as (sg & Htext & H7 & Hc).
  cbn zeta in *.
  assert (F : token_fields (generateSignedUrl SECRET now (JNum id) d)
              = (numToString id,
                 Some (numToString (now + d * 24 * 60 * 60 * 1000)), Some sg)).
  { unfold token_fields. rewrite Htext. unfold token_text.
    rewrite split_colon_app by apply numToString_not_colon.
    rewrite split_colon_app by apply numToString_not_colon.
    rewrite split_colon_single by exact Hc. reflexivity. }
  rewrite Htext.
  rewrite (verifySignedUrl_fields _ _ _ _ _ _ _ F).
  apply verifySignedUrl_fields.
  unfold token_fields. rewrite fromBase64_toBase64.
  - rewrite token_text_extended.
    rewrite split_colon_app by apply numToString_not_colon.
    rewrite split_colon_app by apply numToString_not_colon.
    rewrite split_colon_app by exact Hc.
    reflexivity.
  - rewrite all_codes_app, H7. cbn [andb].
    change (":" ++ junk)%string with (String ":" junk).
    cbn [all_codes]. rewrite Hj. reflexivity.
Qed.

(** An instance: a minted token with [:x:y] appended. *)
Lemma trailing_fields_ignored_witness :
  let minted := generateSignedUrl DEFAULT_SECRET 1700000000000 (JNum 5) 7 in
  verifySignedUrl DEFAULT_SECRET 1700000000001
    (Buffer.toBase64 (Buffer.fromBase64 minted ++ ":" ++ "x:y")%string) (JNum 5)
  = verifySignedUrl DEFAULT_SECRET 1700000000001 minted (JNum 5).
Proof.
  exact (trailing_fields_ignored DEFAULT_SECRET 1700000000000 5 7
           1700000000001 (JNum 5) "x:y" eq_refl).
Defined.

(** X4.  Acceptance is monotone in time: a token accepted at some instant
    is accepted at every earlier instant. *)
Theorem accepted_earlier
        (SECRET : string) (t t' : Z) (token : string) (v : jsval) :
  t' <= t ->
  verifySignedUrl SECRET t token v = true ->
  verifySignedUrl SECRET t' token v = true.
Proof.
  intros Hle.
  destruct (token_fields token) as [[i e] s] eqn:F.
  rewrite !(verifySignedUrl_fields _ _ _ _ _ _ _ F).
  intros H. apply andb_true_iff in H as [H Hs].
  apply andb_true_iff in H as [Hi Ht].
  rewrite Hi, Hs, andb_true_r. cbn [andb].
  destruct (parseInt_string (slotToString e)) as [x|]; [|reflexivity].
  cbn [num_gt] in *. apply negb_true_iff, Z.ltb_ge in Ht.
  apply negb_true_iff, Z.ltb_ge. lia.
Qed.

(** An instance: at the mint instant and one millisecond later. *)
Lemma accepted_earlier_witness :
  verifySignedUrl DEFAULT_SECRET 1700000000000
    (generateSignedUrl DEFAULT_SECRET 1700000000000 (JNum 5) 7) (JNum 5) = true.
Proof.
  apply (accepted_earlier DEFAULT_SECRET 1700000000001 1700000000000);
    [lia | vm_compute; reflexivity].
Defined.

(** X5.  A token determines what it was minted for: two tokens minted
    with the same secret for integer ids are equal only if the ids and
    the expiry instants are equal. *)
Theorem minted_token_injective
        (SECRET : string) (now id d now' id' d' : Z) :
  generateSignedUrl SECRET now (JNum id) d
  = generateSignedUrl SECRET now' (JNum id') d' ->
  id = id' /\ now + d * MS_PER_DAY = now' + d' * MS_PER_DAY.
Proof.
  intros E. apply (f_equal token_fields) in E.
  pose proof (minted_fields SECRET now id d) as F.
  pose proof (minted_fields SECRET now' id' d') as F'.
  cbn zeta in F, F'. rewrite F, F' in E.
  injection E as Ei Ee _.
  apply (f_equal parseInt_string) in Ei, Ee.
  rewrite !parseInt_numToString in Ei, Ee.
  injection Ei as Ei. injection Ee as Ee.
  split; [exact Ei | unfold MS_PER_DAY; lia].
Qed.

(** An instance: seven days from now and six days from tomorrow. *)
Lemma minted_token_injective_witness :
  1700000000000 + 7 * MS_PER_DAY = 1700086400000 + 6 * MS_PER_DAY.
Proof.
  apply (minted_token_injective DEFAULT_SECRET 1700000000000 5 7
           1700086400000 5 6).
  vm_compute. reflexivity.
Defined.

End TokenFacts.

(** ** The alphabet of a token *)

Module TokenAlphabet.
Import JS Buffer Charset JSFacts BufferFacts CryptoFacts UrlSigning
       UrlSigningFacts Vocabulary.

Lemma token_code_listed (n : Z) :
  is_token_code n = true -> List.In n token_codes.
Proof.
  unfold is_token_code, is_numeral, is_hex, is_digit, token_codes.
  intros H.
  assert (R : n = 45 \/ 48 <= n <= 58 \/ 97 <= n <= 102).
  { repeat match type of H with
           | (_ || _) = true => apply orb_true_iff in H as [H|H]
           | (_ && _) = true =>
               let A := fresh in let B := fresh in
               apply andb_true_iff in H as [A B];
               apply Z.leb_le in A; apply Z.leb_le in B
           | (_ =? _) = true => apply Z.eqb_eq in H
           end; lia. }
  cbn [List.In]. lia.
Qed.

Lemma groups_checked :
  List.forallb
    (fun a =>
       all_codes is_query_safe (b64_encode [a])
       && List.forallb
            (fun b =>
               all_codes is_query_safe (b64_encode [a; b])
               && List.forallb
                    (fun c => all_codes is_query_safe (b64_encode [a; b; c]))
                    token_codes)
            token_codes)
    token_codes = true.
Proof. vm_compute. reflexivity. Qed.

Lemma group_safe (a b c : Z) :
  is_token_code a = true -> is_token_code b = true -> is_token_code c = true ->
  all_codes is_query_safe (b64_encode [a]) = true
  /\ all_codes is_query_safe (b64_encode [a; b]) = true
  /\ all_codes is_query_safe (b64_encode [a; b; c]) = true.
Proof.
  intros Ha Hb Hc.
  apply token_code_listed in Ha, Hb, Hc.
  pose proof groups_checked as G.
  rewrite List.forallb_forall in G. specialize (G a Ha).
  apply andb_true_iff in G as [G1 G].
  rewrite List.forallb_forall in G. specialize (G b Hb).
  apply andb_true_iff in G as [G2 G].
  rewrite List.forallb_forall in G. specialize (G c Hc).
  repeat split; assumption.
Qed.

Lemma encode_safe (bs : list Z) :
  Forall (fun b => is_token_code b = true) bs ->
  all_codes is_query_safe (b64_encode bs) = true.
Proof.
  induction bs as [|a|a b|a b c l IH] using list_ind3; intros H.
  - reflexivity.
  - apply List.Forall_cons_iff in H as [Ha _].
    exact (proj1 (group_safe a a a Ha Ha Ha)).
  - apply List.Forall_cons_iff in H as [Ha H].
    apply List.Forall_cons_iff in H as [Hb _].
    exact (proj1 (proj2 (group_safe a b b Ha Hb Hb))).
  - apply List.Forall_cons_iff in H as [Ha H].
    apply List.Forall_cons_iff in H as [Hb H].
    apply List.Forall_cons_iff in H as [Hc H].
    pose proof (proj2 (proj2 (group_safe a b c Ha Hb Hc))) as G.
    cbn [b64_encode all_codes] in G |- *.
    rewrite (IH H).
    repeat match type of G with
           | (_ && _) = true =>
               let A := fresh in apply andb_true_iff in G as [A G]; rewrite A
           end.
    reflexivity.
Qed.

Lemma bytes_of_token_text (s : string) :
  all_codes is_token_code s = true ->
  Forall (fun b => is_token_code b = true) (bytes_of_string s).
Proof.
  induction s as [|c s IH]; intros H; [constructor|].
  cbn [all_codes] in H. apply andb_true_iff in H as [Hc Hs].
  unfold bytes_of_string. cbn [list_ascii_of_string List.map].
  constructor; [exact Hc | apply IH, Hs].
Qed.

Lemma numeral_token (n : Z) : is_numeral n = true -> is_token_code n = true.
Proof. unfold is_token_code. intros ->. reflexivity. Qed.

Lemma hex_token (n : Z) : is_hex n = true -> is_token_code n = true.
Proof. unfold is_token_code. intros ->. apply orb_true_r. Qed.

(** X6.  A token minted for a number consists of letters, digits and the
    padding character [=] only: it never contains [+] or [/], so it can
    stand in a query string as it is. *)
Theorem minted_token_query_safe (SECRET : string) (now id days : Z) :
  all_codes is_query_safe (generateSignedUrl SECRET now (JNum id) days) = true.
Proof.
  rewrite generateSignedUrl_text. cbn zeta. cbn [toString].
  unfold toBase64. apply encode_safe, bytes_of_token_text.
  unfold token_text.
  rewrite all_codes_app. cbn [all_codes].
  rewrite all_codes_app. cbn [all_codes].
  rewrite (all_codes_weaken _ _ _ numeral_token (numToString_numeral id)).
  rewrite (all_codes_weaken _ _ _ numeral_token (numToString_numeral _)).
  rewrite (all_codes_weaken _ _ _ hex_token (hmacHex_is_hex _ _)).
  reflexivity.
Qed.

End TokenAlphabet.

(** ** Projections of the database after each stage *)

Module StateFacts.
Import Db Effect Worker Trace States Vocabulary.

Section Run.
Variable SECRET : string.
Variable now : Z.
Variable jd : job_data.
Variable st : settings.
Variable d : db.

Lemma invoices_marked (s : send_status) :
  invoices (marked jd s d)
  = alter (set_send_status s) (invoiceId jd) (invoices d).
Proof. reflexivity. Qed.

Lemma invoices_email_sent (r : send_result) (json : option string) :
  invoices (email_sent now jd st r json d)
  = alter (flag_email_sent (now_s now)) (invoiceId jd) (invoices d).
Proof. reflexivity. Qed.

Lemma invoices_sms_sent (r : send_result) :
  invoices (sms_sent now jd st r d)
  = alter (flag_sms_sent (now_s now)) (invoiceId jd) (invoices d).
Proof. reflexivity. Qed.

Lemma invoices_email_failed (e : thrown) :
  invoices (email_failed now jd st e d)
  = invoices d.
Proof. reflexivity. Qed.

Lemma invoices_sms_failed (e : thrown) :
  invoices (sms_failed now jd st e d)
  = invoices d.
Proof. reflexivity. Qed.

Lemma invoices_email_unflagged (r : send_result) (json : option string) :
  invoices (email_unflagged now jd st r json d)
  = invoices d.
Proof. reflexivity. Qed.

Lemma invoices_sms_unflagged (r : send_result) :
  invoices (sms_unflagged now jd st r d)
  = invoices d.
Proof. reflexivity. Qed.

Lemma invoices_stored (buf : string) (info : file_info) :
  invoices (stored SECRET now jd st buf info d)
  = invoices d.
Proof. reflexivity. Qed.

Lemma settings_marked (s : send_status) :
  invoice_settings (marked jd s d)
  = invoice_settings d.
Proof. reflexivity. Qed.

Lemma settings_email_sent (r : send_result) (json : option string) :
  invoice_settings (email_sent now jd st r json d)
  = invoice_settings d.
Proof. reflexivity. Qed.

Lemma settings_sms_sent (r : send_result) :
  invoice_settings (sms_sent now jd st r d)
  = invoice_settings d.
Proof. reflexivity. Qed.

Lemma settings_email_failed (e : thrown) :
  invoice_settings (email_failed now jd st e d)
  = invoice_settings d.
Proof. reflexivity. Qed.

Lemma settings_sms_failed (e : thrown) :
  invoice_settings (sms_failed now jd st e d)
  = invoice_settings d.
Proof. reflexivity. Qed.

Lemma settings_email_unflagged (r : send_result) (json : option string) :
  invoice_settings (email_unflagged now jd st r json d)
  = invoice_settings d.
Proof. reflexivity. Qed.

Lemma settings_sms_unflagged (r : send_result) :
  invoice_settings (sms_unflagged now jd st r d)
  = invoice_settings d.
Proof. reflexivity. Qed.

Lemma settings_stored (buf : string) (info : file_info) :
  invoice_settings (stored SECRET now jd st buf info d)
  = invoice_settings d.
Proof. reflexivity. Qed.

Lemma preferences_marked (s : send_status) :
  customer_preferences (marked jd s d)
  = customer_preferences d.
Proof. reflexivity. Qed.

Lemma preferences_email_sent (r : send_result) (json : option string) :
  customer_preferences (email_sent now jd st r json d)
  = customer_preferences d.
Proof. reflexivity. Qed.

Lemma preferences_sms_sent (r : send_result) :
  customer_preferences (sms_sent now jd st r d)
  = customer_preferences d.
Proof. reflexivity. Qed.

Lemma preferences_email_failed (e : thrown) :
  customer_preferences (email_failed now jd st e d)
  = customer_preferences d.
Proof. reflexivity. Qed.

Lemma preferences_sms_failed (e : thrown) :
  customer_preferences (sms_failed now jd st e d)
  = customer_preferences d.
Proof. reflexivity. Qed.

Lemma preferences_email_unflagged (r : send_result) (json : option string) :
  customer_preferences (email_unflagged now jd st r json d)
  = customer_preferences d.
Proof. reflexivity. Qed.

Lemma preferences_sms_unflagged (r : send_result) :
  customer_preferences (sms_unflagged now jd st r d)
  = customer_preferences d.
Proof. reflexivity. Qed.

Lemma preferences_stored (buf : string) (info : file_info) :
  customer_preferences (stored SECRET now jd st buf info d)
  = customer_preferences d.
Proof. reflexivity. Qed.

Lemma flag_columns_marked (s : send_status) :
  invoice_flag_columns (marked jd s d)
  = invoice_flag_columns d.
Proof. reflexivity. Qed.

Lemma flag_columns_email_sent (r : send_result) (json : option string) :
  invoice_flag_columns (email_sent now jd st r json d)
  = invoice_flag_columns d.
Proof. reflexivity. Qed.

Lemma flag_columns_sms_sent (r : send_result) :
  invoice_flag_columns (sms_sent now jd st r d)
  = invoice_flag_columns d.
Proof. reflexivity. Qed.

Lemma flag_columns_email_failed (e : thrown) :
  invoice_flag_columns (email_failed now jd st e d)
  = invoice_flag_columns d.
Proof. reflexivity. Qed.

Lemma flag_columns_sms_failed (e : thrown) :
  invoice_flag_columns (sms_failed now jd st e d)
  = invoice_flag_columns d.
Proof. reflexivity. Qed.

Lemma flag_columns_email_unflagged (r : send_result) (json : option string) :
  invoice_flag_columns (email_unflagged now jd st r json d)
  = invoice_flag_columns d.
Proof. reflexivity. Qed.

Lemma flag_columns_sms_unflagged (r : send_result) :
  invoice_flag_columns (sms_unflagged now jd st r d)
  = invoice_flag_columns d.
Proof. reflexivity. Qed.

Lemma flag_columns_stored (buf : string) (info : file_info) :
  invoice_flag_columns (stored SECRET now jd st buf info d)
  = invoice_flag_columns d.
Proof. reflexivity. Qed.

Lemma files_marked (s : send_status) :
  invoice_files (marked jd s d)
  = invoice_files d.
Proof. reflexivity. Qed.

Lemma files_email_sent (r : send_result) (json : option string) :
  invoice_files (email_sent now jd st r json d)
  = invoice_files d.
Proof. reflexivity. Qed.

Lemma files_sms_sent (r : send_result) :
  invoice_files (sms_sent now jd st r d)
  = invoice_files d.
Proof. reflexivity. Qed.

Lemma files_email_failed (e : thrown) :
  invoice_files (email_failed now jd st e d)
  = invoice_files d.
Proof. reflexivity. Qed.

Lemma files_sms_failed (e : thrown) :
  invoice_files (sms_failed now jd st e d)
  = invoice_files d.
Proof. reflexivity. Qed.

Lemma files_email_unflagged (r : send_result) (json : option string) :
  invoice_files (email_unflagged now jd st r json d)
  = invoice_files d.
Proof. reflexivity. Qed.

Lemma files_sms_unflagged (r : send_result) :
  invoice_files (sms_unflagged now jd st r d)
  = invoice_files d.
Proof. reflexivity. Qed.

Lemma files_stored (buf : string) (info : file_info) :
  invoice_files (stored SECRET now jd st buf info d)
  = invoice_files d
      ++ [file_record now (invoiceId jd) info
                      (worker_token SECRET now (invoiceId jd) st)].
Proof. reflexivity. Qed.

Lemma logs_marked (s : send_status) :
  send_logs (marked jd s d)
  = send_logs d.
Proof. reflexivity. Qed.

Lemma logs_stored (buf : string) (info : file_info) :
  send_logs (stored SECRET now jd st buf info d)
  = send_logs d.
Proof. reflexivity. Qed.

Lemma seq_marked (s : send_status) :
  send_logs_seq (marked jd s d)
  = send_logs_seq d.
Proof. reflexivity. Qed.

Lemma seq_email_sent (r : send_result) (json : option string) :
  send_logs_seq (email_sent now jd st r json d)
  = send_logs_seq d + 1.
Proof. reflexivity. Qed.

Lemma seq_sms_sent (r : send_result) :
  send_logs_seq (sms_sent now jd st r d)
  = send_logs_seq d + 1.
Proof. reflexivity. Qed.

Lemma seq_email_failed (e : thrown) :
  send_logs_seq (email_failed now jd st e d)
  = send_logs_seq d + 1.
Proof. reflexivity. Qed.

Lemma seq_sms_failed (e : thrown) :
  send_logs_seq (sms_failed now jd st e d)
  = send_logs_seq d + 1.
Proof. reflexivity. Qed.

Lemma seq_email_unflagged (r : send_result) (json : option string) :
  send_logs_seq (email_unflagged now jd st r json d)
  = send_logs_seq d + 1.
Proof. reflexivity. Qed.

Lemma seq_sms_unflagged (r : send_result) :
  send_logs_seq (sms_unflagged now jd st r d)
  = send_logs_seq d + 1.
Proof. reflexivity. Qed.

Lemma seq_stored (buf : string) (info : file_info) :
  send_logs_seq (stored SECRET now jd st buf info d)
  = send_logs_seq d.
Proof. reflexivity. Qed.

End Run.

End StateFacts.

Create Rewrite HintDb run_state.

#[export] Hint Rewrite
  StateFacts.invoices_marked StateFacts.invoices_email_sent
  StateFacts.invoices_sms_sent StateFacts.invoices_email_failed
  StateFacts.invoices_sms_failed StateFacts.invoices_email_unflagged
  StateFacts.invoices_sms_unflagged StateFacts.invoices_stored
  StateFacts.settings_marked StateFacts.settings_email_sent
  StateFacts.settings_sms_sent StateFacts.settings_email_failed
  StateFacts.settings_sms_failed StateFacts.settings_email_unflagged
  StateFacts.settings_sms_unflagged StateFacts.settings_stored
  StateFacts.preferences_marked StateFacts.preferences_email_sent
  StateFacts.preferences_sms_sent StateFacts.preferences_email_failed
  StateFacts.preferences_sms_failed StateFacts.preferences_email_unflagged
  StateFacts.preferences_sms_unflagged StateFacts.preferences_stored
  StateFacts.flag_columns_marked StateFacts.flag_columns_email_sent
  StateFacts.flag_columns_sms_sent StateFacts.flag_columns_email_failed
  StateFacts.flag_columns_sms_failed StateFacts.flag_columns_email_unflagged
  StateFacts.flag_columns_sms_unflagged StateFacts.flag_columns_stored
  StateFacts.files_marked StateFacts.files_email_sent
  StateFacts.files_sms_sent StateFacts.files_email_failed
  StateFacts.files_sms_failed StateFacts.files_email_unflagged
  StateFacts.files_sms_unflagged StateFacts.files_stored
  StateFacts.logs_marked StateFacts.logs_stored StateFacts.seq_marked
  StateFacts.seq_email_sent StateFacts.seq_sms_sent
  StateFacts.seq_email_failed StateFacts.seq_sms_failed
  StateFacts.seq_email_unflagged StateFacts.seq_sms_unflagged
  StateFacts.seq_stored
  : run_state.

(** Case analysis of one run: the run is named first, so that the cases
    are split once. *)
Ltac name_run cfg ext SECRET now j d :=
  let run := fresh "run" in
  let E := fresh "E" in
  remember (Worker.processJob cfg ext SECRET now j d) as run eqn:E;
  revert E; run_cases; intros ->;
  cbn [Effect.outcome_of Effect.db_of Effect.trace_of fst snd];
  autorewrite with run_state.

(** ** A run of the job, in general *)

Module JobFacts.
Import Db Effect Worker Trace States WorkerFacts Vocabulary.

(** *** The ledger under one stage *)

Section Ledger.
Variable cfg : config.
Variable ext : collaborators.
Variable SECRET : string.
Variable now : Z.

(** An update of the row that was just inserted. *)
Lemma update_fresh_row (f : send_log -> send_log) (d dd : db)
      (row : send_log) :
  ids_below_seq d ->
  send_logs dd = send_logs d ++ [row] ->
  log_id row = send_logs_seq d + 1 ->
  send_logs (update_logs_where (send_logs_seq d + 1) f dd)
  = send_logs d ++ [f row].
Proof.
  intros Hd Hl Hid. unfold update_logs_where, with_logs. cbn [send_logs].
  rewrite Hl, List.map_app, update_logs_fresh by exact Hd.
  cbn [List.map]. rewrite Hid, Z.eqb_refl. reflexivity.
Qed.

Section Rows.
Variable jd : job_data.
Variable st : settings.
Variable d : db.
Hypothesis Hd : ids_below_seq d.

Abbreviation email_row :=
  (sending_row (send_logs_seq d + 1) (now_s now) (invoiceId jd) Email
     (customerEmail (invoiceData jd)) (email_provider st)
     (triggeredBy jd) (triggerType jd)).

Abbreviation sms_row :=
  (sending_row (send_logs_seq d + 1) (now_s now) (invoiceId jd) Sms
     (customerPhone (invoiceData jd)) (sms_provider st)
     (triggeredBy jd) (triggerType jd)).

Lemma logs_email_failed (e : thrown) :
  send_logs (States.email_failed now jd st e d)
  = send_logs d
      ++ [set_failed_email (now_s now) (field_error e) (field_errorCode e)
                           email_row].
Proof.
  unfold States.email_failed.
  apply update_fresh_row; [exact Hd|reflexivity..].
Qed.

Lemma logs_email_marked_sent (r : send_result) (json : option string) :
  send_logs (States.email_marked_sent now jd st r json d)
  = send_logs d
      ++ [set_sent_email (now_s now) (sr_messageId r) json email_row].
Proof.
  unfold States.email_marked_sent.
  apply update_fresh_row; [exact Hd|reflexivity..].
Qed.

Lemma logs_email_sent (r : send_result) (json : option string) :
  send_logs (States.email_sent now jd st r json d)
  = send_logs d
      ++ [set_sent_email (now_s now) (sr_messageId r) json email_row].
Proof. exact (logs_email_marked_sent r json). Qed.

Lemma logs_email_unflagged (r : send_result) (json : option string) :
  send_logs (States.email_unflagged now jd st r json d)
  = send_logs d
      ++ [set_failed_email (now_s now) None None
            (set_sent_email (now_s now) (sr_messageId r) json email_row)].
Proof.
  unfold States.email_unflagged.
  apply update_fresh_row;
    [exact Hd | apply logs_email_marked_sent | reflexivity].
Qed.

Lemma logs_sms_failed (e : thrown) :
  send_logs (States.sms_failed now jd st e d)
  = send_logs d ++ [set_failed_sms (now_s now) (field_error e) sms_row].
Proof.
  unfold States.sms_failed.
  apply update_fresh_row; [exact Hd|reflexivity..].
Qed.

Lemma logs_sms_marked_sent (r : send_result) :
  send_logs (States.sms_marked_sent now jd st r d)
  = send_logs d ++ [set_sent_sms (now_s now) (sr_messageId r) sms_row].
Proof.
  unfold States.sms_marked_sent.
  apply update_fresh_row; [exact Hd|reflexivity..].
Qed.

Lemma logs_sms_sent (r : send_result) :
  send_logs (States.sms_sent now jd st r d)
  = send_logs d ++ [set_sent_sms (now_s now) (sr_messageId r) sms_row].
Proof. exact (logs_sms_marked_sent r). Qed.

Lemma logs_sms_unflagged (r : send_result) :
  send_logs (States.sms_unflagged now jd st r d)
  = send_logs d
      ++ [set_failed_sms (now_s now) None
            (set_sent_sms (now_s now) (sr_messageId r) sms_row)].
Proof.
  unfold States.sms_unflagged.
  apply update_fresh_row;
    [exact Hd | apply logs_sms_marked_sent | reflexivity].
Qed.

End Rows.

(** One settled row, with the next id, is appended. *)
Lemma appended_one (i : Z) (d d' : db) (row : send_log) :
  ids_below_seq d ->
  send_logs d' = send_logs d ++ [row] ->
  send_logs_seq d' = send_logs_seq d + 1 ->
  log_id row = send_logs_seq d + 1 ->
  log_invoice_id row = i ->
  settled row = true ->
  appended i d d' [row].
Proof.
  intros Hd Hl Hs Hid Hi Hst. unfold appended. rewrite Hl, Hs.
  split; [reflexivity|]. split.
  - constructor; [|constructor]. repeat split; [lia|lia|assumption|assumption].
  - split; [lia|]. unfold ids_below_seq. rewrite Hl, Hs.
    apply Forall_app. split.
    + eapply List.Forall_impl; [|exact Hd]. cbn beta. intros; lia.
    + constructor; [lia|constructor].
Qed.

Lemma appended_none (i : Z) (d d' : db) :
  ids_below_seq d ->
  send_logs d' = send_logs d ->
  send_logs_seq d' = send_logs_seq d ->
  appended i d d' [].
Proof.
  intros Hd Hl Hs. unfold appended, ids_below_seq.
  rewrite Hl, Hs, List.app_nil_r.
  repeat split; [constructor|lia|exact Hd].
Qed.

Lemma appended_trans (i : Z) (d d1 d2 : db) (l1 l2 : list send_log) :
  appended i d d1 l1 -> appended i d1 d2 l2 -> appended i d d2 (l1 ++ l2).
Proof.
  intros (E1 & F1 & S1 & B1) (E2 & F2 & S2 & B2). unfold appended.
  split; [rewrite E2, E1, List.app_assoc; reflexivity|].
  split; [|split; [lia|exact B2]].
  apply Forall_app. split.
  - eapply List.Forall_impl; [|exact F1]. cbn beta.
    intros r (A & B & C). repeat split; try assumption; lia.
  - eapply List.Forall_impl; [|exact F2]. cbn beta.
    intros r (A & B & C). repeat split; try assumption; lia.
Qed.

Lemma send_email_appends (jd : job_data) (st : settings)
      (prefs : option preferences) (a : artifact) (d : db) :
  ids_below_seq d ->
  exists new,
    appended (invoiceId jd) d
             (db_of (Worker.send_email cfg ext now jd st prefs a d)) new
    /\ (List.length new <= 1)%nat.
Proof.
  intros Hd. rewrite send_email_run.
  destruct (email_wanted jd st); cbn zeta;
    [|exists []; split; [|cbn; lia];
      apply appended_none; [exact Hd|reflexivity..]].
  destruct (EmailService.init cfg ext st) as [p|e];
    [destruct (EmailService.sendInvoiceEmail ext p _) as [r|e];
     [destruct (stringify ext (sr_response r)) as [json|e];
      [destruct (invoice_flag_columns d)|]|]|];
    cbn [db_of fst snd]; eexists [_]; (split; [|cbn; lia]);
    apply appended_one; try exact Hd;
    try (first [ apply logs_email_sent | apply logs_email_unflagged
               | apply logs_email_failed ]; exact Hd);
    reflexivity.
Qed.

Lemma send_sms_appends (jd : job_data) (st : settings)
      (prefs : option preferences) (a : artifact) (d : db) :
  ids_below_seq d ->
  exists new,
    appended (invoiceId jd) d
             (db_of (Worker.send_sms cfg ext now jd st prefs a d)) new
    /\ (List.length new <= 1)%nat.
Proof.
  intros Hd. rewrite send_sms_run.
  destruct (sms_wanted jd st prefs); cbn zeta;
    [|exists []; split; [|cbn; lia];
      apply appended_none; [exact Hd|reflexivity..]].
  destruct (SmsService.init cfg ext st) as [p|e];
    [destruct (SmsService.sendInvoiceSMS ext p _) as [r|e];
     [destruct (invoice_flag_columns d)|]|];
    cbn [db_of fst snd]; eexists [_]; (split; [|cbn; lia]);
    apply appended_one; try exact Hd;
    try (first [ apply logs_sms_sent | apply logs_sms_unflagged
               | apply logs_sms_failed ]; exact Hd);
    reflexivity.
Qed.

Lemma appended_marked (jd : job_data) (s : send_status) (d d' : db)
      (new : list send_log) :
  appended (invoiceId jd) d d' new ->
  appended (invoiceId jd) d (States.marked jd s d') new.
Proof. intros H. exact H. Qed.

End Ledger.

(** X7.  Whatever happens in a run, the ledger only grows: the rows that
    were there are left as they were, at most two rows are added, each
    with an id the sequence had not handed out and for the job's invoice,
    and none of them is left 'sending'. *)
Theorem ledger_append_only
        (cfg : config) (ext : collaborators) (SECRET : string) (now : Z)
        (j : MockQueue.job job_data) (d : db) :
  ids_below_seq d ->
  let d' := db_of (processJob cfg ext SECRET now j d) in
  exists new,
    send_logs d' = send_logs d ++ new
    /\ (List.length new <= 2)%nat
    /\ Forall (fun r => send_logs_seq d < log_id r <= send_logs_seq d'
                        /\ log_invoice_id r = invoiceId (MockQueue.data j)
                        /\ settled r = true) new
    /\ ids_below_seq d'.
Proof.
  intros Hd. cbn zeta.
  assert (exists new,
             appended (invoiceId (MockQueue.data j)) d
                      (db_of (processJob cfg ext SECRET now j d)) new
             /\ (List.length new <= 2)%nat) as (new & H & Hn).
  { rewrite processJob_run. cbn zeta.
    destruct (unsubscribed _).
    { exists []. split; [apply appended_none; [exact Hd|reflexivity..]|cbn; lia]. }
    destruct (Worker.generate_pdf ext SECRET now _ _ d) as [[r1 d1] t1] eqn:E1.
    destruct (generate_pdf_frame ext SECRET now _ _ _ _ _ _ E1)
      as (_ & L1 & S1 & _).
    assert (Hd1 : ids_below_seq d1)
      by (unfold ids_below_seq; rewrite L1, S1; exact Hd).
    assert (A1 : appended (invoiceId (MockQueue.data j)) d d1 [])
      by (apply appended_none; assumption).
    destruct r1 as [a|e].
    2:{ exists []. split; [exact A1|cbn; lia]. }
    destruct (invoice_settings d) as [st|].
    2:{ exists []. split; [exact A1|cbn; lia]. }
    destruct (send_email_appends cfg ext now (MockQueue.data j) st
                (loaded_preferences
                   (customerEmail (invoiceData (MockQueue.data j))) d) a d1 Hd1)
      as (l2 & A2 & N2).
    destruct (Worker.send_email cfg ext now _ st _ a d1) as [[r2 d2] t2].
    cbn [db_of fst snd] in A2.
    pose proof (appended_trans _ _ _ _ _ _ A1 A2) as A12.
    destruct r2 as [u|e].
    2:{ exists ([] ++ l2). split; [exact A12|cbn; lia]. }
    assert (Hd2 : ids_below_seq d2) by (apply A2).
    destruct (send_sms_appends cfg ext now (MockQueue.data j) st
                (loaded_preferences
                   (customerEmail (invoiceData (MockQueue.data j))) d) a d2 Hd2)
      as (l3 & A3 & N3).
    destruct (Worker.send_sms cfg ext now _ st _ a d2) as [[r3 d3] t3].
    cbn [db_of fst snd] in A3.
    pose proof (appended_trans _ _ _ _ _ _ A12 A3) as A123.
    exists (([] ++ l2) ++ l3).
    destruct r3 as [u'|e]; (split; [exact A123|]);
      rewrite List.length_app; cbn [app]; lia. }
  exists new. destruct H as (E & F & S & B).
  repeat split; assumption.
Qed.


(** An instance: the sample job on an empty ledger. *)
Lemma ledger_append_only_witness :
  exists new,
    send_logs (db_of (Sample.run Sample.cfg Sample.ext Sample.db0))
    = send_logs Sample.db0 ++ new
    /\ (List.length new <= 2)%nat.
Proof.
  pose proof (ledger_append_only Sample.cfg Sample.ext
                UrlSigning.DEFAULT_SECRET Sample.now0 Sample.job0 Sample.db0
                (List.Forall_nil _)) as H.
  cbn zeta in H. destruct H as (new & E & L & _).
  exists new. split; assumption.
Defined.

Ltac at_invoice d j :=
  rewrite ?lookup_alter_eq;
  destruct (invoices d !! invoiceId (MockQueue.data j)); reflexivity.

(** X8.  A run touches one invoice: every other invoice, the settings and
    the preferences are left as they were, and the data of the job's own
    invoice is not changed either. *)
Theorem job_touches_one_invoice
        (cfg : config) (ext : collaborators) (SECRET : string) (now : Z)
        (j : MockQueue.job job_data) (d : db) :
  let d' := db_of (processJob cfg ext SECRET now j d) in
  let id := invoiceId (MockQueue.data j) in
  (forall i, i <> id -> invoices d' !! i = invoices d !! i)
  /\ row_data <$> invoices d' !! id = row_data <$> invoices d !! id
  /\ invoice_settings d' = invoice_settings d
  /\ customer_preferences d' = customer_preferences d.
Proof.
  cbn zeta. name_run cfg ext SECRET now j d;
    (split; [intros i Hi;
             rewrite ?lookup_alter_ne
               by (intros E; apply Hi; symmetry; exact E);
             reflexivity|]);
    (split; [at_invoice d j|]); split; first [reflexivity | assumption].
Qed.

(** X9.  The outcome of a run and the status it writes agree.  A skipped
    job writes nothing at all.  A job that returns success writes 'sent'
    as its one and only status update; a job that throws writes 'failed'
    as its one and only status update.  The update touches the invoice
    only if it exists. *)
Theorem outcome_matches_status
        (cfg : config) (ext : collaborators) (SECRET : string) (now : Z)
        (j : MockQueue.job job_data) (d : db) :
  let run := processJob cfg ext SECRET now j d in
  let id := invoiceId (MockQueue.data j) in
  match outcome_of run with
  | inl (Skipped _) => db_of run = d /\ trace_of run = []
  | inl (Success i _) =>
      i = id
      /\ List.filter is_status (trace_of run) = [EvSendStatus id SendSent]
      /\ row_send_status <$> invoices (db_of run) !! id
         = (fun _ => SendSent) <$> invoices d !! id
  | inr _ =>
      List.filter is_status (trace_of run) = [EvSendStatus id SendFailed]
      /\ row_send_status <$> invoices (db_of run) !! id
         = (fun _ => SendFailed) <$> invoices d !! id
  end.
Proof.
  cbn zeta. name_run cfg ext SECRET now j d;
    first
      [ split; reflexivity
      | split; [reflexivity|at_invoice d j]
      | split; [reflexivity|split; [reflexivity|at_invoice d j]] ].
Qed.

(** X10.  Once migration 002 has added the flag columns, the flags
    [email_sent] and [sms_sent] of the invoice are set, with the time of
    the run, exactly when the run has set a ledger row of that channel to
    'sent'; a run never clears them.  On a database without those columns
    the flags are never written, and a run that has set the email row to
    'sent' goes on to fail: the update of the flag throws, the row is set
    to 'failed' after all, the job throws and the invoice is marked
    'failed'. *)
Theorem delivery_flags
        (cfg : config) (ext : collaborators) (SECRET : string) (now : Z)
        (j : MockQueue.job job_data) (d : db) :
  let run := processJob cfg ext SECRET now j d in
  let id := invoiceId (MockQueue.data j) in
  let email := logged_sent Email (trace_of run) in
  let sms := logged_sent Sms (trace_of run) in
  let flags := fun r => (row_email_sent r, row_email_sent_at r,
                         row_sms_sent r, row_sms_sent_at r) in
  (invoice_flag_columns d = true ->
   flags <$> invoices (db_of run) !! id
   = (fun r => (row_email_sent r || email,
                if email then Some (now_s now) else row_email_sent_at r,
                row_sms_sent r || sms,
                if sms then Some (now_s now) else row_sms_sent_at r))
       <$> invoices d !! id)
  /\ (invoice_flag_columns d = false ->
      flags <$> invoices (db_of run) !! id = flags <$> invoices d !! id
      /\ (email = true ->
          outcome_of run = inr (no_such_column "email_sent")
          /\ channel_phases Email (trace_of run)
             = [PhInsert (send_logs_seq d + 1); PhInit; PhDispatch;
                PhSent (send_logs_seq d + 1); PhFailed (send_logs_seq d + 1)]
          /\ row_send_status <$> invoices (db_of run) !! id
             = (fun _ => SendFailed) <$> invoices d !! id)).
Proof.
  cbn zeta. name_run cfg ext SECRET now j d;
    (split;
     [ intros Hf; try discriminate Hf;
       rewrite ?lookup_alter_eq;
       destruct (invoices d !! invoiceId (MockQueue.data j))
         as [[? ? [] ? [] ?]|]; reflexivity
     | intros Hf; try discriminate Hf;
       (split; [at_invoice d j|]);
       intros He; try discriminate He;
       (split; [reflexivity|]); (split; [reflexivity|]);
       at_invoice d j ]).
Qed.

(** What the same delivery leaves behind with and without the flag
    columns. *)
Example delivery_with_and_without_flags :
  let migrated := Sample.run Sample.cfg Sample.ext Sample.db0 in
  let fresh := Sample.run Sample.cfg Sample.ext Sample.db_fresh in
  outcome_of migrated = inl (Success 5 (Some "invoice-INV-1001.pdf"))
  /\ List.map (fun r => (log_send_type r, log_status_of r))
              (send_logs (db_of migrated))
     = [(Email, LogSent); (Sms, LogFailed)]
  /\ outcome_of fresh = inr (no_such_column "email_sent")
  /\ List.map (fun r => (log_send_type r, log_status_of r, log_sent_at r))
              (send_logs (db_of fresh))
     = [(Email, LogFailed, Some 1700000000)]
  /\ row_send_status <$> invoices (db_of fresh) !! 5 = Some SendFailed.
Proof. vm_compute. repeat split; reflexivity. Qed.

(** X11.  Without a settings row the job fails in a fixed way: PDF
    generation is given up silently, progress 10 and 40 are reported, and
    reading [settings.email_enabled] throws the TypeError that names that
    property; the invoice's [send_status] is 'failed' at the end, and no
    ledger row and no file record is written. *)
Theorem missing_settings_fail
        (cfg : config) (ext : collaborators) (SECRET : string) (now : Z)
        (j : MockQueue.job job_data) (d : db) :
  invoice_settings d = None ->
  unsubscribed (loaded_preferences
                  (customerEmail (invoiceData (MockQueue.data j))) d) = false ->
  let run := processJob cfg ext SECRET now j d in
  let id := invoiceId (MockQueue.data j) in
  outcome_of run
  = inr (JsError
           "Cannot read properties of undefined (reading 'email_enabled')"
           None)
  /\ trace_of run
     = [EvProgress 10; EvProgress 40; EvSendStatus id SendFailed]
  /\ row_send_status <$> invoices (db_of run) !! id
     = (fun _ => SendFailed) <$> invoices d !! id
  /\ (forall i, i <> id -> invoices (db_of run) !! i = invoices d !! i)
  /\ send_logs (db_of run) = send_logs d
  /\ invoice_files (db_of run) = invoice_files d.
Proof.
  intros Hs Hu. cbn zeta. rewrite processJob_run. cbn zeta. rewrite Hu, Hs.
  rewrite generate_pdf_run.
  cbn [outcome_of db_of trace_of fst snd app].
  autorewrite with run_state.
  split; [reflexivity|]. split; [reflexivity|].
  split; [at_invoice d j|].
  split; [|split; reflexivity].
  intros i Hi. apply lookup_alter_ne. intros E. apply Hi. symmetry. exact E.
Qed.

Lemma missing_settings_fail_witness :
  outcome_of (Sample.run Sample.cfg Sample.ext db_bare)
  = inr (JsError
           "Cannot read properties of undefined (reading 'email_enabled')"
           None)
  /\ row_send_status
       <$> invoices (db_of (Sample.run Sample.cfg Sample.ext db_bare)) !! 5
     = Some SendFailed.
Proof.
  pose proof (missing_settings_fail Sample.cfg Sample.ext
                UrlSigning.DEFAULT_SECRET Sample.now0 Sample.job0 db_bare
                eq_refl eq_refl) as H.
  cbn zeta in H. destruct H as (Ho & _ & Hst & _).
  split; [exact Ho | exact Hst].
Defined.

(** X12.  When neither channel applies (switched off, no address, no opt-
    in), the job still returns success and marks the invoice 'sent',
    although no channel was tried and no ledger row was written. *)
Theorem nothing_to_send_is_sent
        (cfg : config) (ext : collaborators) (SECRET : string) (now : Z)
        (j : MockQueue.job job_data) (d : db) (st : settings) :
  let jd := MockQueue.data j in
  let prefs := loaded_preferences (customerEmail (invoiceData jd)) d in
  invoice_settings d = Some st ->
  unsubscribed prefs = false ->
  email_wanted jd st = false ->
  sms_wanted jd st prefs = false ->
  let run := processJob cfg ext SECRET now j d in
  (exists f, outcome_of run = inl (Success (invoiceId jd) f))
  /\ send_logs (db_of run) = send_logs d
  /\ channel_phases Email (trace_of run) = []
  /\ channel_phases Sms (trace_of run) = []
  /\ row_send_status <$> invoices (db_of run) !! invoiceId jd
     = (fun _ => SendSent) <$> invoices d !! invoiceId jd.
Proof.
  cbn zeta. intros Hs Hu He Hm.
  name_run cfg ext SECRET now j d; try congruence;
    (split; [eexists; reflexivity|]);
    (split; [reflexivity|]); (split; [reflexivity|]);
    (split; [reflexivity|]); at_invoice d j.
Qed.

(** An instance: both channels are switched off. *)
Lemma nothing_to_send_is_sent_witness :
  row_send_status
    <$> invoices (db_of (Sample.run Sample.cfg Sample.ext db_off)) !! 5
  = Some SendSent.
Proof.
  pose proof (nothing_to_send_is_sent Sample.cfg Sample.ext
                UrlSigning.DEFAULT_SECRET Sample.now0 Sample.job0 db_off
                st_off eq_refl eq_refl eq_refl eq_refl) as H.
  cbn zeta in H. destruct H as (_ & _ & _ & _ & H).
  etransitivity; [exact H|]. vm_compute. reflexivity.
Defined.

(** X13.  A run that does anything on the SMS channel has read a settings
    row with SMS switched on, a phone number, and a preferences row of the
    customer with [sms_opt_in] set and [email_unsubscribed] clear.  In
    particular no SMS is tried for a customer without preferences row or
    while the preferences table is missing. *)
Theorem sms_needs_opt_in
        (cfg : config) (ext : collaborators) (SECRET : string) (now : Z)
        (j : MockQueue.job job_data) (d : db) :
  let jd := MockQueue.data j in
  channel_phases Sms (trace_of (processJob cfg ext SECRET now j d)) <> [] ->
  exists st p,
    invoice_settings d = Some st
    /\ sms_enabled st = true
    /\ truthy (customerPhone (invoiceData jd)) = true
    /\ select_preferences (customerEmail (invoiceData jd)) d = inl (Some p)
    /\ sms_opt_in p = true
    /\ email_unsubscribed p = false.
Proof.
  cbn zeta. intros H.
  assert (exists st,
             invoice_settings d = Some st
             /\ sms_wanted (MockQueue.data j) st
                  (loaded_preferences
                     (customerEmail (invoiceData (MockQueue.data j))) d) = true
             /\ unsubscribed
                  (loaded_preferences
                     (customerEmail (invoiceData (MockQueue.data j))) d) = false)
    as (st & Hs & Hw & Hu).
  { revert H. run_cases; intros H;
      try (exfalso; apply H; reflexivity);
      eexists; repeat split; eassumption. }
  exists st. unfold sms_wanted in Hw.
  apply andb_true_iff in Hw as [Hw Ho]. apply andb_true_iff in Hw as [He Hp].
  unfold loaded_preferences in Ho, Hu.
  destruct (select_preferences _ d) as [[p|]|err]; try discriminate Ho.
  exists p. repeat split; assumption.
Qed.

Lemma sms_needs_opt_in_witness :
  exists st p,
    invoice_settings Sample.db0 = Some st
    /\ sms_enabled st = true
    /\ truthy (customerPhone (invoiceData (MockQueue.data Sample.job0))) = true
    /\ select_preferences
         (customerEmail (invoiceData (MockQueue.data Sample.job0))) Sample.db0
       = inl (Some p)
    /\ sms_opt_in p = true
    /\ email_unsubscribed p = false.
Proof.
  apply (sms_needs_opt_in Sample.cfg Sample.ext UrlSigning.DEFAULT_SECRET
           Sample.now0 Sample.job0 Sample.db0).
  vm_compute. discriminate.
Defined.


Ltac unfold_rows :=
  unfold States.sms_sent, States.sms_failed, States.email_sent,
    States.sms_marked_sent, States.email_marked_sent,
    States.sms_logged, States.email_logged, update_invoice,
    update_logs_where, insert_send_log, with_logs, with_invoices;
  cbn [snd send_logs send_logs_seq].

Lemma sms_sent_keeps (now : Z) (jd : job_data) (st : settings)
      (r : send_result) (d : db) (x : send_log) :
  List.In x (send_logs d) -> log_id x <= send_logs_seq d ->
  List.In x (send_logs (States.sms_sent now jd st r d)).
Proof.
  intros Hin Hle. unfold_rows.
  apply List.in_map_iff. exists x.
  split; [|apply List.in_or_app; left; exact Hin].
  replace (log_id x =? send_logs_seq d + 1) with false
    by (symmetry; apply Z.eqb_neq; lia).
  reflexivity.
Qed.

Lemma sms_failed_keeps (now : Z) (jd : job_data) (st : settings)
      (e : thrown) (d : db) (x : send_log) :
  List.In x (send_logs d) -> log_id x <= send_logs_seq d ->
  List.In x (send_logs (States.sms_failed now jd st e d)).
Proof.
  intros Hin Hle. unfold_rows.
  apply List.in_map_iff. exists x.
  split; [|apply List.in_or_app; left; exact Hin].
  replace (log_id x =? send_logs_seq d + 1) with false
    by (symmetry; apply Z.eqb_neq; lia).
  reflexivity.
Qed.

Lemma email_sent_row (now : Z) (jd : job_data) (st : settings)
      (r : send_result) (json : option string) (d : db) :
  List.In (set_sent_email (now_s now) (sr_messageId r) json
             (sending_row (send_logs_seq d + 1) (now_s now) (invoiceId jd)
                Email (customerEmail (invoiceData jd)) (email_provider st)
                (triggeredBy jd) (triggerType jd)))
          (send_logs (States.email_sent now jd st r json d)).
Proof.
  unfold_rows.
  rewrite List.map_app. cbn [List.map sending_row log_id].
  rewrite Z.eqb_refl. apply List.in_or_app. right. left. reflexivity.
Qed.

(** With the flag columns in place, a delivered email leaves a recent
    'sent' row behind. *)
Lemma delivered_row
      (cfg : config) (ext : collaborators) (SECRET : string) (now : Z)
      (j : MockQueue.job job_data) (d : db) :
  invoice_flag_columns d = true ->
  logged_sent Email (trace_of (processJob cfg ext SECRET now j d)) = true ->
  exists row,
    List.In row (send_logs (db_of (processJob cfg ext SECRET now j d)))
    /\ log_invoice_id row = invoiceId (MockQueue.data j)
    /\ log_send_type row = Email
    /\ log_status_of row = LogSent
    /\ log_created_at row = now_s now.
Proof.
  intros Hf. run_cases; intros H; try discriminate H; try congruence;
    (eexists; split;
     [ first
         [ apply sms_sent_keeps; [apply email_sent_row|cbn; lia]
         | apply sms_failed_keeps; [apply email_sent_row|cbn; lia]
         | apply email_sent_row ]
     | repeat split ]).
Qed.

End JobFacts.

(** ** The channel services *)

Module ServiceFacts.
Import Db Vocabulary.

Lemma or_else_not_empty (o : option string) (dflt : string) :
  dflt <> EmptyString -> or_else o dflt <> EmptyString.
Proof.
  intros H. unfold or_else. destruct o as [s|]; [|exact H].
  destruct (String.eqb s EmptyString) eqn:E; [exact H|].
  apply String.eqb_neq in E. exact E.
Qed.

(** X14.  [init] binds exactly the provider the settings name, 'sendgrid'
    resp. 'twilio' when they name none, and only when the credentials of
    that provider are configured and the construction of its client does
    not throw: it never falls back to another provider that is configured.
    When the construction of the client of the named and configured
    provider throws, [init] throws the same error. *)
Theorem init_binds_named_provider
        (cfg : config) (ext : collaborators) (st : settings) :
  (forall p,
      EmailService.init cfg ext st = inl p
      <-> or_else (email_provider st) "sendgrid" = EmailService.providerName p
          /\ truthy (email_credential cfg p) = true
          /\ email_client ext p = None)
  /\ (forall p e,
         or_else (email_provider st) "sendgrid" = EmailService.providerName p ->
         truthy (email_credential cfg p) = true ->
         email_client ext p = Some e ->
         EmailService.init cfg ext st = inr e)
  /\ (forall p,
         SmsService.init cfg ext st = inl p
         <-> or_else (sms_provider st) "twilio" = SmsService.providerName p
             /\ truthy (sms_credential cfg p) = true
             /\ sms_client ext p = None)
  /\ (forall p e,
         or_else (sms_provider st) "twilio" = SmsService.providerName p ->
         truthy (sms_credential cfg p) = true ->
         sms_client ext p = Some e ->
         SmsService.init cfg ext st = inr e).
Proof.
  split; [|split; [|split]].
  - intros p. unfold EmailService.init. cbn zeta.
    generalize (or_else (email_provider st) "sendgrid"). intros name.
    split.
    + destruct (String.eqb name "sendgrid") eqn:E1; cbn [andb].
      { apply String.eqb_eq in E1. subst name.
        destruct (truthy (sendgrid_apiKey cfg)) eqn:K; [|cbn; discriminate].
        unfold EmailService.construct.
        destruct (sendgrid_client ext) eqn:C; [discriminate|].
        intros H. injection H as <-. repeat split; assumption. }
      destruct (String.eqb name "mailgun") eqn:E2; cbn [andb].
      { apply String.eqb_eq in E2. subst name.
        destruct (truthy (mailgun_apiKey cfg)) eqn:K; [|cbn; discriminate].
        unfold EmailService.construct.
        destruct (mailgun_client ext) eqn:C; [discriminate|].
        intros H. injection H as <-. repeat split; assumption. }
      destruct (String.eqb name "ses") eqn:E3; cbn [andb]; [|discriminate].
      apply String.eqb_eq in E3. subst name.
      destruct (truthy (ses_accessKeyId cfg)) eqn:K; [|discriminate].
      unfold EmailService.construct.
      destruct (ses_client ext) eqn:C; [discriminate|].
      intros H. injection H as <-. repeat split; assumption.
    + intros (-> & K & C).
      destruct p; cbn in K, C |- *; rewrite K, C; reflexivity.
  - intros p e N K C. unfold EmailService.init. cbn zeta. rewrite N.
    destruct p; cbn in K, C |- *; rewrite K, C; reflexivity.
  - intros p. unfold SmsService.init. cbn zeta.
    generalize (or_else (sms_provider st) "twilio"). intros name.
    split.
    + destruct (String.eqb name "twilio") eqn:E1; cbn [andb].
      { apply String.eqb_eq in E1. subst name.
        destruct (truthy (twilio_accountSid cfg)) eqn:K; [|cbn; discriminate].
        unfold SmsService.construct.
        destruct (twilio_client ext) eqn:C; [discriminate|].
        intros H. injection H as <-. repeat split; assumption. }
      destruct (String.eqb name "vonage") eqn:E2; cbn [andb]; [|discriminate].
      apply String.eqb_eq in E2. subst name.
      destruct (truthy (vonage_apiKey cfg)) eqn:K; [|discriminate].
      unfold SmsService.construct.
      destruct (vonage_client ext) eqn:C; [discriminate|].
      intros H. injection H as <-. repeat split; assumption.
    + intros (-> & K & C).
      destruct p; cbn in K, C |- *; rewrite K, C; reflexivity.
  - intros p e N K C. unfold SmsService.init. cbn zeta. rewrite N.
    destruct p; cbn in K, C |- *; rewrite K, C; reflexivity.
Qed.

Lemma init_binds_named_provider_witness :
  EmailService.init Sample.cfg Sample.ext Sample.st = inl EmailService.SendGrid
  /\ SmsService.init Sample.cfg Sample.ext Sample.st = inl SmsService.Twilio
  /\ EmailService.init cfg_mailgun (Sample.failing_client Sample.boom) st_mailgun
     = inr Sample.boom.
Proof.
  destruct (init_binds_named_provider Sample.cfg Sample.ext Sample.st)
    as (He & _ & Hs & _).
  destruct (init_binds_named_provider cfg_mailgun
              (Sample.failing_client Sample.boom) st_mailgun)
    as (_ & Hc & _).
  split; [apply He; repeat split; reflexivity|].
  split; [apply Hs; repeat split; reflexivity|].
  apply (Hc EmailService.Mailgun Sample.boom); reflexivity.
Defined.

(** X15.  An invalid phone number fails the SMS before the message is
    rendered and before the provider is contacted: the failure names the
    provider and the number, whatever the template engine and the provider
    client would have done. *)
Theorem invalid_phone_fails_fast
        (ext : collaborators) (p : SmsService.provider) (params : sms_params) :
  parsePhoneNumber ext (JS.slotToString (sp_to params)) = None ->
  forall ext',
    parsePhoneNumber ext' = parsePhoneNumber ext ->
    SmsService.sendInvoiceSMS ext' p params
    = inr (ChannelFailure
             (Some (SmsService.providerName p))
             (Some ("Invalid phone number: " ++ JS.slotToString (sp_to params))%string)
             None).
Proof.
  intros H ext' E.
  unfold SmsService.sendInvoiceSMS, SmsService.attempt,
    SmsService.validatePhoneNumber.
  rewrite E, H. reflexivity.
Qed.

Lemma invalid_phone_fails_fast_witness :
  SmsService.sendInvoiceSMS Sample.ext SmsService.Twilio
    (SmsParams (Some "12345") "Ann" Sample.data1001 None Sample.st)
  = inr (ChannelFailure (Some "twilio") (Some "Invalid phone number: 12345")
                        None).
Proof.
  exact (invalid_phone_fails_fast Sample.ext SmsService.Twilio
           (SmsParams (Some "12345") "Ann" Sample.data1001 None Sample.st)
           eq_refl Sample.ext eq_refl).
Defined.

Lemma email_without_pdf
      (ext : collaborators) (p : EmailService.provider) (params : email_params) :
  ep_pdfBuffer params = None ->
  p <> EmailService.SendGrid ->
  exists m c,
    EmailService.sendInvoiceEmail ext p params
    = inr (ChannelFailure (Some (EmailService.providerName p)) m c).
Proof.
  intros Hb Hp.
  unfold EmailService.sendInvoiceEmail, EmailService.attempt.
  destruct (renderTemplate ext params) as [r|e].
  - unfold EmailService.transport, EmailService.attachments_of.
    rewrite Hb. cbn [ed_attachments].
    destruct p; [contradiction Hp; reflexivity| |]; eexists _, _; reflexivity.
  - eexists _, _. reflexivity.
Qed.

End ServiceFacts.

(** ** Email without attachment *)

Module DegradedFacts.
Import Db Effect Worker Trace States WorkerFacts Vocabulary.

(** X16.  When no PDF could be made and the email goes through Mailgun or
    SES, the email is attempted without attachment and that attempt always
    throws: the email row ends 'failed', the job fails and the invoice is
    marked 'failed'. *)
Theorem degraded_email_needs_sendgrid
        (cfg : config) (ext : collaborators) (SECRET : string) (now : Z)
        (j : MockQueue.job job_data) (d : db) (st : settings)
        (p : EmailService.provider) (e : thrown) :
  let jd := MockQueue.data j in
  let run := processJob cfg ext SECRET now j d in
  invoice_settings d = Some st ->
  unsubscribed (loaded_preferences (customerEmail (invoiceData jd)) d) = false ->
  (generateInvoicePDF ext (invoiceData jd) (companyData st) = inr e
   \/ exists buf,
       generateInvoicePDF ext (invoiceData jd) (companyData st) = inl buf
       /\ savePDF ext buf (pdf_file_name (invoiceData jd)) = inr e) ->
  email_wanted jd st = true ->
  EmailService.init cfg ext st = inl p ->
  p <> EmailService.SendGrid ->
  (exists m c,
      outcome_of run
      = inr (ChannelFailure (Some (EmailService.providerName p)) m c))
  /\ channel_phases Email (trace_of run)
     = [PhInsert (send_logs_seq d + 1); PhInit; PhDispatch;
        PhFailed (send_logs_seq d + 1)]
  /\ logged_sent Email (trace_of run) = false
  /\ row_send_status <$> invoices (db_of run) !! invoiceId jd
     = (fun _ => SendFailed) <$> invoices d !! invoiceId jd.
Proof.
  cbn zeta. intros Hs Hu Hpdf Hw Hi Hp.
  rewrite processJob_run. cbn zeta. rewrite Hu, Hs, generate_pdf_run.
  cbn zeta.
  destruct Hpdf as [Hr | (buf & Hr & Hsv)]; rewrite Hr; [|rewrite Hsv];
    cbn beta iota zeta;
    rewrite send_email_run, Hw; cbn zeta; rewrite Hi;
    destruct (ServiceFacts.email_without_pdf ext p
                (email_params_of cfg (MockQueue.data j) st
                   (loaded_preferences
                      (customerEmail (invoiceData (MockQueue.data j))) d)
                   no_artifact) eq_refl Hp) as (m & c & ->);
    cbn [outcome_of db_of trace_of fst snd];
    autorewrite with run_state;
    (split; [exists m, c; reflexivity|]);
    (split; [reflexivity|]); (split; [reflexivity|]);
    rewrite lookup_alter_eq;
    destruct (invoices d !! invoiceId (MockQueue.data j)); reflexivity.
Qed.

Lemma degraded_email_needs_sendgrid_witness :
  exists m c,
    outcome_of
      (Sample.run cfg_mailgun (Sample.failing_render Sample.boom) db_mailgun)
    = inr (ChannelFailure (Some "mailgun") m c).
Proof.
  exact (proj1 (degraded_email_needs_sendgrid
                  cfg_mailgun (Sample.failing_render Sample.boom)
                  UrlSigning.DEFAULT_SECRET Sample.now0 Sample.job0 db_mailgun
                  st_mailgun EmailService.Mailgun Sample.boom
                  eq_refl eq_refl (or_introl eq_refl) eq_refl eq_refl
                  ltac:(discriminate))).
Defined.

End DegradedFacts.

(** ** The routes *)

Module RouteFacts.
Import Db Effect Worker Trace States WorkerFacts Routes MoreRoutes Vocabulary.


(** *** The newest file of an invoice *)

Lemma fold_newer_file (l : list invoice_file) (b : invoice_file) :
  exists f,
    List.fold_left newer_file l (Some b) = Some f
    /\ (f = b \/ List.In f l)
    /\ generated_at b <= generated_at f
    /\ forall x, List.In x l -> generated_at x <= generated_at f.
Proof.
  revert b. induction l as [|x l IH]; intros b.
  - exists b. cbn. repeat split; [left; reflexivity | lia | intros x []].
  - cbn [List.fold_left newer_file].
    destruct (generated_at b <? generated_at x) eqn:E.
    + apply Z.ltb_lt in E.
      destruct (IH x) as (r & Hr & Hin & Hle & Hall).
      exists r. split; [exact Hr|]. split.
      * right. destruct Hin as [->|Hin]; [left; reflexivity | right; exact Hin].
      * split; [lia|]. intros y [<-|Hy]; [exact Hle | apply Hall, Hy].
    + apply Z.ltb_ge in E.
      destruct (IH b) as (r & Hr & Hin & Hle & Hall).
      exists r. split; [exact Hr|]. split.
      * destruct Hin as [->|Hin]; [left; reflexivity | right; right; exact Hin].
      * split; [lia|]. intros y [<-|Hy]; [lia | apply Hall, Hy].
Qed.

Lemma select_latest_file_spec (invoice : Z) (d : db) :
  match select_latest_file invoice d with
  | None => Forall (fun f => file_invoice_id f <> invoice) (invoice_files d)
  | Some f =>
      List.In f (invoice_files d)
      /\ file_invoice_id f = invoice
      /\ forall g, List.In g (invoice_files d) -> file_invoice_id g = invoice ->
                   generated_at g <= generated_at f
  end.
Proof.
  unfold select_latest_file.
  destruct (List.filter (fun f => file_invoice_id f =? invoice) (invoice_files d))
    as [|x l] eqn:E.
  - cbn. apply List.Forall_forall. intros f Hf Hid.
    assert (H : List.In f (List.filter (fun f => file_invoice_id f =? invoice)
                                       (invoice_files d)))
      by (apply List.filter_In; split; [exact Hf | apply Z.eqb_eq, Hid]).
    rewrite E in H. destruct H.
  - cbn [List.fold_left newer_file].
    destruct (fold_newer_file l x) as (r & -> & Hrin & Hle & Hall).
    assert (Hr : List.In r (x :: l))
      by (destruct Hrin as [->|H]; [left; reflexivity | right; exact H]).
    rewrite <- E in Hr. apply List.filter_In in Hr as [R1 R2].
    apply Z.eqb_eq in R2. repeat split; try assumption.
    intros g Hg Hgid.
    assert (Hg' : List.In g (x :: l))
      by (rewrite <- E; apply List.filter_In; split;
          [exact Hg | apply Z.eqb_eq, Hgid]).
    destruct Hg' as [<-|Hg']; [exact Hle | apply Hall, Hg'].
Qed.

Lemma empty_token_rejected (SECRET : string) (now : Z) (v : JS.jsval) :
  UrlSigning.verifySignedUrl SECRET now "" v = false.
Proof. reflexivity. Qed.

Lemma verified_token_truthy (SECRET : string) (now : Z) (token : string)
      (v : JS.jsval) :
  UrlSigning.verifySignedUrl SECRET now token v = true ->
  truthy (Some token) = true.
Proof.
  intros H. destruct token as [|c r]; [|reflexivity].
  rewrite empty_token_rejected in H. discriminate H.
Qed.

(** X17.  The PDF route, given a token that verifies, answers with the
    newest file record of the invoice: it streams the file when the record
    says 'local' and redirects to the stored link otherwise; it answers
    404 only when the invoice has no file record at all. *)
Theorem pdf_route_serves_latest
        (SECRET : string) (now invoice : Z) (token : string) (d : db) :
  UrlSigning.verifySignedUrl SECRET now token (JS.JNum invoice) = true ->
  match get_pdf SECRET now invoice (Some token) d with
  | Forbidden => False
  | PdfNotFound =>
      Forall (fun f => file_invoice_id f <> invoice) (invoice_files d)
  | StreamFile path =>
      exists f, List.In f (invoice_files d)
                /\ file_invoice_id f = invoice
                /\ storage_type f = "local" /\ file_path f = path
                /\ forall g, List.In g (invoice_files d) ->
                             file_invoice_id g = invoice ->
                             generated_at g <= generated_at f
  | RedirectTo url =>
      exists f, List.In f (invoice_files d)
                /\ file_invoice_id f = invoice
                /\ storage_type f <> "local" /\ signed_url f = url
                /\ forall g, List.In g (invoice_files d) ->
                             file_invoice_id g = invoice ->
                             generated_at g <= generated_at f
  end.
Proof.
  intros V. unfold get_pdf.
  rewrite (verified_token_truthy _ _ _ _ V). cbn [JS.slotToString].
  rewrite V. cbn [negb orb].
  pose proof (select_latest_file_spec invoice d) as S.
  destruct (select_latest_file invoice d) as [f|]; [|exact S].
  destruct S as (Hin & Hid & Hmax).
  destruct (String.eqb (storage_type f) "local") eqn:E.
  - apply String.eqb_eq in E. exists f. repeat split; assumption.
  - apply String.eqb_neq in E. exists f. repeat split; assumption.
Qed.

Lemma pdf_route_serves_latest_witness :
  get_pdf UrlSigning.DEFAULT_SECRET Sample.now0 5
    (Some (UrlSigning.generateSignedUrl UrlSigning.DEFAULT_SECRET Sample.now0
             (JS.JNum 5) 7))
    (db_of (Sample.run Sample.cfg Sample.ext Sample.db0))
  <> Forbidden.
Proof.
  intros E.
  pose proof (pdf_route_serves_latest UrlSigning.DEFAULT_SECRET Sample.now0 5
                (UrlSigning.generateSignedUrl UrlSigning.DEFAULT_SECRET
                   Sample.now0 (JS.JNum 5) 7)
                (db_of (Sample.run Sample.cfg Sample.ext Sample.db0))
                ltac:(vm_compute; reflexivity)) as H.
  rewrite E in H. exact H.
Defined.

(** X18.  The page route and the PDF route admit the same requests: one
    answers 403 exactly when the other does. *)
Theorem view_and_pdf_share_the_gate
        (SECRET : string) (now invoice : Z) (token : option string) (d : db)
        (render_page : invoice_row -> option settings -> string -> result string) :
  get_view SECRET now render_page invoice token d = ViewDenied
  <-> get_pdf SECRET now invoice token d = Forbidden.
Proof.
  unfold get_view, get_pdf.
  destruct (negb (truthy token)
            || negb (UrlSigning.verifySignedUrl SECRET now
                       (JS.slotToString token) (JS.JNum invoice))).
  - split; reflexivity.
  - split; intros H.
    + destruct (invoices d !! invoice) as [row|]; [|discriminate H].
      destruct (render_page row _ _); discriminate H.
    + destruct (select_latest_file invoice d) as [f|]; [|discriminate H].
      destruct (String.eqb (storage_type f) "local"); discriminate H.
Qed.


(** *** What a run adds to the file table *)

Lemma files_after_run
      (cfg : config) (ext : collaborators) (SECRET : string) (now : Z)
      (j : MockQueue.job job_data) (d : db) :
  let run := processJob cfg ext SECRET now j d in
  invoice_files (db_of run) = invoice_files d ++ files_of (trace_of run)
  /\ Forall (fun f => file_invoice_id f = invoiceId (MockQueue.data j)
                      /\ generated_at f = now_s now)
            (files_of (trace_of run))
  /\ (List.length (files_of (trace_of run)) <= 1)%nat.
Proof.
  cbn zeta. name_run cfg ext SECRET now j d;
    cbn [files_of List.flat_map app List.length];
    rewrite ?List.app_nil_r;
    (split; [reflexivity|]);
    (split; [repeat constructor|lia]).
Qed.

Lemma latest_of_appended (l : list invoice_file) (f : invoice_file) :
  Forall (fun g => generated_at g < generated_at f) l ->
  List.fold_left newer_file (l ++ [f]) None = Some f.
Proof.
  intros H. rewrite List.fold_left_app. cbn [List.fold_left].
  destruct l as [|x l]; [reflexivity|].
  cbn [List.fold_left newer_file].
  destruct (fold_newer_file l x) as (r & -> & Hin & _ & _).
  assert (Hr : generated_at r < generated_at f).
  { apply (proj1 (List.Forall_forall _ _) H).
    destruct Hin as [->|Hin]; [left; reflexivity | right; exact Hin]. }
  cbn [newer_file].
  replace (generated_at r <? generated_at f) with true
    by (symmetry; apply Z.ltb_lt; exact Hr).
  reflexivity.
Qed.

(** X19.  A file the job has stored is the one the PDF route serves next,
    to whoever holds a token that verifies, provided the invoice has no
    file record dated at or after the run. *)
Theorem stored_pdf_is_served
        (cfg : config) (ext : collaborators) (SECRET : string) (now : Z)
        (j : MockQueue.job job_data) (d : db) (f : invoice_file)
        (SECRET' : string) (t : Z) (token : string) :
  let run := processJob cfg ext SECRET now j d in
  let id := invoiceId (MockQueue.data j) in
  List.In f (files_of (trace_of run)) ->
  Forall (fun g => file_invoice_id g = id -> generated_at g < now_s now)
         (invoice_files d) ->
  UrlSigning.verifySignedUrl SECRET' t token (JS.JNum id) = true ->
  get_pdf SECRET' t id (Some token) (db_of run)
  = if String.eqb (storage_type f) "local"
    then StreamFile (file_path f)
    else RedirectTo (signed_url f).
Proof.
  cbn zeta. intros Hf Hold V.
  destruct (files_after_run cfg ext SECRET now j d) as (Hfiles & Hall & Hlen).
  cbn zeta in Hfiles, Hall, Hlen.
  destruct (files_of (trace_of (processJob cfg ext SECRET now j d)))
    as [|f0 [|f1 l]]; [destruct Hf| |cbn in Hlen; lia].
  destruct Hf as [->|[]].
  apply List.Forall_cons_iff in Hall as [[Hid Hgen] _].
  unfold get_pdf.
  rewrite (verified_token_truthy _ _ _ _ V). cbn [JS.slotToString].
  rewrite V. cbn [negb orb].
  unfold select_latest_file. rewrite Hfiles, List.filter_app.
  cbn [List.filter]. rewrite Hid, Z.eqb_refl.
  rewrite latest_of_appended; [reflexivity|].
  apply List.Forall_forall. intros g Hg.
  apply List.filter_In in Hg as [Hg Hgid]. apply Z.eqb_eq in Hgid.
  rewrite Hgen. exact (proj1 (List.Forall_forall _ _) Hold g Hg Hgid).
Qed.

Lemma stored_pdf_is_served_witness :
  get_pdf UrlSigning.DEFAULT_SECRET Sample.now0 5
    (Some (UrlSigning.generateSignedUrl UrlSigning.DEFAULT_SECRET Sample.now0
             (JS.JNum 5) 7))
    (db_of (Sample.run Sample.cfg Sample.ext Sample.db0))
  = StreamFile "storage/invoices/invoice-INV-1001.pdf".
Proof.
  exact (stored_pdf_is_served Sample.cfg Sample.ext UrlSigning.DEFAULT_SECRET
           Sample.now0 Sample.job0 Sample.db0
           (file_record Sample.now0 5
              (FileInfo "invoice-INV-1001.pdf"
                        "storage/invoices/invoice-INV-1001.pdf" 4 "hash"
                        "local")
              (worker_token UrlSigning.DEFAULT_SECRET Sample.now0 5 Sample.st))
           UrlSigning.DEFAULT_SECRET Sample.now0
           (UrlSigning.generateSignedUrl UrlSigning.DEFAULT_SECRET
              Sample.now0 (JS.JNum 5) 7)
           ltac:(vm_compute; left; reflexivity)
           ltac:(constructor)
           ltac:(vm_compute; reflexivity)).
Defined.

(** *** The resend route and the job *)

(** X20.  Without a recent delivery on record, the resend route answers
    404 for an unknown invoice and otherwise runs the delivery job before
    it answers: the response says 'queued' whenever the job returned, also
    when it was skipped, and it is the error response with the job's error
    when the job threw.  The database and the trace are the job's. *)
Theorem resend_runs_the_job
        (cfg : config) (ext : collaborators) (SECRET : string) (now : Z)
        (invoice : Z) (user : option string) (d : db) :
  select_recent_email_send (now / 1000) invoice d = None ->
  post_send now (invoiceQueue cfg ext SECRET now) invoice user d
  = match invoices d !! invoice with
    | None => (inl InvoiceNotFound, d, [])
    | Some row =>
        let run :=
          processJob cfg ext SECRET now
            (MockQueue.Job (JS.numToString now)
               (JobData invoice (row_data row) (Some (or_else user "manual"))
                        (Some "manual"))) d in
        (inl (match outcome_of run with
              | inl _ => QueuedForSending (JS.numToString now)
              | inr e => Failure e
              end),
         db_of run, trace_of run)
    end.
Proof.
  intros Hnone. unfold post_send, try_catch, bind, read, ret.
  rewrite Hnone. cbn beta iota zeta.
  destruct (invoices d !! invoice) as [row|]; [|reflexivity].
  unfold invoiceQueue, MockQueue.process, MockQueue.add.
  cbn [MockQueue.processor]. unfold try_catch, bind, ret, throw. cbn zeta.
  destruct (processJob cfg ext SECRET now _ d) as [[[r|e] d'] t];
    cbn [outcome_of db_of trace_of fst snd MockQueue.id MockQueue.added_id app];
    rewrite ?List.app_nil_r; reflexivity.
Qed.

Lemma resend_runs_the_job_witness :
  outcome_of (post_send Sample.now0
                (invoiceQueue Sample.cfg Sample.ext UrlSigning.DEFAULT_SECRET
                              Sample.now0)
                5 None (Sample.db_with Sample.prefs_out))
  = inl (QueuedForSending "1700000000000").
Proof.
  rewrite (resend_runs_the_job Sample.cfg Sample.ext UrlSigning.DEFAULT_SECRET
             Sample.now0 5 None (Sample.db_with Sample.prefs_out) eq_refl).
  vm_compute. reflexivity.
Defined.

(** X21.  Once a run on a database whose invoices table has the flag
    columns has written 'sent' on its email row, the resend route, asked
    within the hour, reports a 'sent' or 'delivered' email row of the
    invoice and starts nothing.  (Without the flag columns the row is
    overwritten with 'failed' in the same run.) *)
Theorem delivered_invoice_is_not_resent
        (cfg : config) (ext : collaborators) (SECRET : string) (now : Z)
        (j : MockQueue.job job_data) (d : db)
        (later : Z) (queue : MockQueue.queue job_data job_result)
        (user : option string) :
  let run := processJob cfg ext SECRET now j d in
  invoice_flag_columns d = true ->
  logged_sent Email (trace_of run) = true ->
  later / 1000 - 3600 < now / 1000 ->
  exists row,
    post_send later queue (invoiceId (MockQueue.data j)) user (db_of run)
    = (inl (AlreadySent row), db_of run, [])
    /\ List.In row (send_logs (db_of run))
    /\ log_invoice_id row = invoiceId (MockQueue.data j)
    /\ log_send_type row = Email
    /\ (log_status_of row = LogSent \/ log_status_of row = LogDelivered).
Proof.
  cbn zeta. intros Hflags Hsent Hlate.
  destruct (JobFacts.delivered_row cfg ext SECRET now j d Hflags Hsent)
    as (row0 & Hin & Hid & Hty & Hst & Hat).
  assert (Hrec : is_recent_email_send (later / 1000)
                   (invoiceId (MockQueue.data j)) row0 = true).
  { unfold is_recent_email_send. rewrite Hid, Hty, Hst, Hat, Z.eqb_refl.
    replace (later / 1000 - 3600 <? now_s now) with true
      by (symmetry; apply Z.ltb_lt; exact Hlate).
    reflexivity. }
  destruct (RouteProperties.select_recent_email_send_some _ _ _ _ Hin Hrec)
    as (row & Hsel & Hrin & Hrrec & _).
  exists row. split.
  { unfold post_send, try_catch, bind, read. rewrite Hsel. reflexivity. }
  split; [exact Hrin|].
  unfold is_recent_email_send in Hrrec.
  apply andb_true_iff in Hrrec as [Hrrec _].
  apply andb_true_iff in Hrrec as [Hrrec Hs].
  apply andb_true_iff in Hrrec as [Hi Ht].
  apply Z.eqb_eq in Hi.
  split; [exact Hi|]. split.
  - destruct (log_send_type row); [reflexivity|discriminate Ht].
  - destruct (log_status_of row); try discriminate Hs; [left|right]; reflexivity.
Qed.

Lemma delivered_invoice_is_not_resent_witness :
  exists row,
    post_send (Sample.now0 + 600000)
      (invoiceQueue Sample.cfg Sample.ext UrlSigning.DEFAULT_SECRET
                    (Sample.now0 + 600000))
      5 None (db_of (Sample.run Sample.cfg Sample.ext Sample.db0))
    = (inl (AlreadySent row),
       db_of (Sample.run Sample.cfg Sample.ext Sample.db0), []).
Proof.
  destruct (delivered_invoice_is_not_resent
              Sample.cfg Sample.ext UrlSigning.DEFAULT_SECRET Sample.now0
              Sample.job0 Sample.db0 (Sample.now0 + 600000)
              (invoiceQueue Sample.cfg Sample.ext UrlSigning.DEFAULT_SECRET
                            (Sample.now0 + 600000))
              None eq_refl
              ltac:(vm_compute; reflexivity) ltac:(vm_compute; reflexivity))
    as (row & E & _).
  exists row. exact E.
Defined.

(** Without the flag columns the same delivery is followed by a
    failure, the row does not stay 'sent', and the route, asked ten
    minutes later, runs the job again. *)
Example unflagged_delivery_is_resent :
  let first := Sample.run Sample.cfg Sample.ext Sample.db_fresh in
  let later := Sample.now0 + 600000 in
  let second :=
    post_send later
      (invoiceQueue Sample.cfg Sample.ext UrlSigning.DEFAULT_SECRET later)
      5 None (db_of first) in
  logged_sent Email (trace_of first) = true
  /\ List.map log_status_of (send_logs (db_of first)) = [LogFailed]
  /\ outcome_of second = inl (Failure (no_such_column "email_sent"))
  /\ List.map log_status_of (send_logs (db_of second)) = [LogFailed; LogFailed].
Proof. vm_compute. repeat split; reflexivity. Qed.

End RouteFacts.

(** ** Creating an invoice *)

Module CreateFacts.
Import Db Effect Worker Trace States WorkerFacts Routes MoreRoutes Vocabulary.

(** *** Ids and invoice numbers *)

Lemma le_fold_max (k : Z) (l : list Z) :
  List.In k l -> k <= List.fold_right Z.max 0 l.
Proof.
  induction l as [|x l IH]; intros H; [destruct H|].
  cbn [List.fold_right]. destruct H as [->|H]; [lia|].
  specialize (IH H). lia.
Qed.

Lemma next_invoice_id_fresh (d : db) : invoices d !! next_invoice_id d = None.
Proof.
  destruct (invoices d !! next_invoice_id d) as [row|] eqn:E; [|reflexivity].
  exfalso. apply elem_of_map_to_list in E.
  apply list_elem_of_In in E.
  apply (List.in_map fst) in E. cbn [fst] in E.
  apply le_fold_max in E. unfold next_invoice_id in E. lia.
Qed.

Lemma number_taken_iff (n : string) (d : db) :
  number_taken n d = true
  <-> exists k row, invoices d !! k = Some row
                    /\ invoiceNumber (row_data row) = n.
Proof.
  unfold number_taken. rewrite List.existsb_exists. split.
  - intros ([k row] & Hin & Heq). cbn [snd] in Heq.
    apply String.eqb_eq in Heq. exists k, row. split; [|exact Heq].
    apply elem_of_map_to_list, list_elem_of_In. exact Hin.
  - intros (k & row & Hk & Heq). exists (k, row). split.
    + apply list_elem_of_In, elem_of_map_to_list. exact Hk.
    + cbn [snd]. apply String.eqb_eq. exact Heq.
Qed.

(** Numbers are taken for good: the job leaves the data of every invoice
    as it is. *)
Lemma run_keeps_data
      (cfg : config) (ext : collaborators) (SECRET : string) (now : Z)
      (j : MockQueue.job job_data) (d : db) (k : Z) :
  row_data <$> invoices (db_of (processJob cfg ext SECRET now j d)) !! k
  = row_data <$> invoices d !! k.
Proof.
  destruct (Z.eq_dec k (invoiceId (MockQueue.data j))) as [->|Hk].
  - name_run cfg ext SECRET now j d;
      rewrite ?lookup_alter_eq;
      destruct (invoices d !! invoiceId (MockQueue.data j)); reflexivity.
  - name_run cfg ext SECRET now j d;
      rewrite ?lookup_alter_ne by (intros E; apply Hk; symmetry; exact E);
      reflexivity.
Qed.

Lemma run_keeps_numbers
      (cfg : config) (ext : collaborators) (SECRET : string) (now : Z)
      (j : MockQueue.job job_data) (d : db) (n : string) :
  number_taken n d = true ->
  number_taken n (db_of (processJob cfg ext SECRET now j d)) = true.
Proof.
  rewrite !number_taken_iff. intros (k & row & Hk & Hn).
  pose proof (run_keeps_data cfg ext SECRET now j d k) as H.
  rewrite Hk in H. cbn [fmap option_fmap option_map] in H.
  destruct (invoices (db_of (processJob cfg ext SECRET now j d)) !! k)
    as [row'|] eqn:E'; [|discriminate H].
  cbn [fmap option_fmap option_map] in H. injection H as H.
  exists k, row'. split; [exact E'|]. rewrite H. exact Hn.
Qed.

Lemma failed_run_status
      (cfg : config) (ext : collaborators) (SECRET : string) (now : Z)
      (j : MockQueue.job job_data) (d : db) (e : thrown) :
  outcome_of (processJob cfg ext SECRET now j d) = inr e ->
  row_send_status
    <$> invoices (db_of (processJob cfg ext SECRET now j d))
          !! invoiceId (MockQueue.data j)
  = (fun _ => SendFailed) <$> invoices d !! invoiceId (MockQueue.data j).
Proof.
  name_run cfg ext SECRET now j d; intros H; try discriminate H;
    rewrite ?lookup_alter_eq;
    destruct (invoices d !! invoiceId (MockQueue.data j)); reflexivity.
Qed.

(** *** Creating an invoice *)

Section Create.
Variable cfg : config.
Variable ext : collaborators.
Variable SECRET : string.
Variable stored_columns : string -> string.

Abbreviation create now :=
  (post_create now (invoiceQueue cfg ext SECRET now) stored_columns).

Abbreviation inserted body d :=
  (with_invoices d
     (<[next_invoice_id d := new_row stored_columns body]> (invoices d))).

Abbreviation first_job now body user d :=
  (processJob cfg ext SECRET now
     (MockQueue.Job (JS.numToString now)
        (JobData (next_invoice_id d) body (Some (or_else user "system")) None))
     (inserted body d)).

Lemma post_create_run (now : Z) (body : invoice_data) (user : option string)
      (d : db) :
  create now body user d
  = if number_taken (invoiceNumber body) d
    then (inl (CreateFailed unique_violation), d, [])
    else if auto_send (invoice_settings d) then
           let run := first_job now body user d in
           (inl (match outcome_of run with
                 | inl _ => Created (next_invoice_id d) true
                 | inr e => CreateFailed e
                 end),
            db_of run, trace_of run)
         else (inl (Created (next_invoice_id d) false), inserted body d, []).
Proof.
  unfold post_create, try_catch, bind, read, ret, insert_invoice.
  destruct (number_taken (invoiceNumber body) d); [reflexivity|].
  cbn beta iota zeta.
  change (invoice_settings (with_invoices d _)) with (invoice_settings d).
  destruct (auto_send (invoice_settings d)); [|reflexivity].
  unfold invoiceQueue, MockQueue.process, MockQueue.add.
  cbn [MockQueue.processor]. unfold try_catch, bind, ret, throw. cbn zeta.
  destruct (processJob cfg ext SECRET now _ _) as [[[r|e] d'] t];
    cbn [outcome_of db_of trace_of fst snd app];
    rewrite ?List.app_nil_r; reflexivity.
Qed.

Lemma number_taken_after_insert (body : invoice_data) (d : db) :
  number_taken (invoiceNumber body) (inserted body d) = true.
Proof.
  apply number_taken_iff.
  exists (next_invoice_id d), (new_row stored_columns body).
  split; [|reflexivity].
  unfold with_invoices. cbn [invoices]. apply lookup_insert_eq.
Qed.

Lemma number_taken_after_create (now : Z) (body : invoice_data)
      (user : option string) (d : db) :
  number_taken (invoiceNumber body) (db_of (create now body user d)) = true.
Proof.
  rewrite post_create_run.
  destruct (number_taken (invoiceNumber body) d) eqn:T; [exact T|].
  destruct (auto_send (invoice_settings d)).
  - cbn zeta. cbn [db_of fst snd].
    apply run_keeps_numbers, number_taken_after_insert.
  - apply number_taken_after_insert.
Qed.

End Create.

(** X22.  POST / with a number that is not taken inserts the invoice as
    'pending' under an id no invoice had.  With auto-send off that is all;
    with auto-send on, the delivery job runs on the new invoice before the
    response is sent, which is 201 when the job returned and the error
    response, with the job's error, when it threw. *)
Theorem create_runs_the_job
        (cfg : config) (ext : collaborators) (SECRET : string) (now : Z)
        (stored_columns : string -> string)
        (body : invoice_data) (user : option string) (d : db) :
  number_taken (invoiceNumber body) d = false ->
  let id := next_invoice_id d in
  let d0 := with_invoices d (<[id := new_row stored_columns body]> (invoices d)) in
  invoices d !! id = None
  /\ post_create now (invoiceQueue cfg ext SECRET now) stored_columns body user d
     = if auto_send (invoice_settings d) then
         let run :=
           processJob cfg ext SECRET now
             (MockQueue.Job (JS.numToString now)
                (JobData id body (Some (or_else user "system")) None)) d0 in
         (inl (match outcome_of run with
               | inl _ => Created id true
               | inr e => CreateFailed e
               end),
          db_of run, trace_of run)
       else (inl (Created id false), d0, []).
Proof.
  intros T. cbn zeta. split; [apply next_invoice_id_fresh|].
  rewrite post_create_run, T. reflexivity.
Qed.

Lemma create_runs_the_job_witness :
  outcome_of
    (post_create Sample.now0
       (invoiceQueue Sample.cfg Sample.ext UrlSigning.DEFAULT_SECRET Sample.now0)
       (fun c => c) body1002 None Sample.db0)
  = inl (Created 6 true).
Proof.
  rewrite (proj2 (create_runs_the_job Sample.cfg Sample.ext
                    UrlSigning.DEFAULT_SECRET Sample.now0 (fun c => c)
                    body1002 None Sample.db0 ltac:(vm_compute; reflexivity))).
  vm_compute. reflexivity.
Defined.

(** X23.  A second POST / with the same invoice number is rejected by the
    UNIQUE constraint and changes nothing, whatever the first one
    answered: also when the first answered with an error because the
    delivery job threw. *)
Theorem create_twice_rejected
        (cfg : config) (ext : collaborators) (SECRET : string)
        (now later : Z) (stored_columns : string -> string)
        (body body' : invoice_data) (user user' : option string) (d : db) :
  invoiceNumber body' = invoiceNumber body ->
  let first :=
    post_create now (invoiceQueue cfg ext SECRET now) stored_columns
                body user d in
  post_create later (invoiceQueue cfg ext SECRET later) stored_columns
              body' user' (db_of first)
  = (inl (CreateFailed unique_violation), db_of first, []).
Proof.
  intros Hn. cbn zeta. rewrite (post_create_run _ _ _ _ later), Hn.
  rewrite number_taken_after_create. reflexivity.
Qed.

Lemma create_twice_rejected_witness :
  let first :=
    post_create Sample.now0
      (invoiceQueue Sample.cfg_bare Sample.ext UrlSigning.DEFAULT_SECRET
                    Sample.now0)
      (fun c => c) body1002 None Sample.db0 in
  post_create (Sample.now0 + 1000)
    (invoiceQueue Sample.cfg_bare Sample.ext UrlSigning.DEFAULT_SECRET
                  (Sample.now0 + 1000))
    (fun c => c) body1002 None (db_of first)
  = (inl (CreateFailed unique_violation), db_of first, []).
Proof.
  exact (create_twice_rejected Sample.cfg_bare Sample.ext
           UrlSigning.DEFAULT_SECRET Sample.now0 (Sample.now0 + 1000)
           (fun c => c) body1002 body1002 None None Sample.db0 eq_refl).
Defined.

(** X24.  When POST / answers with an error although the number was free,
    the invoice has been inserted all the same, and it is marked 'failed'. *)
Theorem failed_create_leaves_invoice
        (cfg : config) (ext : collaborators) (SECRET : string) (now : Z)
        (stored_columns : string -> string)
        (body : invoice_data) (user : option string) (d : db) (e : thrown) :
  number_taken (invoiceNumber body) d = false ->
  let first :=
    post_create now (invoiceQueue cfg ext SECRET now) stored_columns
                body user d in
  outcome_of first = inl (CreateFailed e) ->
  exists row,
    invoices (db_of first) !! next_invoice_id d = Some row
    /\ row_send_status row = SendFailed
    /\ row_data row = row_data (new_row stored_columns body).
Proof.
  intros T. cbn zeta. rewrite post_create_run, T.
  destruct (auto_send (invoice_settings d));
    cbn zeta; cbn [outcome_of db_of trace_of fst snd];
    [|intros H; discriminate H].
  set (j := MockQueue.Job _ _).
  set (d0 := with_invoices d _).
  destruct (outcome_of (processJob cfg ext SECRET now j d0)) as [r|e'] eqn:O;
    [intros H; discriminate H|].
  intros _.
  pose proof (failed_run_status cfg ext SECRET now j d0 e' O) as Hs.
  pose proof (run_keeps_data cfg ext SECRET now j d0 (next_invoice_id d)) as Hd.
  change (invoiceId (MockQueue.data j)) with (next_invoice_id d) in Hs.
  assert (H0 : invoices d0 !! next_invoice_id d
               = Some (new_row stored_columns body))
    by (apply lookup_insert_eq).
  rewrite H0 in Hs, Hd.
  destruct (invoices (db_of (processJob cfg ext SECRET now j d0))
              !! next_invoice_id d) as [row|]; [|discriminate Hs].
  cbn [fmap option_fmap option_map] in Hs, Hd.
  injection Hs as Hs. injection Hd as Hd.
  exists row. repeat split; assumption.
Qed.

Lemma failed_create_leaves_invoice_witness :
  exists row,
    invoices
      (db_of (post_create Sample.now0
                (invoiceQueue Sample.cfg_bare Sample.ext
                              UrlSigning.DEFAULT_SECRET Sample.now0)
                (fun c => c) body1002 None Sample.db0))
      !! next_invoice_id Sample.db0 = Some row
    /\ row_send_status row = SendFailed
    /\ row_data row = row_data (new_row (fun c => c) body1002).
Proof.
  apply (failed_create_leaves_invoice Sample.cfg_bare Sample.ext
           UrlSigning.DEFAULT_SECRET Sample.now0 (fun c => c) body1002 None
           Sample.db0
           (JsError "Email provider not configured: sendgrid" None)).
  - vm_compute. reflexivity.
  - vm_compute. reflexivity.
Defined.

End CreateFacts.

(** ** The column migrations *)

Module MigrationFacts.
Import Migration.

Lemma same_name_refl (a : string) : same_name a a = true.
Proof.
  induction a as [|c a IH]; [reflexivity|].
  cbn [same_name]. rewrite Z.eqb_refl, IH. reflexivity.
Qed.

Lemma exact_is_same (name : string) (cols : list string) :
  List.existsb (String.eqb name) cols = true ->
  List.existsb (same_name name) cols = true.
Proof.
  rewrite !List.existsb_exists. intros (x & Hin & Hx).
  apply String.eqb_eq in Hx. subst x.
  exists name. split; [exact Hin | apply same_name_refl].
Qed.

Lemma migrate_present (t : table) (c : string) :
  has_column t c = true -> migrate_column t c = t.
Proof.
  unfold has_column, migrate_column. intros H.
  destruct (List.existsb (String.eqb (first_word c)) (table_info t));
    [reflexivity|].
  cbn [negb]. destruct t as [cols|]; [|reflexivity].
  cbn [add_column table_info] in *. rewrite H. reflexivity.
Qed.

Lemma migrate_absent (cols : list string) (c : string) :
  has_column (Some cols) c = false ->
  migrate_column (Some cols) c = Some (cols ++ [first_word c]).
Proof.
  unfold has_column, migrate_column. cbn [table_info add_column]. intros H.
  destruct (List.existsb (String.eqb (first_word c)) cols) eqn:E.
  - apply exact_is_same in E. rewrite E in H. discriminate H.
  - cbn [negb]. rewrite H. reflexivity.
Qed.

Lemma migrate_missing_table (c : string) : migrate_column None c = None.
Proof.
  unfold migrate_column. cbn [table_info List.existsb negb add_column].
  reflexivity.
Qed.

Lemma has_column_app (cols more : list string) (c : string) :
  has_column (Some cols) c = true -> has_column (Some (cols ++ more)) c = true.
Proof.
  unfold has_column. cbn [table_info]. rewrite List.existsb_app.
  intros ->. reflexivity.
Qed.

Lemma has_column_last (cols : list string) (c : string) :
  has_column (Some (cols ++ [first_word c])) c = true.
Proof.
  unfold has_column. cbn [table_info]. rewrite List.existsb_app.
  cbn [List.existsb]. rewrite same_name_refl, orb_true_r. reflexivity.
Qed.

Lemma up_present (columns : list string) (t : table) :
  List.forallb (has_column t) columns = true -> up columns t = t.
Proof.
  unfold up. induction columns as [|c cs IH]; intros H; [reflexivity|].
  cbn [List.forallb] in H. apply andb_true_iff in H as [Hc Hcs].
  cbn [List.fold_left]. rewrite migrate_present by exact Hc. apply IH, Hcs.
Qed.

Lemma up_missing_table (columns : list string) : up columns None = None.
Proof.
  unfold up. induction columns as [|c cs IH]; [reflexivity|].
  cbn [List.fold_left]. rewrite migrate_missing_table. exact IH.
Qed.

Lemma up_table (columns : list string) (cols : list string) :
  exists added,
    up columns (Some cols) = Some (cols ++ added)
    /\ (forall c, has_column (Some cols) c = true
                  \/ List.In c columns ->
                  has_column (Some (cols ++ added)) c = true)
    /\ Forall (fun a => exists c, List.In c columns /\ a = first_word c) added.
Proof.
  unfold up. revert cols.
  induction columns as [|c cs IH]; intros cols.
  - exists []. rewrite List.app_nil_r. split; [reflexivity|].
    split; [intros c [H|[]]; exact H | constructor].
  - cbn [List.fold_left].
    destruct (has_column (Some cols) c) eqn:Hc.
    + rewrite migrate_present by exact Hc.
      destruct (IH cols) as (added & E & Hall & Hnew).
      exists added. split; [exact E|]. split.
      * intros x [Hx|[<-|Hx]]; apply Hall; [left; exact Hx | left; exact Hc
                                            | right; exact Hx].
      * eapply List.Forall_impl; [|exact Hnew]. cbn beta.
        intros a (x & Hx & ->). exists x. split; [right; exact Hx|reflexivity].
    + rewrite migrate_absent by exact Hc.
      destruct (IH (cols ++ [first_word c])) as (added & E & Hall & Hnew).
      exists (first_word c :: added).
      replace (cols ++ first_word c :: added)
        with ((cols ++ [first_word c]) ++ added)
        by (rewrite <- List.app_assoc; reflexivity).
      split; [exact E|]. split.
      * intros x [Hx|[<-|Hx]]; apply Hall.
        -- left. apply has_column_app. exact Hx.
        -- left. apply has_column_last.
        -- right. exact Hx.
      * constructor.
        -- exists c. split; [left; reflexivity|reflexivity].
        -- eapply List.Forall_impl; [|exact Hnew]. cbn beta.
           intros a (x & Hx & ->). exists x. split; [right; exact Hx|reflexivity].
Qed.

(** X25.  After [up] on an existing table every column of the list is
    there, the columns the table had are kept in place, and every column
    added is one of the list.  This holds whatever the table looked like
    before, also when some of the columns were there already. *)
Theorem migration_adds_missing_columns (columns cols : list string) :
  exists added,
    up columns (Some cols) = Some (cols ++ added)
    /\ List.forallb (has_column (Some (cols ++ added))) columns = true
    /\ Forall (fun a => exists c, List.In c columns /\ a = first_word c) added.
Proof.
  destruct (up_table columns cols) as (added & E & Hall & Hnew).
  exists added. split; [exact E|]. split; [|exact Hnew].
  apply List.forallb_forall. intros c Hc. apply Hall. right. exact Hc.
Qed.

(** X26.  Running [up] a second time changes nothing, and on a database
    without the table [up] changes nothing either: every ALTER fails and
    the failure is only logged. *)
Theorem migration_idempotent (columns : list string) (t : table) :
  up columns (up columns t) = up columns t
  /\ up columns None = None.
Proof.
  split; [|apply up_missing_table].
  destruct t as [cols|].
  - destruct (up_table columns cols) as (added & -> & Hall & _).
    apply up_present. apply List.forallb_forall.
    intros c Hc. apply Hall. right. exact Hc.
  - rewrite !up_missing_table. reflexivity.
Qed.

End MigrationFacts.

(** ** Hashing and storing a PDF *)

Module PdfFacts.
Import JS Charset Crypto CryptoFacts PdfGenerator.

Lemma compress_length (h block : list Z) :
  List.length h = 8%nat -> List.length (compress h block) = 8%nat.
Proof.
  intros H. unfold compress. cbn zeta.
  rewrite List.length_map, List.length_combine, H.
  unfold words_of. reflexivity.
Qed.

Lemma fold_compress_length (bl : list (list Z)) (h : list Z) :
  List.length h = 8%nat ->
  List.length (List.fold_left compress bl h) = 8%nat.
Proof.
  revert h. induction bl as [|b bl IH]; intros h H; [exact H|].
  cbn [List.fold_left]. apply IH, compress_length, H.
Qed.

Lemma be_bytes_length (n : nat) (v : Z) : List.length (be_bytes n v) = n.
Proof. induction n as [|n IH]; cbn [be_bytes List.length]; congruence. Qed.

Lemma concat_words_length (h : list Z) :
  List.length (List.concat (List.map (be_bytes 4) h))
  = (4 * List.length h)%nat.
Proof.
  induction h as [|w h IH]; [reflexivity|].
  cbn [List.map List.concat]. rewrite List.length_app, be_bytes_length, IH.
  cbn [List.length]. lia.
Qed.

Lemma sha256_length (msg : list Z) : List.length (sha256 msg) = 32%nat.
Proof.
  unfold sha256. cbn zeta.
  rewrite concat_words_length, fold_compress_length; reflexivity.
Qed.

Lemma hex_length (bs : list Z) :
  String.length (hex bs) = (2 * List.length bs)%nat.
Proof.
  induction bs as [|b bs IH]; [reflexivity|].
  cbn [hex String.length List.length]. rewrite IH. lia.
Qed.

(** X27.  The file hash of any buffer is a text of 64 characters, each a
    digit or one of the letters a to f. *)
Theorem file_hash_shape (buffer : string) :
  String.length (generateFileHash buffer) = 64%nat
  /\ all_codes is_hex (generateFileHash buffer) = true.
Proof.
  unfold generateFileHash. split.
  - rewrite hex_length, sha256_length. reflexivity.
  - apply hex_is_hex, sha256_byte.
Qed.

(** X28.  When [savePDF] returns, the storage type is 'local' or 's3', the
    file has been written under that type before, and the record carries
    the name it was given, the byte count of the buffer and its hash; with
    any other storage type [savePDF] does not return. *)
Theorem savePDF_record (st : storage) (x : io) (buffer fileName : string)
        (s : saved) (t : list io_event) :
  savePDF st x buffer fileName = (inl s, t) ->
  saved_fileName s = fileName
  /\ saved_fileSize s = Z.of_nat (String.length buffer)
  /\ saved_fileHash s = generateFileHash buffer
  /\ saved_storageType s = storage_type_of st
  /\ ((storage_type_of st = "local"
       /\ saved_filePath s = path_join x (localPath st) fileName
       /\ t = [IoMkdir (localPath st); IoWriteFile (saved_filePath s) buffer])
      \/ (storage_type_of st = "s3"
          /\ saved_filePath s = ("invoices/" ++ fileName)%string
          /\ s3_sign x (saved_filePath s) = inl (saved_publicUrl s)
          /\ t = [IoPut (saved_filePath s) buffer; IoSign (saved_filePath s)])).
Proof.
  unfold savePDF. cbn zeta.
  destruct (String.eqb (storage_type_of st) "local") eqn:L.
  - apply String.eqb_eq in L.
    destruct (mkdir x (localPath st)); [discriminate|].
    destruct (writeFile x _ buffer); [discriminate|].
    intros H. injection H as <- <-. cbn.
    repeat split; try reflexivity; [symmetry; exact L|].
    left. repeat split. exact L.
  - destruct (String.eqb (storage_type_of st) "s3") eqn:S; [|discriminate].
    apply String.eqb_eq in S. unfold saveToS3.
    destruct (s3_put x _ buffer); [discriminate|].
    destruct (s3_sign x _) as [url|e] eqn:U; [|discriminate].
    intros H. injection H as <- <-. cbn.
    repeat split; try reflexivity; [symmetry; exact S|].
    right. repeat split; [exact S|exact U].
Qed.

(** An instance: four bytes stored locally. *)
Lemma savePDF_record_witness :
  saved_fileSize
    (Saved "a.pdf" "storage/invoices/a.pdf" 4 (generateFileHash "%PDF")
           "local" "http://localhost:3000/files/a.pdf")
  = 4.
Proof.
  exact (proj1 (proj2 (savePDF_record
                         Vocabulary.storage_local Vocabulary.io_ok
                         "%PDF" "a.pdf" _ _ eq_refl))).
Defined.

End PdfFacts.

(** ** Numeric options *)

Module EnvFacts.
Import JS JSFacts Env.

Lemma nearest_double_safe (n : Z) : safe_int n -> nearest_double n = n.
Proof.
  intros H. unfold nearest_double. cbn zeta.
  replace (Z.abs n <? 2 ^ 53) with true; [reflexivity|].
  symmetry. apply Z.ltb_lt. unfold safe_int in H. lia.
Qed.

(** Beyond the integers doubles hold exactly, the option reads back the
    nearest double. *)
Example int_option_rounds :
  int_option (Some "9007199254740993") 7 = 9007199254740992
  /\ int_option (Some "9007199254740995") 7 = 9007199254740996
  /\ int_option (Some "-18014398509481987") 7 = - 18014398509481988.
Proof. vm_compute. repeat split. Qed.

(** X29.  A numeric option reads back a non-zero integer written in
    decimal, when the integer is one that doubles hold exactly (below
    2^53 in absolute value); written as 0, left unset or left empty, it
    takes its default. *)
Theorem int_option_reads (n dflt : Z) :
  safe_int n ->
  int_option (Some (numToString n)) dflt = (if n =? 0 then dflt else n)
  /\ int_option None dflt = dflt
  /\ int_option (Some "") dflt = dflt.
Proof.
  intros Hn. unfold int_option. cbn [slotToString].
  rewrite parseInt_numToString. cbn zeta.
  rewrite (nearest_double_safe n Hn). repeat split.
Qed.

Lemma int_option_reads_witness :
  safe_int 14
  /\ int_option (Some "14") 7 = 14
  /\ int_option None 7 = 7
  /\ int_option (Some "") 7 = 7.
Proof.
  assert (H : safe_int 14) by (unfold safe_int; lia).
  split; [exact H|]. exact (int_option_reads 14 7 H).
Defined.

End EnvFacts.

(** ** Characters the decoder skips *)

Module DecoderFacts.
Import JS Buffer JSFacts BufferFacts UrlSigning Charset.

Lemma utf16_low_seven_bit (a s : string) :
  all_codes is_seven_bit a = true ->
  utf16_low (a ++ s) = (a ++ utf16_low s)%string.
Proof.
  induction a as [|x a IH]; intros H; [reflexivity|].
  cbn [all_codes] in H. apply andb_true_iff in H as [Hx Ha].
  unfold is_seven_bit in Hx. apply andb_true_iff in Hx as [_ Hx].
  apply Z.leb_le in Hx.
  change (String x a ++ s)%string with (String x (a ++ s)).
  rewrite utf16_low_single by lia.
  rewrite IH by exact Ha. reflexivity.
Qed.

Lemma low_sextets_skip (a b : string) (c : ascii) :
  b64_val c = None -> code c <> 61 ->
  low_sextets (a ++ String c b) = low_sextets (a ++ b).
Proof.
  intros Hv Hc. induction a as [|x a IH].
  - change ("" ++ String c b)%string with (String c b).
    change ("" ++ b)%string with b.
    cbn [low_sextets]. rewrite Hv.
    replace (code c =? 61) with false
      by (symmetry; apply Z.eqb_neq; exact Hc).
    reflexivity.
  - change (String x a ++ String c b)%string with (String x (a ++ String c b)).
    change (String x a ++ b)%string with (String x (a ++ b)).
    cbn [low_sextets]. rewrite IH. reflexivity.
Qed.

Lemma sextets_skip (a b : string) (c : ascii) :
  all_codes is_seven_bit a = true -> code c < 128 ->
  b64_val c = None -> code c <> 61 ->
  b64_sextets (a ++ String c b) = b64_sextets (a ++ b).
Proof.
  intros Ha H7 Hv Hc. unfold b64_sextets.
  rewrite !utf16_low_seven_bit by exact Ha.
  rewrite utf16_low_single by lia.
  apply low_sextets_skip; assumption.
Qed.

(** The decoder sees the low byte of a UTF-16 unit only: U+0141 and
    U+0241 are read as [A], U+2F2F as [/], and U+0100, whose low byte is
    zero, is skipped. *)
Example low_byte_is_decoded :
  b64_sextets (string_of_bytes [197; 129]) = b64_sextets "A"
  /\ b64_sextets (string_of_bytes [201; 129]) = b64_sextets "A"
  /\ b64_sextets (string_of_bytes [226; 188; 175]) = b64_sextets "/"
  /\ b64_sextets (string_of_bytes [196; 128]) = [].
Proof. vm_compute. repeat split. Qed.

(** X30.  A seven-bit character that is neither in the base64 alphabets
    nor the padding character is skipped by the decoder: put into a token
    after any seven-bit text, it does not change what [verifySignedUrl]
    answers. *)
Theorem stray_character_ignored
        (SECRET : string) (t : Z) (a b : string) (c : ascii) (v : jsval) :
  all_codes is_seven_bit a = true -> code c < 128 ->
  b64_val c = None -> code c <> 61 ->
  verifySignedUrl SECRET t (a ++ String c b) v
  = verifySignedUrl SECRET t (a ++ b) v.
Proof.
  intros Ha H7 Hv Hc.
  unfold verifySignedUrl, token_fields, fromBase64, b64_decode.
  rewrite (sextets_skip a b c Ha H7 Hv Hc). reflexivity.
Qed.

(** An instance: a line break in the middle of a minted token. *)
Lemma stray_character_ignored_witness :
  verifySignedUrl DEFAULT_SECRET 1700000000000
    ("NToxNzAwNjA0ODAwMDAwOjI" ++ String (chr 10) "x") (JNum 5)
  = verifySignedUrl DEFAULT_SECRET 1700000000000
      ("NToxNzAwNjA0ODAwMDAwOjI" ++ "x") (JNum 5).
Proof.
  apply (stray_character_ignored DEFAULT_SECRET 1700000000000
           "NToxNzAwNjA0ODAwMDAwOjI" "x" (chr 10) (JNum 5)).
  - reflexivity.
  - vm_compute. reflexivity.
  - reflexivity.
  - vm_compute. discriminate.
Defined.

End DecoderFacts.
